(** * Trading-Data-Viewer: the aggregation queries, the catalog scan and the
      data endpoints of [app.py], as Rocq functions, with the properties of
      the specification proved (or refuted) about them.

    The program is a Flask service over SQLite.  The Python code is embedded
    function by function; the SQL it sends is embedded by the meaning SQLite
    gives to each clause (WHERE, window ROW_NUMBER, GROUP BY, the aggregates,
    ORDER BY, LIMIT) over tables held as lists of rows.

    The connection manager is embedded as a transition system over the
    threads of the server, and the routes of the saved drawings over JSON
    values and the one table they write, with what SQLite does on INSERT,
    DELETE and SELECT of that table. *)

From Stdlib Require Import ZArith List Bool Ascii String Lia.
From Stdlib Require Import Sorting.Sorted Sorting.Permutation.
Import ListNotations.

Local Open Scope list_scope.
Local Open Scope string_scope.
Local Open Scope Z_scope.

(* ================================================================== *)
(** * Text: decimal digits, printf, and the time values of SQLite      *)
(* ================================================================== *)

Module Text.

(** Character of a decimal digit [0 <= d <= 9], and back. *)
Definition digit_char (d : Z) : ascii := ascii_of_N (Z.to_N (48 + d)).

Definition digit_val (c : ascii) : option Z :=
  let n := Z.of_N (N_of_ascii c) in
  if (48 <=? n) && (n <=? 57) then Some (n - 48) else None.

(** Decimal digits of a non-negative integer, most significant first. *)
Fixpoint dec_loop (fuel : nat) (n : Z) (acc : string) : string :=
  let acc' := String (digit_char (n mod 10)) acc in
  match fuel with
  | O => acc'
  | S f => if n / 10 =? 0 then acc' else dec_loop f (n / 10) acc'
  end.

Definition decimal (n : Z) : string := dec_loop (Z.to_nat (Z.log2 n)) n "".

Fixpoint zeros (k : nat) : string :=
  match k with O => "" | S k' => String "0" (zeros k') end.

Definition zero_pad (width : nat) (s : string) : string :=
  zeros (width - String.length s) ++ s.

(** [printf('%0<width>d', z)]: sign first, then zeros up to the width. *)
Definition printf_0d (width : nat) (z : Z) : string :=
  if z <? 0 then String "-" (zero_pad (width - 1) (decimal (- z)))
  else zero_pad width (decimal z).

(** The calendar fields of a time value. *)
Record time_value : Type := mk_time_value
  { year : Z; month : Z; day : Z; hour : Z; minute : Z; second : Z }.

Definition is_leap (y : Z) : bool :=
  (y mod 4 =? 0) && (negb (y mod 100 =? 0) || (y mod 400 =? 0)).

Definition days_in_month (y m : Z) : Z :=
  if m =? 2 then (if is_leap y then 29 else 28)
  else if (m =? 4) || (m =? 6) || (m =? 9) || (m =? 11) then 30
  else 31.

Definition in_range (lo x hi : Z) : bool := (lo <=? x) && (x <=? hi).

Definition valid_time_value (t : time_value) : bool :=
  in_range 0 (year t) 9999 && in_range 1 (month t) 12 &&
  in_range 1 (day t) (days_in_month (year t) (month t)) &&
  in_range 0 (hour t) 23 && in_range 0 (minute t) 59 &&
  in_range 0 (second t) 59.

(** Reading [n] decimal digits off the front of a text, as SQLite's
    [getDigits] does for each field of [YYYY-MM-DD HH:MM:SS]. *)
Fixpoint get_digits (n : nat) (acc : Z) (s : string) : option (Z * string) :=
  match n with
  | O => Some (acc, s)
  | S k =>
      match s with
      | String c r =>
          match digit_val c with
          | Some d => get_digits k (10 * acc + d) r
          | None => None
          end
      | EmptyString => None
      end
  end.

Definition expect (c : ascii) (s : string) : option string :=
  match s with
  | String x r => if Ascii.eqb x c then Some r else None
  | EmptyString => None
  end.

Definition obind {A B} (o : option A) (f : A -> option B) : option B :=
  match o with Some a => f a | None => None end.

Notation "x <- e ;; k" := (obind e (fun x => k))
  (at level 61, e at next level, right associativity).
Notation "' ( x , y ) <- e ;; k" := (obind e (fun p => let '(x, y) := p in k))
  (at level 61, x name, y name, e at next level, right associativity).

Definition parse_ymd (s : string) : option (Z * Z * Z * string) :=
  '(y, s1) <- get_digits 4 0 s ;;
  s2 <- expect "-" s1 ;;
  '(m, s3) <- get_digits 2 0 s2 ;;
  s4 <- expect "-" s3 ;;
  '(d, s5) <- get_digits 2 0 s4 ;;
  Some (y, m, d, s5).

Fixpoint skip_digits (s : string) : string :=
  match s with
  | String c r =>
      match digit_val c with
      | Some _ => skip_digits r
      | None => s
      end
  | EmptyString => EmptyString
  end.

(** The fraction of a second, which the queries do not look at: a point
    and one digit at least.  A point without a digit is not read. *)
Definition skip_fraction (s : string) : option string :=
  match s with
  | String c r =>
      if Ascii.eqb c "." then
        match r with
        | String d r' =>
            match digit_val d with
            | Some _ => Some (skip_digits r')
            | None => None
            end
        | EmptyString => None
        end
      else Some s
  | EmptyString => Some s
  end.

(** [HH:MM], [HH:MM:SS] or [HH:MM:SS.SSS], and what follows it. *)
Definition parse_hms (s : string) : option (Z * Z * Z * string) :=
  '(h, s1) <- get_digits 2 0 s ;;
  s2 <- expect ":" s1 ;;
  '(mi, s3) <- get_digits 2 0 s2 ;;
  match expect ":" s3 with
  | Some s4 =>
      '(se, s5) <- get_digits 2 0 s4 ;;
      s6 <- skip_fraction s5 ;;
      Some (h, mi, se, s6)
  | None => Some (h, mi, 0, s3)
  end.

(** The zone suffix [Z], which leaves the time as it is written. *)
Definition skip_zulu (s : string) : string :=
  match s with
  | String c r => if Ascii.eqb c "Z" || Ascii.eqb c "z" then r else s
  | EmptyString => EmptyString
  end.

(** The time values of the model are the text forms [YYYY-MM-DD]
    (midnight), [YYYY-MM-DD HH:MM], [YYYY-MM-DD HH:MM:SS] and
    [YYYY-MM-DD HH:MM:SS.SSS] with digits after the point, with a blank or
    a [T] between date and time and, after a time, the zone suffix [Z] or
    none, naming a date and a time of the calendar.  The fraction of a
    second is dropped, as the queries drop it.  To any other text the
    model gives the NULL SQLite gives to a text it cannot read.  SQLite
    reads further forms (a zone offset, blanks around the text or the
    suffix, a time without a date, Julian day numbers, [now], a day past
    the end of its month, hour 24), and it computes with the fraction in
    floating point, so that a fraction of more than 308 digits, or one
    that rounds the last second of the year 9999 up, gives NULL.  These
    are outside the model: the statements below are about tables whose
    timestamps are written in the forms of [Statements.written], which
    leaves them out. *)
Definition parse_time_value (s : string) : option time_value :=
  '(ymd, rest) <- parse_ymd s ;;
  let '(y, m, d) := ymd in
  t <- match rest with
       | EmptyString => Some (mk_time_value y m d 0 0 0)
       | String sep rest' =>
           if Ascii.eqb sep " " || Ascii.eqb sep "T" then
             '(hms, tail) <- parse_hms rest' ;;
             let '(h, mi, se) := hms in
             match skip_zulu tail with
             | EmptyString => Some (mk_time_value y m d h mi se)
             | String _ _ => None
             end
           else None
       end ;;
  if valid_time_value t then Some t else None.

(** strftime fields: [%Y] is [%04d]; [%m %d %H %M %S] are [%02d]. *)
Definition fmt_date (t : time_value) : string :=
  printf_0d 4 (year t) ++ "-" ++ printf_0d 2 (month t) ++ "-" ++
  printf_0d 2 (day t).

Definition fmt_datetime (t : time_value) : string :=
  fmt_date t ++ " " ++ printf_0d 2 (hour t) ++ ":" ++
  printf_0d 2 (minute t) ++ ":" ++ printf_0d 2 (second t).

End Text.

(* ================================================================== *)
(** * SQL values and the scalar functions the queries call             *)
(* ================================================================== *)

Module Sql.
Import Text.

(** A nullable column value: [None] is SQL NULL. *)
Definition text := option string.
Definition integer := option Z.

(** [a || b]: NULL if either side is NULL. *)
Definition concat (a b : text) : text :=
  match a, b with
  | Some x, Some y => Some (x ++ y)
  | _, _ => None
  end.

(** [strftime('%Y-%m-%d %H:', x)] *)
Definition strftime_YmdH (x : text) : text :=
  match x with
  | Some s =>
      match parse_time_value s with
      | Some t => Some (fmt_date t ++ " " ++ printf_0d 2 (hour t) ++ ":")
      | None => None
      end
  | None => None
  end.

(** [strftime('%M', x)] *)
Definition strftime_M (x : text) : text :=
  match x with
  | Some s =>
      match parse_time_value s with
      | Some t => Some (printf_0d 2 (minute t))
      | None => None
      end
  | None => None
  end.

(** [DATE(x)] *)
Definition date (x : text) : text :=
  match x with
  | Some s => option_map fmt_date (parse_time_value s)
  | None => None
  end.

(** [datetime(x)] *)
Definition datetime (x : text) : text :=
  match x with
  | Some s => option_map fmt_datetime (parse_time_value s)
  | None => None
  end.

(** [CAST(x AS INTEGER)] of a text: the value of its leading decimal
    digits, 0 when there is none. *)
Fixpoint leading_digits (s : string) (acc : Z) : Z :=
  match s with
  | String c r =>
      match digit_val c with
      | Some d => leading_digits r (10 * acc + d)
      | None => acc
      end
  | EmptyString => acc
  end.

Definition cast_integer (x : text) : integer :=
  option_map (fun s => leading_digits s 0) x.

(** Integer division truncates toward zero; a zero divisor gives NULL. *)
Definition div (a : integer) (b : Z) : integer :=
  match a with
  | Some x => if b =? 0 then None else Some (Z.quot x b)
  | None => None
  end.

Definition mul (a : integer) (b : Z) : integer :=
  option_map (fun x => x * b) a.

(** [printf('%02d', x)]: a NULL argument prints as 0. *)
Definition printf_02d (x : integer) : text :=
  Some (printf_0d 2 (match x with Some z => z | None => 0 end)).

(** The integers a statement parameter can hold. *)
Definition int64 (z : Z) : bool :=
  (-9223372036854775808 <=? z) && (z <=? 9223372036854775807).

(** [LIMIT n]: a negative [n] puts no bound on the rows returned. *)
Definition limit {A} (n : Z) (l : list A) : list A :=
  if n <? 0 then l else firstn (Z.to_nat n) l.

End Sql.

(* ================================================================== *)
(** * The Python string methods the handlers call                      *)
(* ================================================================== *)

Module Py.
Import Text.

(** A Python [str] is taken as a sequence of code points below 256. *)
Definition code (c : ascii) : Z := Z.of_N (N_of_ascii c).

(** One character of [str.isalnum()]: the letters, decimal digits and
    numeric characters among the code points below 256. *)
Definition char_isalnum (c : ascii) : bool :=
  let n := code c in
  in_range 48 n 57 || in_range 65 n 90 || in_range 97 n 122 ||
  (n =? 170) || (n =? 178) || (n =? 179) || (n =? 181) || (n =? 185) ||
  (n =? 186) || in_range 188 n 190 ||
  in_range 192 n 214 || in_range 216 n 246 || in_range 248 n 255.

Fixpoint all_chars (p : ascii -> bool) (s : string) : bool :=
  match s with
  | EmptyString => true
  | String c r => p c && all_chars p r
  end.

(** [s.isalnum()]: every character alphanumeric, and at least one. *)
Definition isalnum (s : string) : bool :=
  negb (s =? "")%string && all_chars char_isalnum s.

Fixpoint interleave (new s : string) : string :=
  match s with
  | EmptyString => new
  | String c r => new ++ String c (interleave new r)
  end.

(** [skip] counts the characters still covered by the occurrence of [old]
    matched last. *)
Fixpoint replace_from (old new : string) (skip : nat) (s : string) : string :=
  match s with
  | EmptyString => EmptyString
  | String c r =>
      match skip with
      | S k => replace_from old new k r
      | O =>
          if String.prefix old s
          then new ++ replace_from old new (String.length old - 1) r
          else String c (replace_from old new 0 r)
      end
  end.

(** [s.replace(old, new)]: the occurrences of [old], leftmost first and
    not overlapping. *)
Definition replace (old new s : string) : string :=
  if (old =? "")%string then interleave new s else replace_from old new 0 s.

Definition char_lower (c : ascii) : ascii :=
  let n := code c in
  if in_range 65 n 90 || (in_range 192 n 222 && negb (n =? 215))
  then ascii_of_N (Z.to_N (n + 32)) else c.

Fixpoint map_chars (f : ascii -> ascii) (s : string) : string :=
  match s with
  | EmptyString => EmptyString
  | String c r => String (f c) (map_chars f r)
  end.

(** [s.lower()] *)
Definition lower (s : string) : string := map_chars char_lower s.

(** [sub in s] *)
Fixpoint contains (sub s : string) : bool :=
  String.prefix sub s ||
  match s with
  | EmptyString => false
  | String _ r => contains sub r
  end.

Definition char_isspace (c : ascii) : bool :=
  let n := code c in
  in_range 9 n 13 || in_range 28 n 32 || (n =? 133) || (n =? 160).

Fixpoint lstrip (s : string) : string :=
  match s with
  | String c r => if char_isspace c then lstrip r else s
  | EmptyString => EmptyString
  end.

Fixpoint rstrip (s : string) : string :=
  match s with
  | String c r =>
      let r' := rstrip r in
      if (r' =? "")%string && char_isspace c then EmptyString else String c r'
  | EmptyString => EmptyString
  end.

(** Digits with single underscores between them. *)
Fixpoint int_digits (s : string) (acc : Z) (after_digit : bool) : option Z :=
  match s with
  | EmptyString => if after_digit then Some acc else None
  | String c r =>
      match digit_val c with
      | Some d => int_digits r (10 * acc + d) true
      | None =>
          if Ascii.eqb c "_" && after_digit then int_digits r acc false
          else None
      end
  end.

(** The blanks [int()] skips around a number: the six blanks of ASCII and
    the two above 127.  The separators 28 to 31, which [str.strip] takes
    for blanks, [int()] does not. *)
Definition char_intspace (c : ascii) : bool :=
  let n := code c in
  in_range 9 n 13 || (n =? 32) || (n =? 133) || (n =? 160).

Fixpoint int_lstrip (s : string) : string :=
  match s with
  | String c r => if char_intspace c then int_lstrip r else s
  | EmptyString => EmptyString
  end.

Fixpoint int_rstrip (s : string) : string :=
  match s with
  | String c r =>
      let r' := int_rstrip r in
      if (r' =? "")%string && char_intspace c then EmptyString else String c r'
  | EmptyString => EmptyString
  end.

(** The text without its sign. *)
Definition unsigned (s : string) : string :=
  match s with
  | String c r => if Ascii.eqb c "-" || Ascii.eqb c "+" then r else s
  | EmptyString => EmptyString
  end.

(** The digits [int()] counts before it converts: those of the digits and
    underscores the number starts with, when no underscore comes first,
    last or after another one ([None] then). *)
Fixpoint digit_run (s : string) (after_underscore : bool) (digits : Z)
    : option Z :=
  match s with
  | String c r =>
      match digit_val c with
      | Some _ => digit_run r false (digits + 1)
      | None =>
          if Ascii.eqb c "_" then
            if after_underscore then None else digit_run r true digits
          else if after_underscore then None else Some digits
      end
  | EmptyString => if after_underscore then None else Some digits
  end.

Definition digits_counted (s : string) : option Z :=
  digit_run (unsigned (int_lstrip s)) true 0.

(** [sys.get_int_max_str_digits()], as Python sets it. *)
Definition MAX_STR_DIGITS : Z := 4300.

(** [int(s)] of a text in base 10; [None] where Python raises ValueError:
    on a text that is no number, and on a number of more than 4300
    digits. *)
Definition int (s : string) : option Z :=
  match digits_counted s with
  | Some n =>
      if MAX_STR_DIGITS <? n then None
      else
        match int_rstrip (int_lstrip s) with
        | String c r =>
            if Ascii.eqb c "-" then option_map Z.opp (int_digits r 0 false)
            else if Ascii.eqb c "+" then int_digits r 0 false
            else int_digits (String c r) 0 false
        | EmptyString => None
        end
  | None => None
  end.

(** [repr(s)]: between single quotes, or double quotes when the text holds
    a single quote and no double one; the quote in use and the backslash
    are escaped, the characters that do not print are written [\t], [\n],
    [\r] or [\xNN]. *)
Definition single_quote : ascii := ascii_of_N 39.
Definition double_quote : ascii := ascii_of_N 34.
Definition backslash : ascii := ascii_of_N 92.

Definition hex_digit (n : Z) : ascii :=
  ascii_of_N (Z.to_N (if n <? 10 then 48 + n else 87 + n)).

Definition char_isprintable (c : ascii) : bool :=
  let n := code c in
  negb ((n <? 32) || in_range 127 n 160 || (n =? 173)).

Definition repr_char (quote c : ascii) : string :=
  let n := code c in
  if Ascii.eqb c quote || Ascii.eqb c backslash
  then String backslash (String c "")
  else if n =? 9 then String backslash "t"
  else if n =? 10 then String backslash "n"
  else if n =? 13 then String backslash "r"
  else if char_isprintable c then String c ""
  else String backslash
         (String "x" (String (hex_digit (n / 16)) (String (hex_digit (n mod 16)) ""))).

Fixpoint has_char (c : ascii) (s : string) : bool :=
  match s with
  | String x r => Ascii.eqb x c || has_char c r
  | EmptyString => false
  end.

Fixpoint repr_chars (quote : ascii) (s : string) : string :=
  match s with
  | String c r => repr_char quote c ++ repr_chars quote r
  | EmptyString => EmptyString
  end.

Definition repr (s : string) : string :=
  let quote :=
    if has_char single_quote s && negb (has_char double_quote s)
    then double_quote else single_quote in
  String quote (repr_chars quote s ++ String quote "").

(** The message of the ValueError [int(s)] raises; of [repr(s)] it holds
    the first 200 characters. *)
Definition invalid_literal (s : string) : string :=
  "invalid literal for int() with base 10: " ++ substring 0 200 (repr s).

Definition int_error (s : string) : string :=
  match digits_counted s with
  | Some n =>
      if MAX_STR_DIGITS <? n
      then "Exceeds the limit (4300 digits) for integer string conversion: "
           ++ "value has " ++ decimal n
           ++ " digits; use sys.set_int_max_str_digits() to increase the limit"
      else invalid_literal s
  | None => invalid_literal s
  end.

(** Truth value of an optional text: [None] and the empty text are false. *)
Definition truthy (o : option string) : bool :=
  match o with
  | Some s => negb (s =? "")%string
  | None => false
  end.

(** [f(x) if x else 0] of a nullable number, for [f] one of [float] and
    [int]: NULL and zero both give 0. *)
Definition number_or_0 (o : option Z) : Z :=
  match o with
  | Some z => z
  | None => 0
  end.

End Py.

(* ================================================================== *)
(** * The store: tables of bar rows, and the rows the queries return   *)
(* ================================================================== *)

Module Store.

(** One row of a bar table.  Prices are integers (a count of ticks), which
    the queries compare, select and copy; the handlers pass them through
    AVG and [float()], which keep an integer of 53 bits as it is and round
    a greater one: the statements that give the value of a price are about
    prices of 53 bits ([Statements.exact_prices]).  Every column may hold
    NULL. *)
Record bar_row : Type := mk_bar
  { bar_end_datetime : Sql.text;
    open_price : option Z;
    high_price : option Z;
    low_price : option Z;
    close_price : option Z;
    volume : option Z }.

(** A table of the database file: its name in [sqlite_master], the column
    names of its schema, its rows in rowid order, and, when the table cannot
    be read (a writer holds it locked, a page is damaged), the message of
    the [sqlite3.Error] that every statement on the table raises.  The rows
    carry the bar columns; a further column of the schema holds NULL. *)
Record table : Type := mk_table
  { table_name : string;
    columns : list string;
    rows : list bar_row;
    fault : option string }.

(** Exceptions of the handlers. [OperationalError] is the [sqlite3.Error]
    of the model. *)
Inductive exn : Type :=
| OperationalError (msg : string)
| ConnectionError (msg : string)
| FileNotFoundError (msg : string)
| ValueError (msg : string)
| OverflowError (msg : string).

Definition str (e : exn) : string :=
  match e with
  | OperationalError m | ConnectionError m | FileNotFoundError m
  | ValueError m | OverflowError m => m
  end.

Definition is_sqlite_error (e : exn) : bool :=
  match e with OperationalError _ => true | _ => false end.

(** The database as a request sees it: whether
    [db_manager.get_connection()] yields a connection or raises, and the
    tables. *)
Record store : Type := mk_store
  { connect_error : option exn;
    tables : list table }.

(** Catalog entry built by [detect_trading_tables]. *)
Record descriptor : Type := mk_descriptor
  { d_table_name : string;
    d_instrument : string;
    d_record_count : Z;
    d_date_range : Sql.text * Sql.text;
    d_display_name : string }.

(** The statements sent to SQLite.  [MasterFind] binds the name as a
    parameter; an [OnTable] statement has the name spliced into its text
    between square brackets. *)
Inductive query_kind : Type :=
| TableInfo | CountSpan | RawBars | RawStar | Daily | Minutes (interval : Z).

Inductive statement : Type :=
| MasterList
| MasterFind (name : string)
| OnTable (kind : query_kind) (name : string).

End Store.

(* ================================================================== *)
(** * Computations: exceptions, the catalog cache, the statement log   *)
(* ================================================================== *)

Module Exec.
Import Store.

Inductive outcome (A : Type) : Type :=
| Ok (a : A)
| Raise (e : exn).
Arguments Ok {A} a.
Arguments Raise {A} e.

(** The memo of [lru_cache] on the argument-less [detect_trading_tables]:
    empty, or the tuple computed by the first call. *)
Definition cache : Type := option (list descriptor).

(** A computation runs from a cache state and gives its outcome, the cache
    it leaves, and the statements it executed, oldest first. *)
Definition exec (A : Type) : Type :=
  cache -> outcome A * cache * list statement.

Definition ret {A} (a : A) : exec A := fun c => (Ok a, c, []).

Definition raise {A} (e : exn) : exec A := fun c => (Raise e, c, []).

Definition bind {A B} (m : exec A) (f : A -> exec B) : exec B :=
  fun c =>
    match m c with
    | (Ok a, c1, l1) =>
        let '(o, c2, l2) := f a c1 in (o, c2, (l1 ++ l2)%list)
    | (Raise e, c1, l1) => (Raise e, c1, l1)
    end.

(** [try: m  except <handles> as e: h e] *)
Definition try_except {A} (m : exec A) (handles : exn -> bool)
    (h : exn -> exec A) : exec A :=
  fun c =>
    match m c with
    | (Ok a, c1, l1) => (Ok a, c1, l1)
    | (Raise e, c1, l1) =>
        if handles e then
          let '(o, c2, l2) := h e c1 in (o, c2, (l1 ++ l2)%list)
        else (Raise e, c1, l1)
    end.

Definition log (s : statement) : exec unit := fun c => (Ok tt, c, [s]).

Definition any_exception (e : exn) : bool := true.

End Exec.

Notation "x <~ e ;; k" := (Exec.bind e (fun x => k))
  (at level 61, e at next level, right associativity).
Notation "e ;;; k" := (Exec.bind e (fun _ => k))
  (at level 61, right associativity).

(* ================================================================== *)
(** * The meaning of the SQL clauses                                   *)
(* ================================================================== *)

Module Query.
Import Text Store Exec.

(** Order of TEXT values under ORDER BY, GROUP BY, MIN and MAX: NULL
    first, then the texts character by character. *)
Definition text_compare (a b : Sql.text) : comparison :=
  match a, b with
  | None, None => Eq
  | None, Some _ => Lt
  | Some _, None => Gt
  | Some x, Some y => String.compare x y
  end.

Definition text_leb (a b : Sql.text) : bool :=
  match text_compare a b with Gt => false | _ => true end.

Definition text_eqb (a b : Sql.text) : bool :=
  match text_compare a b with Eq => true | _ => false end.

(** Sorting: rows that compare equal keep the order they came in (SQL
    leaves their order open; the properties proved below do not depend on
    it). *)
Fixpoint insert_by {A} (leb : A -> A -> bool) (x : A) (l : list A) : list A :=
  match l with
  | [] => [x]
  | y :: r => if leb x y then x :: l else y :: insert_by leb x r
  end.

Definition sort_by {A} (leb : A -> A -> bool) (l : list A) : list A :=
  fold_right (insert_by leb) [] l.

(** Aggregates skip NULL, and are NULL over no value at all. *)
Fixpoint non_null {A} (l : list (option A)) : list A :=
  match l with
  | [] => []
  | Some a :: r => a :: non_null r
  | None :: r => non_null r
  end.

Definition sql_max (l : list (option Z)) : option Z :=
  match non_null l with
  | [] => None
  | x :: r => Some (fold_left Z.max r x)
  end.

Definition sql_min (l : list (option Z)) : option Z :=
  match non_null l with
  | [] => None
  | x :: r => Some (fold_left Z.min r x)
  end.

(** The sum is taken in the integers.  SQLite adds within the 64 bits of
    an INTEGER and raises [integer overflow] past them: the statements
    that say the aggregator returns are about rows whose volumes fit
    ([Statements.volumes_fit]). *)
Definition sql_sum (l : list (option Z)) : option Z :=
  match non_null l with
  | [] => None
  | x :: r => Some (fold_left Z.add r x)
  end.

(** AVG is the sum over the count.  Each AVG of the aggregation queries
    ranges over a CASE that is NULL except on the row numbered 1, so the
    count is 1 and the quotient is that row's value. *)
Definition sql_avg (l : list (option Z)) : option Z :=
  match non_null l with
  | [] => None
  | x :: r => Some (fold_left Z.add r x / Z.of_nat (List.length (x :: r)))
  end.

Definition text_min (a b : Sql.text) : Sql.text :=
  match a, b with
  | None, _ => b
  | _, None => a
  | Some x, Some y => if String.leb x y then a else b
  end.

Definition text_max (a b : Sql.text) : Sql.text :=
  match a, b with
  | None, _ => b
  | _, None => a
  | Some x, Some y => if String.leb x y then b else a
  end.

(** The date conditions on [bar_end_datetime], with their bound
    parameters.  A comparison with NULL is not true. *)
Inductive condition : Type :=
| AtLeast (param : string)     (* bar_end_datetime >= ? *)
| AtMost (param : string).     (* bar_end_datetime <= ? *)

Definition condition_holds (ts : Sql.text) (c : condition) : bool :=
  match ts, c with
  | Some t, AtLeast p => String.leb p t
  | Some t, AtMost p => String.leb t p
  | None, _ => false
  end.

(** [WHERE c1 AND c2], or [WHERE 1=1] when the list is empty. *)
Definition where_clause (conds : list condition) (r : bar_row) : bool :=
  forallb (condition_holds (bar_end_datetime r)) conds.

(** The row of a grouped SELECT. *)
Record agg_row : Type := mk_agg_row
  { period : Sql.text;
    r_open_price : option Z;
    r_high_price : option Z;
    r_low_price : option Z;
    r_close_price : option Z;
    r_volume : option Z;
    r_bar_count : Z }.

(** ROW_NUMBER() over a partition put in order: 1, 2, 3, ... *)
Definition number {A} (l : list A) : list (A * Z) :=
  combine l (map Z.of_nat (seq 1 (List.length l))).

(** [CASE WHEN rn = 1 THEN col END] *)
Definition case_rn1 (col : bar_row -> option Z) (p : bar_row * Z) : option Z :=
  if snd p =? 1 then col (fst p) else None.

Definition ts_asc (a b : bar_row) : bool :=
  text_leb (bar_end_datetime a) (bar_end_datetime b).

Definition ts_desc (a b : bar_row) : bool :=
  text_leb (bar_end_datetime b) (bar_end_datetime a).

(** The SELECT list over one group: [part] holds the rows of the
    partition. *)
Definition aggregate_group (k : Sql.text) (part : list bar_row) : agg_row :=
  let rn_first := number (sort_by ts_asc part) in
  let rn_last := number (sort_by ts_desc part) in
  {| period := k;
     r_open_price := sql_avg (map (case_rn1 open_price) rn_first);
     r_high_price := sql_max (map high_price part);
     r_low_price := sql_min (map low_price part);
     r_close_price := sql_avg (map (case_rn1 close_price) rn_last);
     r_volume := sql_sum (map volume part);
     r_bar_count := Z.of_nat (List.length part) |}.

(** The distinct keys in ascending order: GROUP BY period ORDER BY period. *)
Fixpoint insert_key (k : Sql.text) (l : list Sql.text) : list Sql.text :=
  match l with
  | [] => [k]
  | x :: r =>
      match text_compare k x with
      | Lt => k :: l
      | Eq => l
      | Gt => x :: insert_key k r
      end
  end.

Definition group_keys (l : list Sql.text) : list Sql.text :=
  fold_right insert_key [] l.

Definition partition_of (period_of : Sql.text -> Sql.text) (k : Sql.text)
    (cte : list bar_row) : list bar_row :=
  filter (fun r => text_eqb (period_of (bar_end_datetime r)) k) cte.

(** Both aggregation queries: the rows under the WHERE clause are keyed
    by [period_of bar_end_datetime], numbered within their partition,
    grouped, put in key order and cut by LIMIT. *)
Definition grouped_select (period_of : Sql.text -> Sql.text)
    (conds : list condition) (limit : Z) (rows : list bar_row)
    : list agg_row :=
  let cte := filter (where_clause conds) rows in
  let keys := group_keys (map (fun r => period_of (bar_end_datetime r)) cte) in
  Sql.limit limit (map (fun k => aggregate_group k (partition_of period_of k cte)) keys).

(** [DATE(bar_end_datetime)] *)
Definition period_daily (ts : Sql.text) : Sql.text := Sql.date ts.

(** [datetime(strftime('%Y-%m-%d %H:', ts) ||
              printf('%02d', (CAST(strftime('%M', ts) AS INTEGER) / m) * m) ||
              ':00')] *)
Definition period_minutes (m : Z) (ts : Sql.text) : Sql.text :=
  Sql.datetime
    (Sql.concat
       (Sql.concat (Sql.strftime_YmdH ts)
          (Sql.printf_02d
             (Sql.mul (Sql.div (Sql.cast_integer (Sql.strftime_M ts)) m) m)))
       (Some ":00")).

(** [SELECT ... ORDER BY bar_end_datetime ASC LIMIT ?] *)
Definition raw_select (conds : list condition) (limit : Z)
    (rows : list bar_row) : list bar_row :=
  Sql.limit limit (sort_by ts_asc (filter (where_clause conds) rows)).

End Query.

(* ================================================================== *)
(** * app.py                                                           *)
(* ================================================================== *)

(** The dictionaries of the [data] list: a raw bar has no [bar_count]. *)
Module Point.
Record t : Type := mk
  { datetime : Sql.text;
    open : Z;
    high : Z;
    low : Z;
    close : Z;
    volume : Z;
    bar_count : option Z }.
End Point.

Module App.
Import Text Store Exec Query.

Definition MAX_DATA_POINTS : Z := 50000.

(** ** Statements on the connection *)

(** The table of that name.  The handlers reach a table under the name as
    [sqlite_master] spells it. *)
Definition find_table (st : store) (name : string) : option table :=
  find (fun t => (table_name t =? name)%string) (tables st).

(** Column names are matched without regard to case. *)
Definition has_column (t : table) (c : string) : bool :=
  existsb (String.eqb c) (map Py.lower (columns t)).

Definition bar_columns : list string :=
  ["bar_end_datetime"; "open_price"; "high_price"; "low_price";
   "close_price"; "volume"].

(** The columns a statement names. *)
Definition columns_named (k : query_kind) : list string :=
  match k with
  | TableInfo => []
  | CountSpan | RawStar => ["bar_end_datetime"]
  | RawBars | Daily | Minutes _ => bar_columns
  end.

(** [conn.execute] of a statement with [name] spliced in as [[name]]: a
    name holding a closing bracket ends the quoting early and the text no
    longer parses; a missing table, an unreadable table and a missing
    column raise as well. *)
Definition execute (st : store) (k : query_kind) (name : string) : exec table :=
  log (OnTable k name) ;;;
  if Py.contains "]" name
  then raise (OperationalError "unrecognized token: ]")
  else
    match find_table st name with
    | None => raise (OperationalError ("no such table: " ++ name))
    | Some t =>
        match fault t with
        | Some m => raise (OperationalError m)
        | None =>
            match find (fun c => negb (has_column t c)) (columns_named k) with
            | Some c => raise (OperationalError ("no such column: " ++ c))
            | None => ret t
            end
        end
    end.

(** [with db_manager.get_connection() as conn: body] *)
Definition get_connection {A} (st : store) (body : exec A) : exec A :=
  match connect_error st with
  | Some e => raise e
  | None => body
  end.

(** Binding a Python int to a [?] of the statement. *)
Definition bind_integer (z : Z) : exec unit :=
  if Sql.int64 z then ret tt
  else raise (OverflowError "Python int too large to convert to SQLite INTEGER").

(** ** aggregate_timeframe_data *)

Definition intervals : list (string * Z) :=
  [("1min", 1); ("5min", 5); ("15min", 15); ("30min", 30);
   ("60min", 60); ("120min", 120); ("240min", 240); ("1day", 1440)].

Fixpoint dict_get {V} (k : string) (d : list (string * V)) : option V :=
  match d with
  | [] => None
  | (k', v) :: r => if (k' =? k)%string then Some v else dict_get k r
  end.

Definition date_conditions (start_date end_date : option string)
    : list condition :=
  ((if Py.truthy start_date
    then [AtLeast (match start_date with Some s => s | None => "" end
                   ++ " 00:00:00")]
    else []) ++
   (if Py.truthy end_date
    then [AtMost (match end_date with Some s => s | None => "" end
                  ++ " 23:59:59")]
    else []))%list.

Definition period_of (interval_minutes : Z) : Sql.text -> Sql.text :=
  if interval_minutes =? 1440 then period_daily
  else period_minutes interval_minutes.

Definition aggregated_point (row : agg_row) : Point.t :=
  {| Point.datetime := period row;
     Point.open := Py.number_or_0 (r_open_price row);
     Point.high := Py.number_or_0 (r_high_price row);
     Point.low := Py.number_or_0 (r_low_price row);
     Point.close := Py.number_or_0 (r_close_price row);
     Point.volume := Py.number_or_0 (r_volume row);
     Point.bar_count := Some (r_bar_count row) |}.

Definition aggregate_timeframe_data (st : store) (table_name timeframe : string)
    (start_date end_date : option string) (limit : Z) : exec (list Point.t) :=
  match dict_get timeframe intervals with
  | None => raise (ValueError ("Unsupported timeframe: " ++ timeframe))
  | Some interval_minutes =>
      let conds := date_conditions start_date end_date in
      let kind := if interval_minutes =? 1440 then Daily
                  else Minutes interval_minutes in
      rows <~ get_connection st
                (t <~ execute st kind table_name ;;
                 bind_integer limit ;;;
                 ret (grouped_select (period_of interval_minutes) conds limit
                        (Store.rows t))) ;;
      ret (map aggregated_point rows)
  end.

(** ** detect_trading_tables *)

Definition required_columns : list string :=
  ["bar_end_datetime"; "open_price"; "high_price"; "low_price"; "close_price"].

(** [PRAGMA table_info([name])]: the column names; a table SQLite does not
    know has none. *)
Definition pragma_table_info (st : store) (name : string) : exec (list string) :=
  log (OnTable TableInfo name) ;;;
  if Py.contains "]" name
  then raise (OperationalError "unrecognized token: ]")
  else
    match find_table st name with
    | None => ret []
    | Some t =>
        match fault t with
        | Some m => raise (OperationalError m)
        | None => ret (columns t)
        end
    end.

(** Digits in groups of three: the [:,] format of a count. *)
Fixpoint commas (s : string) : string :=
  match s with
  | EmptyString => EmptyString
  | String c r =>
      let k := String.length r in
      if (negb (k =? 0) && (k mod 3 =? 0))%nat
      then String c (String "," (commas r))
      else String c (commas r)
  end.

Definition instrument_sorted (a b : descriptor) : bool :=
  String.leb (d_instrument a) (d_instrument b).

Section Catalog.

(** [str.upper()], and [datetime.fromisoformat(s).strftime('%Y-%m-%d')]
    with [None] where it raises: both are the Python library's, and the
    catalog is the same function of them whatever they answer. *)
Variable upper : string -> string.
Variable isoformat_date : string -> option string.

Definition date_display (min_date max_date : Sql.text) : string :=
  if Py.truthy min_date && Py.truthy max_date then
    match min_date, max_date with
    | Some lo, Some hi =>
        match isoformat_date (Py.replace "Z" "+00:00" lo),
              isoformat_date (Py.replace "Z" "+00:00" hi) with
        | Some d1, Some d2 => "(" ++ d1 ++ " to " ++ d2 ++ ")"
        | _, _ => "(" ++ lo ++ " to " ++ hi ++ ")"
        end
    | _, _ => ""
    end
  else "".

(** The body of the loop for one table: [None] stands for [continue]. *)
Definition inspect_table (st : store) (table_name : string)
    : exec (option descriptor) :=
  cols <~ pragma_table_info st table_name ;;
  let columns := map Py.lower cols in
  if negb (forallb (fun col => existsb (String.eqb col) columns)
             required_columns)
  then ret None
  else
    t <~ execute st CountSpan table_name ;;
    let count := Z.of_nat (List.length (rows t)) in
    let min_date := fold_right text_min None (map bar_end_datetime (rows t)) in
    let max_date := fold_right text_max None (map bar_end_datetime (rows t)) in
    if count =? 0 then ret None
    else
      let instrument :=
        upper (Py.replace "bars_" ""
                 (Py.replace "_data" "" (Py.replace "_bars" "" table_name))) in
      let display := date_display min_date max_date in
      ret (Some
             {| d_table_name := table_name;
                d_instrument := instrument;
                d_record_count := count;
                d_date_range := (min_date, max_date);
                d_display_name :=
                  if negb (display =? "")%string
                  then instrument ++ " " ++ display
                  else instrument ++ " (" ++ commas (decimal count) ++ " bars)" |}).

(** [for table_name in all_tables: try: ... except sqlite3.Error: continue] *)
Fixpoint scan_tables (st : store) (all_tables : list string)
    (trading_tables : list descriptor) : exec (list descriptor) :=
  match all_tables with
  | [] => ret trading_tables
  | table_name :: rest =>
      r <~ try_except (inspect_table st table_name) is_sqlite_error
             (fun _ => ret None) ;;
      scan_tables st rest
        (match r with
         | Some d => (trading_tables ++ [d])%list
         | None => trading_tables
         end)
  end.

(** The function under the decorator. *)
Definition scan_catalog (st : store) : exec (list descriptor) :=
  try_except
    (get_connection st
       (log MasterList ;;;
        let all_tables := sort_by String.leb (map table_name (tables st)) in
        trading_tables <~ scan_tables st all_tables [] ;;
        ret (sort_by instrument_sorted trading_tables)))
    any_exception
    (fun _ => ret []).

(** [@lru_cache]: a value once returned is returned again without a call. *)
Definition detect_trading_tables (st : store) : exec (list descriptor) :=
  fun c =>
    match c with
    | Some v => (Ok v, c, [])
    | None =>
        match scan_catalog st c with
        | (Ok v, _, l) => (Ok v, Some v, l)
        | (Raise e, c1, l) => (Raise e, c1, l)
        end
    end.

End Catalog.

(** ** Responses *)

(** A cell of a downloaded row. *)
Inductive cell : Type :=
| CNull
| CNum (z : Z)
| CText (s : string).

Inductive body : Type :=
| JsonError (message : string)
| JsonInstruments (instruments : list descriptor)
| JsonData (data : list Point.t)
| Attachment (format : string) (data : list (list (string * cell))).

Record response : Type := mk_response
  { status : Z;
    content : body;
    cache_control : option string }.

Definition error_response (message : string) (code : Z) : response :=
  mk_response code (JsonError message) None.

(** ** handle_db_errors *)

Definition max_retries : Z := 3.

(** The [for attempt in range(max_retries)] loop, [left] attempts to go. *)
Fixpoint retry_loop (f : exec response) (attempt : Z) (left : nat)
    : exec response :=
  match left with
  | O => ret (error_response "Maximum retries exceeded" 500)
  | S left' =>
      try_except f any_exception
        (fun e =>
           match e with
           | OperationalError m =>
               if Py.contains "database is locked" (Py.lower m)
                  && (attempt <? max_retries - 1)
               then retry_loop f (attempt + 1) left'
               else ret (error_response ("Database error: " ++ m) 500)
           | FileNotFoundError m =>
               ret (error_response ("Database file not found: " ++ m) 500)
           | _ =>
               if attempt <? max_retries - 1
               then retry_loop f (attempt + 1) left'
               else ret (error_response ("Server error: " ++ str e) 500)
           end)
  end.

Definition handle_db_errors (f : exec response) : exec response :=
  retry_loop f 0 (Z.to_nat max_retries).

(** ** The routes *)

(** The query string of a request. *)
Record request_args : Type := mk_args
  { arg_timeframe : option string;
    arg_start_date : option string;
    arg_end_date : option string;
    arg_limit : option string;
    arg_format : option string }.

Definition args_get (a : option string) (default : string) : string :=
  match a with Some s => s | None => default end.

(** [table_name.replace('_', '').replace('-', '').isalnum()] *)
Definition valid_table_name (table_name : string) : bool :=
  Py.isalnum (Py.replace "-" "" (Py.replace "_" "" table_name)).

(** [min(int(request.args.get('limit', MAX_DATA_POINTS)), MAX_DATA_POINTS)] *)
Definition clamp_limit (args : request_args) : exec Z :=
  match arg_limit args with
  | None => ret (Z.min MAX_DATA_POINTS MAX_DATA_POINTS)
  | Some s =>
      match Py.int s with
      | Some n => ret (Z.min n MAX_DATA_POINTS)
      | None => raise (ValueError (Py.int_error s))
      end
  end.

(** [SELECT name FROM sqlite_master WHERE type='table' AND name=? LIMIT 1] *)
Definition table_exists (st : store) (table_name : string) : exec bool :=
  get_connection st
    (log (MasterFind table_name) ;;;
     ret (match find_table st table_name with Some _ => true | None => false end)).

Definition raw_point (row : bar_row) : Point.t :=
  {| Point.datetime := bar_end_datetime row;
     Point.open := Py.number_or_0 (open_price row);
     Point.high := Py.number_or_0 (high_price row);
     Point.low := Py.number_or_0 (low_price row);
     Point.close := Py.number_or_0 (close_price row);
     Point.volume := Py.number_or_0 (volume row);
     Point.bar_count := None |}.

Section Routes.
Variable upper : string -> string.
Variable isoformat_date : string -> option string.

Definition get_instruments_view (st : store) : exec response :=
  instruments <~ detect_trading_tables upper isoformat_date st ;;
  ret (mk_response 200 (JsonInstruments instruments) None).

Definition get_instruments (st : store) : exec response :=
  handle_db_errors (get_instruments_view st).

End Routes.

Definition get_data_view (st : store) (table_name : string)
    (args : request_args) : exec response :=
  if negb (valid_table_name table_name)
  then ret (error_response "Invalid table name format" 400)
  else
    found <~ table_exists st table_name ;;
    if negb found
    then ret (error_response ("Table " ++ table_name ++ " not found") 404)
    else
      let timeframe := args_get (arg_timeframe args) "1min" in
      let start_date := arg_start_date args in
      let end_date := arg_end_date args in
      limit <~ clamp_limit args ;;
      try_except
        (data <~ (if (timeframe =? "raw")%string
                  then
                    let conds := date_conditions start_date end_date in
                    rows <~ get_connection st
                              (t <~ execute st RawBars table_name ;;
                               bind_integer limit ;;;
                               ret (raw_select conds limit (Store.rows t))) ;;
                    ret (map raw_point rows)
                  else
                    aggregate_timeframe_data st table_name timeframe
                      start_date end_date limit) ;;
         ret (mk_response 200 (JsonData data) (Some "public, max-age=300")))
        any_exception
        (fun e => ret (error_response (str e) 500)).

Definition get_data (st : store) (table_name : string) (args : request_args)
    : exec response :=
  handle_db_errors (get_data_view st table_name args).

Definition text_cell (x : Sql.text) : cell :=
  match x with Some s => CText s | None => CNull end.

Definition num_cell (x : option Z) : cell :=
  match x with Some z => CNum z | None => CNull end.

(** The value a row holds under a column of the schema; the rows of the
    model carry the bar columns, any further column is NULL. *)
Definition cell_of (row : bar_row) (column : string) : cell :=
  let c := Py.lower column in
  if (c =? "bar_end_datetime")%string then text_cell (bar_end_datetime row)
  else if (c =? "open_price")%string then num_cell (open_price row)
  else if (c =? "high_price")%string then num_cell (high_price row)
  else if (c =? "low_price")%string then num_cell (low_price row)
  else if (c =? "close_price")%string then num_cell (close_price row)
  else if (c =? "volume")%string then num_cell (volume row)
  else CNull.

(** [dict(row)] of a [SELECT *] row. *)
Definition star_dict (t : table) (row : bar_row) : list (string * cell) :=
  map (fun c => (c, cell_of row c)) (columns t).

Definition download_dict (timeframe : string) (p : Point.t)
    : list (string * cell) :=
  [("bar_end_datetime", text_cell (Point.datetime p));
   ("open_price", CNum (Point.open p));
   ("high_price", CNum (Point.high p));
   ("low_price", CNum (Point.low p));
   ("close_price", CNum (Point.close p));
   ("volume", CNum (Point.volume p));
   ("timeframe", CText timeframe);
   ("bar_count", CNum (match Point.bar_count p with Some n => n | None => 1 end))].

(** The CSV or JSON text and the file name are a rendering of [data] and
    of the clock; the response keeps [data] itself. *)
Definition download_data_view (st : store) (table_name : string)
    (args : request_args) : exec response :=
  if negb (valid_table_name table_name)
  then ret (error_response "Invalid table name format" 400)
  else
    let format_type := Py.lower (args_get (arg_format args) "csv") in
    if negb ((format_type =? "csv")%string || (format_type =? "json")%string)
    then ret (error_response "Unsupported format. Use csv or json" 400)
    else
      let timeframe := args_get (arg_timeframe args) "1min" in
      let start_date := arg_start_date args in
      let end_date := arg_end_date args in
      limit <~ clamp_limit args ;;
      found <~ table_exists st table_name ;;
      if negb found
      then ret (error_response ("Table " ++ table_name ++ " not found") 404)
      else
        try_except
          (data <~ (if (timeframe =? "raw")%string
                    then
                      let conds := date_conditions start_date end_date in
                      get_connection st
                        (t <~ execute st RawStar table_name ;;
                         bind_integer limit ;;;
                         ret (map (star_dict t)
                                (raw_select conds limit (Store.rows t))))
                    else
                      aggregated_data <~ aggregate_timeframe_data st table_name
                                           timeframe start_date end_date limit ;;
                      ret (map (download_dict timeframe) aggregated_data)) ;;
           ret (mk_response 200 (Attachment format_type data) None))
          any_exception
          (fun e => ret (error_response (str e) 500)).

Definition download_data (st : store) (table_name : string)
    (args : request_args) : exec response :=
  handle_db_errors (download_data_view st table_name args).

End App.

(* ================================================================== *)
(** * The vocabulary of the statements                                 *)
(* ================================================================== *)

Module Statements.
Import Text Store Exec Query App.

(** [T] truncated to the hour plus [floor(minute(T) / m) * m] minutes. *)
Definition bucket_start (m : Z) (t : time_value) : time_value :=
  mk_time_value (year t) (month t) (day t) (hour t) (minute t / m * m) 0.

Definition midnight (t : time_value) : time_value :=
  mk_time_value (year t) (month t) (day t) 0 0 0.

(** Earlier or later, field by field. *)
Definition then_compare (c : comparison) (rest : comparison) : comparison :=
  match c with Eq => rest | _ => c end.

Definition chrono_compare (a b : time_value) : comparison :=
  then_compare (year a ?= year b)
    (then_compare (month a ?= month b)
       (then_compare (day a ?= day b)
          (then_compare (hour a ?= hour b)
             (then_compare (minute a ?= minute b) (second a ?= second b))))).

Definition text_lt (a b : Sql.text) : Prop := text_compare a b = Lt.

(** The store answers the aggregation queries on [name] from table [t]. *)
Definition serves (st : store) (name : string) (t : table) : Prop :=
  connect_error st = None /\ Py.contains "]" name = false /\
  find_table st name = Some t /\ fault t = None /\
  forallb (has_column t) bar_columns = true.

Definition aggregation_kind (m : Z) : query_kind :=
  if m =? 1440 then Daily else Minutes m.

(** The bars the WHERE clause lets through. *)
Definition bars_in_range (start_date end_date : option string) (t : table)
    : list bar_row :=
  filter (where_clause (date_conditions start_date end_date)) (rows t).

(** ** Timestamps as they are written *)

Definition fmt_hm (t : time_value) : string :=
  printf_0d 2 (hour t) ++ ":" ++ printf_0d 2 (minute t).

Definition fmt_hms (t : time_value) : string :=
  fmt_hm t ++ ":" ++ printf_0d 2 (second t).

Definition separator (c : ascii) : Prop := c = " "%char \/ c = "T"%char.

Definition zone_suffix (z : string) : Prop := z = "" \/ z = "Z" \/ z = "z".

Definition is_digit (c : ascii) : bool :=
  match digit_val c with Some _ => true | None => false end.

(** Nothing, or a point and digits, one at least and 300 at most. *)
Definition fraction (f : string) : Prop :=
  f = "" \/
  exists d, d <> "" /\ (String.length d <= 300)%nat /\
            Py.all_chars is_digit d = true /\ f = String "." d.

(** [T] is a text of the time value [tv], a date and a time of the
    calendar: the date alone for a midnight; the date, a blank or a [T],
    and the time to the minute, for a time of 0 seconds, or to the second,
    with or without a fraction of the second; after a time, [Z] or
    nothing.  A fraction is for the years before 9999: SQLite holds no
    time past the end of that year, where a fraction can round to. *)
Definition written (T : string) (tv : time_value) : Prop :=
  valid_time_value tv = true /\
  ((T = fmt_date tv /\ hour tv = 0 /\ minute tv = 0 /\ second tv = 0) \/
   (exists sep zone,
      separator sep /\ zone_suffix zone /\ second tv = 0 /\
      T = fmt_date tv ++ String sep (fmt_hm tv ++ zone)) \/
   (exists sep frac zone,
      separator sep /\ fraction frac /\ (frac = "" \/ year tv < 9999) /\
      zone_suffix zone /\
      T = fmt_date tv ++ String sep (fmt_hms tv ++ frac ++ zone))).

(** [time] gives every bar of [bars] the time value its timestamp is a
    text of, and none to a bar whose timestamp is NULL. *)
Definition timed (time : bar_row -> option time_value) (bars : list bar_row)
    : Prop :=
  forall r, In r bars ->
    match bar_end_datetime r with
    | Some T => exists tv, time r = Some tv /\ written T tv
    | None => time r = None
    end.


(** The start of the bucket of a time, as the output writes it: the
    calendar date for the daily interval, the time cut to the hour plus
    [floor(minute / m) * m] minutes otherwise. *)
Definition bucket_key (m : Z) (tv : option time_value) : Sql.text :=
  option_map (fun t => if m =? 1440 then fmt_date t
                       else fmt_datetime (bucket_start m t)) tv.

(** The time a bucket starts at. *)
Definition bucket_time (m : Z) (t : time_value) : time_value :=
  if m =? 1440 then midnight t else bucket_start m t.

(** The bars folded into the output bar with bucket start [key]: those
    whose time falls into that bucket. *)
Definition bucket (m : Z) (time : bar_row -> option time_value)
    (key : Sql.text) (bars : list bar_row) : list bar_row :=
  filter (fun r => text_eqb (bucket_key m (time r)) key) bars.


(** SUM adds within the 64 bits of an INTEGER and raises past them.  Rows
    whose volumes add up in magnitude to no more than the greatest INTEGER
    never get there, in whatever order and groups they are added. *)
Definition volumes_fit (bars : list bar_row) : Prop :=
  fold_right Z.add 0 (map (fun r => Z.abs (Py.number_or_0 (volume r))) bars)
  <= 9223372036854775807.

(** A price [float()] and AVG leave as it is: an integer of 53 bits. *)
Definition exact (price : option Z) : Prop :=
  match price with
  | Some z => Z.abs z <= 9007199254740992
  | None => True
  end.




Definition volume_total (bars : list bar_row) : Z :=
  fold_right Z.add 0 (map (fun r => Py.number_or_0 (volume r)) bars).

(** An output bar put back as a bar row: [period_start] as the timestamp,
    with the aggregated values. *)
Definition reconstruct (p : Point.t) : bar_row :=
  mk_bar (Point.datetime p) (Some (Point.open p)) (Some (Point.high p))
    (Some (Point.low p)) (Some (Point.close p)) (Some (Point.volume p)).

(** An output bar without its [bar_count]. *)
Definition ohlcv (p : Point.t) : Sql.text * Z * Z * Z * Z * Z :=
  (Point.datetime p, Point.open p, Point.high p, Point.low p, Point.close p,
   Point.volume p).

(** The responses to successive [GET /api/instruments] requests, each
    against the store as it is at that moment, the cache carried along. *)
Fixpoint instruments_responses (upper : string -> string)
    (isoformat_date : string -> option string) (sts : list store) (c : cache)
    : list (outcome response) :=
  match sts with
  | [] => []
  | st :: later =>
      let '(o, c', _) := get_instruments upper isoformat_date st c in
      o :: instruments_responses upper isoformat_date later c'
  end.

Definition empty_listing : response := mk_response 200 (JsonInstruments []) None.

Definition has_required (t : table) : bool :=
  forallb (fun col => existsb (String.eqb col) (map Py.lower (columns t)))
    required_columns.

(** The column set holds the required bar columns, and there are rows. *)
Definition qualifies (t : table) : Prop :=
  (forall col, In col required_columns -> In col (map Py.lower (columns t)))
  /\ rows t <> [].

(** The statements of the scan on the table raise no [sqlite3.Error]. *)
Definition inspectable (t : table) : Prop :=
  Py.contains "]" (table_name t) = false /\ fault t = None.

(** The [limit] argument is absent or a text [int] reads. *)
Definition limit_parses (args : request_args) : Prop :=
  match arg_limit args with
  | Some s => Py.int s <> None
  | None => True
  end.

(** The limit the handlers pass to the query. *)
Definition effective_limit (args : request_args) : Z :=
  match arg_limit args with
  | Some s => Z.min (Py.number_or_0 (Py.int s)) MAX_DATA_POINTS
  | None => MAX_DATA_POINTS
  end.

Definition format_ok (args : request_args) : bool :=
  let f := Py.lower (args_get (arg_format args) "csv") in
  ((f =? "csv") || (f =? "json"))%string.

Definition supported_timeframes : list string :=
  ["raw"; "1min"; "5min"; "15min"; "30min"; "60min"; "120min"; "240min"; "1day"].

(** A letter or digit, an underscore or a hyphen. *)
Definition allowed_char (c : ascii) : bool :=
  Py.char_isalnum c || Ascii.eqb c "_" || Ascii.eqb c "-".

(** What a statement of the log owes to the gate: it is the lookup of the
    name in [sqlite_master], with the name bound as a parameter; or it has
    the name spliced in, and then the name is made of allowed characters,
    keeps the quoting intact, and names a table of the store. *)
Definition checked (st : store) (name : string) (s : statement) : Prop :=
  s = MasterFind name \/
  exists k, s = OnTable k name /\ Py.all_chars allowed_char name = true /\
            Py.contains "]" name = false /\ find_table st name <> None.

(** Every statement is checked, and the first one is the lookup. *)
Definition gated (st : store) (name : string) (lg : list statement) : Prop :=
  Forall (checked st name) lg /\
  match lg with [] => True | s :: _ => s = MasterFind name end.

End Statements.

(* ================================================================== *)
(** * Definitions that serve the proofs                                *)
(* ================================================================== *)

Module ProofTools.
Import Text Store Exec Query App Statements.

Definition digit_roundtrip (d : Z) : bool :=
  match digit_val (digit_char d) with
  | Some v => v =? d
  | None => false
  end.

Definition two_digits (n : Z) : string :=
  String (digit_char (n / 10)) (String (digit_char (n mod 10)) "").

Definition four_digits (n : Z) : string :=
  String (digit_char (n / 1000))
    (String (digit_char (n / 100 mod 10)) (two_digits (n mod 100))).

Definition comparison_eqb (a b : comparison) : bool :=
  match a, b with
  | Eq, Eq | Lt, Lt | Gt, Gt => true
  | _, _ => false
  end.

Definition digit_order (z : Z) : bool :=
  comparison_eqb (Ascii.compare (digit_char (z / 10)) (digit_char (z mod 10)))
    (z / 10 ?= z mod 10).

(** The keys of the grouped SELECT before LIMIT. *)
Definition keys_of (period_of : Sql.text -> Sql.text) (cte : list bar_row)
    : list Sql.text :=
  group_keys (map (fun r => period_of (bar_end_datetime r)) cte).

(** The scan lists [n]: it names a table the statements can read, which
    has the required columns and at least one row. *)
Definition listed (st : store) (n : string) : Prop :=
  exists t, find_table st n = Some t /\ Py.contains "]" n = false /\
            fault t = None /\ has_required t = true /\ rows t <> [].

Fixpoint drop_char (ch : ascii) (s : string) : string :=
  match s with
  | EmptyString => EmptyString
  | String x r =>
      if Ascii.eqb x ch then drop_char ch r else String x (drop_char ch r)
  end.

(** A computation that leaves the cache alone and whose log satisfies [Q]. *)
Definition logs {A} (Q : list statement -> Prop) (m : exec A) : Prop :=
  forall c, exists o lg, m c = (o, c, lg) /\ Q lg.

Definition silent (lg : list statement) : Prop := lg = [].

Definition at_most_one (name : string) (lg : list statement) : Prop :=
  lg = [] \/ exists k, lg = [OnTable k name].

End ProofTools.

(* ================================================================== *)
(** * Sample stores and requests                                       *)
(* ================================================================== *)

Module Samples.
Import Text Store Exec Query App Statements.

Definition bar (ts : string) (o h l c v : Z) : bar_row :=
  mk_bar (Some ts) (Some o) (Some h) (Some l) (Some c) (Some v).

(** [str.upper()] on ASCII text, and the date of an ISO text among the
    time values of the model. *)
Definition ascii_upper (s : string) : string :=
  Py.map_chars
    (fun ch => if in_range 97 (Py.code ch) 122
               then ascii_of_N (Z.to_N (Py.code ch - 32)) else ch) s.

Definition iso_date (s : string) : option string :=
  option_map fmt_date (parse_time_value s).

(** Two bars either side of a quarter-hour boundary. *)
Definition bar_1014 : bar_row := bar "2024-01-01 10:14:59" 10 12 9 11 5.
Definition bar_1015 : bar_row := bar "2024-01-01 10:15:00" 11 13 10 12 7.

Definition quarter_table : table :=
  mk_table "es_bars" bar_columns [bar_1014; bar_1015] None.

Definition quarter_store : store := mk_store None [quarter_table].

(** Three one-minute bars of one quarter hour, the second without a
    volume, and one bar of the next quarter hour. *)
Definition busy_table : table :=
  mk_table "nq_bars" bar_columns
    [bar "2024-03-04 09:31:00" 100 104 99 103 10;
     mk_bar (Some "2024-03-04 09:32:00") (Some 103) (Some 108) (Some 101)
       (Some 102) None;
     bar "2024-03-04 09:44:00" 102 103 95 96 30;
     bar "2024-03-04 09:45:00" 96 97 90 91 40] None.

Definition busy_store : store := mk_store None [busy_table].

(** The two bars either side of midnight. *)
Definition bar_2358 : bar_row := bar "2024-01-01 23:58:00" 10 12 9 11 5.
Definition bar_0002 : bar_row := bar "2024-01-02 00:02:00" 11 13 10 12 7.

Definition midnight_table : table :=
  mk_table "es_bars" bar_columns [bar_2358; bar_0002] None.

Definition midnight_store : store := mk_store None [midnight_table].

(** Ten bars in ten different hours. *)
Definition ten_table : table :=
  mk_table "cl_bars" bar_columns
    [bar "2024-05-06 08:30:00" 1 2 1 2 1; bar "2024-05-06 09:30:00" 2 3 2 3 1;
     bar "2024-05-06 10:30:00" 3 4 3 4 1; bar "2024-05-06 11:30:00" 4 5 4 5 1;
     bar "2024-05-06 12:30:00" 5 6 5 6 1; bar "2024-05-06 13:30:00" 6 7 6 7 1;
     bar "2024-05-06 14:30:00" 7 8 7 8 1; bar "2024-05-06 15:30:00" 8 9 8 9 1;
     bar "2024-05-06 16:30:00" 9 10 9 10 1; bar "2024-05-06 17:30:00" 10 11 10 11 1]
    None.

Definition ten_store : store := mk_store None [ten_table].

(** The 15-minute output of [busy_table], put back as a table. *)
Definition busy_data : list Point.t :=
  [Point.mk (Some "2024-03-04 09:30:00") 100 108 95 96 40 (Some 3);
   Point.mk (Some "2024-03-04 09:45:00") 96 97 90 91 40 (Some 1)].

Definition rebuilt_table : table :=
  mk_table "nq_15min" bar_columns (map reconstruct busy_data) None.

Definition rebuilt_store : store := mk_store None [rebuilt_table].

(** A store whose connection limit is reached, and the same tables once
    connections are to be had again. *)
Definition exhausted_store : store :=
  mk_store (Some (ConnectionError "Maximum database connections reached"))
    [busy_table].

(** A store with a bar table, a table without [close_price], and a bar
    table without rows. *)
Definition no_close_table : table :=
  mk_table "fx_bars"
    ["bar_end_datetime"; "open_price"; "high_price"; "low_price"; "volume"]
    [mk_bar (Some "2024-03-04 09:31:00") (Some 1) (Some 2) (Some 1) None (Some 3)]
    None.

Definition empty_table : table := mk_table "zn_bars" bar_columns [] None.

Definition mixed_store : store :=
  mk_store None [busy_table; no_close_table; empty_table].

(** A bar table that a writer holds locked while the catalog is scanned. *)
Definition locked_table : table :=
  mk_table "es_bars" bar_columns [bar_1014; bar_1015]
    (Some "database is locked").

Definition locked_store : store := mk_store None [locked_table].

(** A request with a timeframe outside the supported set. *)
Definition seven_minutes : request_args :=
  mk_args (Some "7min") None None None None.

(** A table of 50001 bars, and a request for raw bars with limit -1. *)
Definition crowded_table : table :=
  mk_table "es_bars" bar_columns (repeat bar_1014 (Z.to_nat 50001)) None.

Definition crowded_store : store := mk_store None [crowded_table].

Definition minus_one : request_args :=
  mk_args (Some "raw") None None (Some "-1") None.

(** A request for raw bars of a table of the store. *)
Definition raw_bars : request_args := mk_args (Some "raw") None None None None.

Definition quarter_response : response :=
  mk_response 200
    (JsonData [Point.mk (Some "2024-01-01 10:14:59") 10 12 9 11 5 None;
               Point.mk (Some "2024-01-01 10:15:00") 11 13 10 12 7 None])
    (Some "public, max-age=300").

(** A table that keeps a volume per timestamp and no prices: it is not a
    bar table, the catalog does not list it, and the download route
    returns its rows. *)
Definition volume_log : table :=
  mk_table "volume_log" ["bar_end_datetime"; "volume"]
    [mk_bar (Some "2024-01-01 23:58:00") None None None None (Some 5)] None.

Definition side_store : store := mk_store None [quarter_table; volume_log].

(** The time a sample bar was taken at, looked up by its timestamp. *)
Definition clock (times : list (string * time_value)) (r : bar_row)
    : option time_value :=
  match bar_end_datetime r with
  | Some T => dict_get T times
  | None => None
  end.

Definition quarter_times : list (string * time_value) :=
  [("2024-01-01 10:14:59", mk_time_value 2024 1 1 10 14 59);
   ("2024-01-01 10:15:00", mk_time_value 2024 1 1 10 15 0)].


Definition midnight_times : list (string * time_value) :=
  [("2024-01-01 23:58:00", mk_time_value 2024 1 1 23 58 0);
   ("2024-01-02 00:02:00", mk_time_value 2024 1 2 0 2 0)].

Definition ten_times : list (string * time_value) :=
  map (fun h => (fmt_datetime (mk_time_value 2024 5 6 h 30 0),
                 mk_time_value 2024 5 6 h 30 0))
    [8; 9; 10; 11; 12; 13; 14; 15; 16; 17].

Definition ten_keys : list Sql.text :=
  [Some "2024-05-06 08:00:00"; Some "2024-05-06 09:00:00";
   Some "2024-05-06 10:00:00"; Some "2024-05-06 11:00:00";
   Some "2024-05-06 12:00:00"; Some "2024-05-06 13:00:00";
   Some "2024-05-06 14:00:00"; Some "2024-05-06 15:00:00";
   Some "2024-05-06 16:00:00"; Some "2024-05-06 17:00:00"].




End Samples.

(* ================================================================== *)
(** * The vocabulary of the properties of the decorator and the routes *)
(* ================================================================== *)

Module Properties.
Import Text Store Exec Query App Statements.

(** The answer of the decorator to an exception it retries no more. *)
Definition failure_response (e : exn) : response :=
  match e with
  | OperationalError m => error_response ("Database error: " ++ m) 500
  | FileNotFoundError m => error_response ("Database file not found: " ++ m) 500
  | _ => error_response ("Server error: " ++ str e) 500
  end.

(** Whether the decorator runs the handler again after [e], while attempts
    are left. *)
Definition retried (e : exn) : bool :=
  match e with
  | OperationalError m => Py.contains "database is locked" (Py.lower m)
  | FileNotFoundError _ => false
  | _ => true
  end.

(** The runs of a handler that raises [e] each time. *)
Definition attempts (e : exn) : nat := if retried e then 3 else 1.

(** [x] is the least text present in [l], NULL when none is. *)
Definition earliest (l : list Sql.text) (x : Sql.text) : Prop :=
  match x with
  | Some s => In (Some s) l /\
              forall s', In (Some s') l -> String.leb s s' = true
  | None => forall s', ~ In (Some s') l
  end.

Definition latest (l : list Sql.text) (x : Sql.text) : Prop :=
  match x with
  | Some s => In (Some s) l /\
              forall s', In (Some s') l -> String.leb s' s = true
  | None => forall s', ~ In (Some s') l
  end.

Definition by_instrument (a b : descriptor) : Prop :=
  String.leb (d_instrument a) (d_instrument b) = true.

(** A catalog entry describes a table of the store: its name, the number
    of its rows, which is positive, and its least and greatest timestamp. *)
Definition describes (st : store) (d : descriptor) : Prop :=
  exists t,
    find_table st (d_table_name d) = Some t /\
    d_record_count d = Z.of_nat (List.length (rows t)) /\
    0 < d_record_count d /\
    earliest (map bar_end_datetime (rows t)) (fst (d_date_range d)) /\
    latest (map bar_end_datetime (rows t)) (snd (d_date_range d)).

(** The bars and the volume an output accounts for. *)
Definition bars_counted (data : list Point.t) : Z :=
  fold_right Z.add 0
    (map (fun p => match Point.bar_count p with Some n => n | None => 0 end)
       data).

Definition volume_counted (data : list Point.t) : Z :=
  fold_right Z.add 0 (map Point.volume data).

(** A bar with all four prices, the open and the close between the low and
    the high. *)
Definition coherent_bar (r : bar_row) : Prop :=
  exists o h l c,
    open_price r = Some o /\ high_price r = Some h /\
    low_price r = Some l /\ close_price r = Some c /\
    l <= o <= h /\ l <= c <= h.

Definition coherent_point (p : Point.t) : Prop :=
  Point.low p <= Point.open p <= Point.high p /\
  Point.low p <= Point.close p <= Point.high p.

(** Calendar days: [a] is the day of [t] or an earlier one. *)
Definition day_leq (a t : time_value) : Prop :=
  chrono_compare (midnight a) (midnight t) <> Gt.

Definition end_of_day (t : time_value) : time_value :=
  mk_time_value (year t) (month t) (day t) 23 59 59.

(** The time value written with a [T] between date and time. *)
Definition fmt_iso (t : time_value) : string :=
  fmt_date t ++ "T" ++ printf_0d 2 (hour t) ++ ":" ++
  printf_0d 2 (minute t) ++ ":" ++ printf_0d 2 (second t).

(** The day of [t] is within the bounds that are given. *)
Definition within_days (lo hi : option time_value) (t : time_value) : Prop :=
  match lo with Some a => day_leq a t | None => True end /\
  match hi with Some b => day_leq t b | None => True end.

Definition given_days_valid (lo hi : option time_value) : Prop :=
  match lo with Some a => valid_time_value a = true | None => True end /\
  match hi with Some b => valid_time_value b = true | None => True end.

(** The rows a response carries. *)
Definition response_rows (r : response) : Z :=
  match content r with
  | JsonData data => Z.of_nat (List.length data)
  | Attachment _ data => Z.of_nat (List.length data)
  | _ => 0
  end.

(** Whatever [m] returns satisfies [P]. *)
Definition yields {A} (P : A -> Prop) (m : exec A) : Prop :=
  forall c a c' l, m c = (Ok a, c', l) -> P a.

(** The status a route gives to a table name. *)
Definition name_status (st : store) (name : string) (r : response) : Prop :=
  (status r = 400 <-> valid_table_name name = false) /\
  (status r = 404 <-> valid_table_name name = true /\ find_table st name = None) /\
  In (status r) [200; 400; 404; 500].




(** The answer to a limit [int()] does not read: the message of its
    ValueError, as the decorator reports it. *)
Definition unreadable_limit (s : string) : string :=
  "Server error: " ++ Py.int_error s.

(** The sum of [g] over a list. *)
Definition total {A} (g : A -> Z) (l : list A) : Z :=
  fold_right Z.add 0 (map g l).

(** The log of [n] runs with the same statements. *)
Fixpoint repeated {A} (n : nat) (l : list A) : list A :=
  match n with
  | O => []
  | S k => (l ++ repeated k l)%list
  end.

End Properties.

(* ================================================================== *)
(** * DatabaseManager: the connections of the threads                  *)
(* ================================================================== *)

Module Pool.
Import Store Exec.

(** A thread of the server, and the handle of a connection that
    [sqlite3.connect] returned. *)
Definition thread : Type := nat.
Definition connection : Type := nat.

(** The manager: [_local] holds the connection of each thread
    ([threading.local]), [_connection_count] is shared and updated under
    the lock. *)
Record manager : Type := mk_manager
  { db_path : string;
    max_connections : Z;
    _connection_count : Z;
    _local : thread -> option connection }.

Definition set_count (n : Z) (m : manager) : manager :=
  mk_manager (db_path m) (max_connections m) n (_local m).

Definition set_local (th : thread) (v : option connection) (m : manager)
    : manager :=
  mk_manager (db_path m) (max_connections m) (_connection_count m)
    (fun x => if Nat.eqb x th then v else _local m x).

(** [DatabaseManager(db_path, max_connections)], with [_validate_database]:
    whether the path exists and what the test connection raises, if it
    does, are the environment's. *)
Definition init (path : string) (limit : Z) (path_exists : bool)
    (test_connection : option string) : outcome manager :=
  if negb path_exists
  then Raise (FileNotFoundError ("Database file not found: " ++ path))
  else
    match test_connection with
    | Some msg => Raise (ConnectionError ("Cannot connect to database: " ++ msg))
    | None => Ok (mk_manager path limit 0 (fun _ => None))
    end.

(** [get_connection] up to its [yield]: a thread without a connection
    takes a slot under the lock, then connects and sets the connection up;
    [connect] is what [sqlite3.connect] and the PRAGMA statements give, a
    handle or the exception one of them raises. *)
Definition enter (th : thread) (connect : connection + exn) (m : manager)
    : outcome connection * manager :=
  match _local m th with
  | Some conn => (Ok conn, m)
  | None =>
      if max_connections m <=? _connection_count m
      then (Raise (ConnectionError "Maximum database connections reached"), m)
      else
        let m1 := set_count (_connection_count m + 1) m in
        match connect with
        | inl conn => (Ok conn, set_local th (Some conn) m1)
        | inr e => (Raise e, m1)
        end
  end.

(** [_close_connection]: [close_raises] tells whether [close()] raises,
    which skips the update of the count. *)
Definition _close_connection (th : thread) (close_raises : bool) (m : manager)
    : manager :=
  match _local m th with
  | Some _ =>
      set_local th None
        (if close_raises then m
         else set_count (Z.max 0 (_connection_count m - 1)) m)
  | None => m
  end.

(** [get_connection] after its [yield]: a body that raised has the
    connection closed before the exception goes on. *)
Definition leave (th : thread) (body_raised close_raises : bool) (m : manager)
    : manager :=
  if body_raised then _close_connection th close_raises m else m.

(** [with db_manager.get_connection() as conn: body] in one thread. *)
Definition get_connection {A} (th : thread) (connect : connection + exn)
    (close_raises : bool) (body : connection -> outcome A) (m : manager)
    : outcome A * manager :=
  match enter th connect m with
  | (Ok conn, m1) =>
      match body conn with
      | Ok a => (Ok a, leave th false close_raises m1)
      | Raise e => (Raise e, leave th true close_raises m1)
      end
  | (Raise e, m1) => (Raise e, m1)
  end.

Definition close_all (th : thread) (close_raises : bool) (m : manager)
    : manager :=
  _close_connection th close_raises m.

(** What the threads do to the manager, one after the other: the two
    halves of [get_connection] of one thread may have the halves of other
    threads between them.  A thread that ends takes its slot of [_local]
    with it and is not seen again. *)
Inductive event : Type :=
| Enters (th : thread) (connect : connection + exn)
| Leaves (th : thread) (body_raised close_raises : bool)
| ClosesAll (th : thread) (close_raises : bool).

Definition step (m : manager) (ev : event) : manager :=
  match ev with
  | Enters th connect => snd (enter th connect m)
  | Leaves th body_raised close_raises => leave th body_raised close_raises m
  | ClosesAll th close_raises => close_all th close_raises m
  end.

Definition run (trace : list event) (m : manager) : manager :=
  fold_left step trace m.

(** The manager as [init] gives it. *)
Definition fresh (path : string) (limit : Z) : manager :=
  mk_manager path limit 0 (fun _ => None).

(** The threads of [ths] that hold a connection. *)
Definition holders (ths : list thread) (m : manager) : list thread :=
  filter (fun th => match _local m th with Some _ => true | None => false end)
    ths.

(** The count is within its bounds, and no fewer than the threads that
    hold a connection. *)
Definition sound (m : manager) : Prop :=
  0 <= _connection_count m <= max_connections m /\
  forall ths, NoDup ths ->
    Z.of_nat (List.length (holders ths m)) <= _connection_count m.

(** Every thread is refused a connection. *)
Definition exhausted (m : manager) : Prop :=
  forall th connect,
    _local m th = None ->
    enter th connect m
    = (Raise (ConnectionError "Maximum database connections reached"), m).

Definition failed_connect (ev : event) : Prop :=
  exists th e, ev = Enters th (inr e).

(** One request served by each thread of [ths] in turn: the thread
    connects, its body returns. *)
Definition served (handle : thread -> connection) (ths : list thread)
    : list event :=
  flat_map (fun th => [Enters th (inl (handle th)); Leaves th false false]) ths.

End Pool.

(* ================================================================== *)
(** * JSON values and the Python operations the drawing routes apply   *)
(* ================================================================== *)

Module Json.

(** A value as [request.get_json()] returns it.  Numbers are the integers;
    a number with a fraction or an exponent is outside the model.  The
    members of an object are the items of the Python dict, in order; the
    keys of a dict are distinct, and of a key written twice the first
    counts. *)
#[warnings="-register-all"]
Inductive json : Type :=
| JNull
| JBool (b : bool)
| JInt (z : Z)
| JStr (s : string)
| JArr (items : list json)
| JObj (members : list (string * json)).

(** The exceptions of the drawing routes. *)
Inductive error : Type :=
| OperationalError (msg : string)
| ProgrammingError (msg : string)
| FileNotFoundError (msg : string)
| ConnectionError (msg : string)
| ValueError (msg : string)
| TypeError (msg : string)
| AttributeError (msg : string)
| KeyError (msg : string)
| OverflowError (msg : string)
| ZeroDivisionError (msg : string).

(** [str(e)]: the message, and of a KeyError the key as [repr] writes it,
    which for the keys of the routes is between single quotes. *)
Definition str_of_error (e : error) : string :=
  match e with
  | OperationalError m | ProgrammingError m | FileNotFoundError m
  | ConnectionError m | ValueError m | TypeError m | AttributeError m
  | OverflowError m | ZeroDivisionError m => m
  | KeyError m => "'" ++ m ++ "'"
  end.

Inductive result (A : Type) : Type :=
| Returns (a : A)
| Raises (e : error).
Arguments Returns {A} a.
Arguments Raises {A} e.

(** [type(v).__name__] *)
Definition type_name (v : json) : string :=
  match v with
  | JNull => "NoneType"
  | JBool _ => "bool"
  | JInt _ => "int"
  | JStr _ => "str"
  | JArr _ => "list"
  | JObj _ => "dict"
  end.

(** Truth value: [None], [False], 0 and the empty text, list and dict are
    false. *)
Definition truthy (v : json) : bool :=
  match v with
  | JNull => false
  | JBool b => b
  | JInt z => negb (z =? 0)
  | JStr s => negb (s =? "")%string
  | JArr items => match items with [] => false | _ => true end
  | JObj members => match members with [] => false | _ => true end
  end.

(** [key in v]: a key of a dict, an element of a list, a part of a text. *)
Definition contains (key : string) (v : json) : result bool :=
  match v with
  | JObj members => Returns (existsb (fun kv => (fst kv =? key)%string) members)
  | JArr items =>
      Returns (existsb (fun x => match x with
                                 | JStr s => (s =? key)%string
                                 | _ => false
                                 end) items)
  | JStr s => Returns (Py.contains key s)
  | _ => Raises (TypeError ("argument of type '" ++ type_name v
                            ++ "' is not iterable"))
  end.

(** [v[key]] for a text [key]. *)
Definition subscript (v : json) (key : string) : result json :=
  match v with
  | JObj members =>
      match App.dict_get key members with
      | Some x => Returns x
      | None => Raises (KeyError key)
      end
  | JArr _ =>
      Raises (TypeError "list indices must be integers or slices, not str")
  | JStr _ => Raises (TypeError "string indices must be integers, not 'str'")
  | _ => Raises (TypeError ("'" ++ type_name v
                            ++ "' object is not subscriptable"))
  end.

(** [v.get(key, default)] *)
Definition get (v : json) (key : string) (default : json) : result json :=
  match v with
  | JObj members =>
      Returns (match App.dict_get key members with
               | Some x => x
               | None => default
               end)
  | _ => Raises (AttributeError ("'" ++ type_name v
                                 ++ "' object has no attribute 'get'"))
  end.

(** The decimal text of an integer. *)
Definition signed_decimal (z : Z) : string :=
  if z <? 0 then "-" ++ Text.decimal (- z) else Text.decimal z.

(** [str(v)]; the text of a list or a dict is the one [repr] writes. *)
Definition str (repr : json -> string) (v : json) : string :=
  match v with
  | JNull => "None"
  | JBool true => "True"
  | JBool false => "False"
  | JInt z => signed_decimal z
  | JStr s => s
  | JArr _ | JObj _ => repr v
  end.

(** [int(s)] of a text, as [Py.int] reads it, with the ValueError of a
    text it does not read. *)
Definition int_of_text (s : string) : result Z :=
  match Py.int s with
  | Some z => Returns z
  | None => Raises (ValueError (Py.int_error s))
  end.

(** [int(v)] *)
Definition int (v : json) : result Z :=
  match v with
  | JInt z => Returns z
  | JBool b => Returns (if b then 1 else 0)
  | JStr s => int_of_text s
  | _ => Raises (TypeError ("int() argument must be a string, a bytes-like "
                            ++ "object or a real number, not '"
                            ++ type_name v ++ "'"))
  end.

(** [s.strip()] *)
Definition strip (s : string) : string := Py.rstrip (Py.lstrip s).

(** [sep.join(items)]: the items must be texts. *)
Fixpoint join_from (index : nat) (sep : string) (items : list json)
    : result string :=
  match items with
  | [] => Returns ""
  | x :: rest =>
      match x with
      | JStr s =>
          match rest with
          | [] => Returns s
          | _ :: _ =>
              match join_from (S index) sep rest with
              | Returns r => Returns (s ++ sep ++ r)
              | Raises e => Raises e
              end
          end
      | _ => Raises (TypeError ("sequence item "
                                ++ Text.decimal (Z.of_nat index)
                                ++ ": expected str instance, "
                                ++ type_name x ++ " found"))
      end
  end.

Definition join (sep : string) (items : list json) : result string :=
  join_from 0 sep items.

(** [s.split(sep)] for a separator of one character: the pieces between
    the separators, the empty ones too. *)
Fixpoint split_at (sep : ascii) (piece : string) (s : string) : list string :=
  match s with
  | EmptyString => [piece]
  | String c r =>
      if Ascii.eqb c sep then piece :: split_at sep "" r
      else split_at sep (piece ++ String c "") r
  end.

Definition split (sep : ascii) (s : string) : list string := split_at sep "" s.

(** What the routes take from Python as it is: [repr] of a text, a list
    or a dict, and of the [json] module [dumps], and [loads] with [None]
    where it raises [JSONDecodeError].  The routes are the same functions
    of them whatever they answer. *)
Record library : Type := mk_library
  { repr : json -> string;
    dumps : json -> string;
    loads : string -> option json }.

End Json.

(* ================================================================== *)
(** * The saved drawings: the table and the routes                     *)
(* ================================================================== *)

Module Drawings.
Import Json.

(** A row of [saved_drawings].  [name] is NOT NULL; the other columns may
    hold NULL.  The rows are those the routes write: texts in the TEXT
    columns, an integer in [layout]. *)
Record drawing : Type := mk_drawing
  { id : Z;
    name : string;
    layout : option Z;
    instruments : Sql.text;
    timeframe : Sql.text;
    start_date : Sql.text;
    end_date : Sql.text;
    drawings_data : Sql.text;
    created_at : Sql.text }.

(** The table: its rows in rowid order, and the entry of
    [sqlite_sequence] that AUTOINCREMENT keeps for it, the largest id ever
    given. *)
Record table : Type := mk_table
  { rows : list drawing;
    sequence : Z }.

(** The database of the drawing routes: the table, if it was created. *)
Record database : Type := mk_database
  { saved_drawings : option table }.

(** A computation on the database. *)
Definition run (A : Type) : Type := database -> result A * database.

Definition ret {A} (a : A) : run A := fun db => (Returns a, db).

Definition raise {A} (e : error) : run A := fun db => (Raises e, db).

Definition bind {A B} (m : run A) (f : A -> run B) : run B :=
  fun db =>
    match m db with
    | (Returns a, db1) => f a db1
    | (Raises e, db1) => (Raises e, db1)
    end.

Definition lift {A} (r : result A) : run A := fun db => (r, db).

End Drawings.

Notation "x <~~ e ;; k" := (Drawings.bind e (fun x => k))
  (at level 61, e at next level, right associativity).

Module DrawingsApp.
Import Json Drawings.

(** ** Responses *)

(** The dictionary [get_drawing] returns. *)
Record drawing_view : Type := mk_view
  { v_id : Z;
    v_name : string;
    v_layout : option Z;
    v_instruments : list string;
    v_timeframe : Sql.text;
    v_start_date : Sql.text;
    v_end_date : Sql.text;
    v_drawings : json;
    v_created_at : Sql.text }.

(** An entry of the list [get_saved_drawings] returns. *)
Record summary : Type := mk_summary
  { s_id : Z;
    s_name : string;
    s_created_at : Sql.text;
    s_layout : option Z;
    s_instruments : Sql.text;
    s_timeframe : Sql.text }.

Record pagination : Type := mk_pagination
  { page : Z;
    per_page : Z;
    total : Z;
    pages : Z }.

Inductive body : Type :=
| Error (message : string)
| Saved (id : Z) (message : string)
| Message (message : string)
| Drawing (view : drawing_view)
| Listing (drawings : list summary) (paging : pagination).

Record response : Type := mk_response
  { status : Z;
    content : body }.

Definition error_response (message : string) (code : Z) : response :=
  mk_response code (Error message).

(** ** Statements on the connection *)

(** [with db_manager.get_connection() as conn: body]; [unreachable] is the
    exception the manager raises instead of yielding a connection, if it
    does. *)
Definition get_connection {A} (unreachable : option error) (body : run A)
    : run A :=
  match unreachable with
  | Some e => raise e
  | None => body
  end.

(** The table a statement names, once the statement is prepared. *)
Definition prepared : run table :=
  fun db =>
    match saved_drawings db with
    | Some t => (Returns t, db)
    | None => (Raises (OperationalError "no such table: saved_drawings"), db)
    end.

(** Binding a Python int to a [?]. *)
Definition bind_integer (z : Z) : run unit :=
  if Sql.int64 z then ret tt
  else raise (OverflowError "Python int too large to convert to SQLite INTEGER").

(** Binding a value to the [?] of a TEXT column, [index] counted from 1:
    [None] is NULL, a text is itself, an integer (and a boolean, which is
    an integer) is stored as its decimal text. *)
Definition bind_text (index : Z) (v : json) : run Sql.text :=
  match v with
  | JNull => ret None
  | JStr s => ret (Some s)
  | JInt z =>
      if Sql.int64 z then ret (Some (signed_decimal z))
      else raise (OverflowError
                    "Python int too large to convert to SQLite INTEGER")
  | JBool b => ret (Some (if b then "1" else "0"))
  | JArr _ | JObj _ =>
      raise (ProgrammingError ("Error binding parameter "
                               ++ Text.decimal index ++ ": type '"
                               ++ type_name v ++ "' is not supported"))
  end.

(** The id AUTOINCREMENT gives to a new row: one more than the largest id
    the table has ever held. *)
Definition next_id (t : table) : Z :=
  1 + fold_right Z.max (sequence t) (map id (rows t)).

(** ** create_drawings_table *)

(** [CREATE TABLE IF NOT EXISTS]; the two indexes change no result. *)
Definition create_drawings_table (unreachable : option error) : run unit :=
  get_connection unreachable
    (fun db =>
       match saved_drawings db with
       | Some _ => (Returns tt, db)
       | None => (Returns tt, mk_database (Some (mk_table [] 0)))
       end).

(** ** handle_db_errors *)

Definition max_retries : Z := 3.

Fixpoint retry_loop (f : run response) (attempt : Z) (left : nat)
    : run response :=
  match left with
  | O => ret (error_response "Maximum retries exceeded" 500)
  | S left' =>
      fun db =>
        match f db with
        | (Returns r, db1) => (Returns r, db1)
        | (Raises e, db1) =>
            match e with
            | OperationalError m =>
                if Py.contains "database is locked" (Py.lower m)
                   && (attempt <? max_retries - 1)
                then retry_loop f (attempt + 1) left' db1
                else (Returns (error_response ("Database error: " ++ m) 500),
                      db1)
            | FileNotFoundError m =>
                (Returns (error_response ("Database file not found: " ++ m)
                            500), db1)
            | _ =>
                if attempt <? max_retries - 1
                then retry_loop f (attempt + 1) left' db1
                else (Returns (error_response
                                 ("Server error: " ++ str_of_error e) 500),
                      db1)
            end
        end
  end.

Definition handle_db_errors (f : run response) : run response :=
  retry_loop f 0 (Z.to_nat max_retries).

(** ** get_saved_drawings *)

(** [ORDER BY created_at DESC].  Among rows of one time SQL leaves the
    order open; the sort keeps them in the order of the table, and no
    property below depends on it. *)
Definition created_desc (a b : drawing) : bool :=
  Query.text_leb (created_at b) (created_at a).

(** [OFFSET n]: a negative [n] skips nothing. *)
Definition offset_rows {A} (n : Z) (l : list A) : list A :=
  skipn (Z.to_nat n) l.

Definition summary_of (row : drawing) : summary :=
  {| s_id := id row;
     s_name := name row;
     s_created_at := created_at row;
     s_layout := layout row;
     s_instruments := instruments row;
     s_timeframe := timeframe row |}.

(** [int(request.args.get(key, default))] *)
Definition int_arg (arg : option string) (default : Z) : run Z :=
  match arg with
  | Some s => lift (int_of_text s)
  | None => ret default
  end.

Definition get_saved_drawings_view (lib : library)
    (unreachable : option error) (arg_page arg_per_page : option string)
    : run response :=
  p <~~ int_arg arg_page 1 ;;
  let page := Z.max 1 p in
  q <~~ int_arg arg_per_page 50 ;;
  let per_page := Z.min q 100 in
  let offset := (page - 1) * per_page in
  found <~~ get_connection unreachable
              (t <~~ prepared ;;
               let total := Z.of_nat (List.length (rows t)) in
               t' <~~ prepared ;;
               _ <~~ bind_integer per_page ;;
               _ <~~ bind_integer offset ;;
               let selected :=
                 Sql.limit per_page
                   (offset_rows offset (Query.sort_by created_desc (rows t'))) in
               ret (total, map summary_of selected)) ;;
  let '(total, drawings) := found in
  if per_page =? 0
  then raise (ZeroDivisionError "integer division or modulo by zero")
  else
    ret (mk_response 200
           (Listing drawings
              {| page := page;
                 per_page := per_page;
                 total := total;
                 pages := (total + per_page - 1) / per_page |})).

Definition get_saved_drawings (lib : library) (unreachable : option error)
    (arg_page arg_per_page : option string) : run response :=
  handle_db_errors
    (get_saved_drawings_view lib unreachable arg_page arg_per_page).

(** ** save_drawings *)

Definition timeframes : list string :=
  ["raw"; "1min"; "5min"; "15min"; "30min"; "60min"; "120min"; "240min";
   "1day"].

(** [INSERT INTO saved_drawings (...) VALUES (?, ?, ?, ?, ?, ?, ?)] and
    [commit]; [created_at] takes CURRENT_TIMESTAMP, here [now].  When the
    ids of 64 bits are used up the statement fails.  The value is
    [cursor.lastrowid]. *)
Definition insert (name : string) (layout : Z) (instruments timeframe : string)
    (start_date end_date : json) (drawings_data : string) (now : string)
    : run Z :=
  t <~~ prepared ;;
  s <~~ bind_text 5 start_date ;;
  e <~~ bind_text 6 end_date ;;
  let new_id := next_id t in
  let row := mk_drawing new_id name (Some layout) (Some instruments)
               (Some timeframe) s e (Some drawings_data) (Some now) in
  if Sql.int64 new_id
  then fun _ => (Returns new_id,
                 mk_database (Some (mk_table (rows t ++ [row]) new_id)))
  else raise (OperationalError "database or disk is full").

Definition save_drawings_view (lib : library) (unreachable : option error)
    (data : json) (now : string) : run response :=
  missing <~~ (if negb (truthy data) then ret true
               else present <~~ lift (contains "name" data) ;;
                    ret (negb present)) ;;
  if missing : bool then ret (error_response "Name is required" 400)
  else
    v <~~ lift (subscript data "name") ;;
    let name := strip (str (repr lib) v) in
    if (name =? "")%string || (255 <? Z.of_nat (String.length name))
    then ret (error_response "Invalid name length (1-255 characters)" 400)
    else
      l <~~ lift (get data "layout" (JInt 1)) ;;
      layout <~~ lift (int l) ;;
      let layout := if (layout =? 1) || (layout =? 2) then layout else 1 in
      instruments <~~ lift (get data "instruments" (JArr [])) ;;
      let instruments :=
        match instruments with JArr items => items | _ => [] end in
      timeframe <~~ lift (get data "timeframe" (JStr "1min")) ;;
      let timeframe :=
        match timeframe with
        | JStr s => if existsb (String.eqb s) timeframes then s else "1min"
        | _ => "1min"
        end in
      drawings <~~ lift (get data "drawings" (JArr [])) ;;
      let drawings_data := dumps lib drawings in
      drawing_id <~~ get_connection unreachable
                       (joined <~~ lift (join "," instruments) ;;
                        start_date <~~ lift (get data "start_date" JNull) ;;
                        end_date <~~ lift (get data "end_date" JNull) ;;
                        insert name layout joined timeframe start_date end_date
                          drawings_data now) ;;
      ret (mk_response 200 (Saved drawing_id "Drawings saved successfully")).

Definition save_drawings (lib : library) (unreachable : option error)
    (data : json) (now : string) : run response :=
  handle_db_errors (save_drawings_view lib unreachable data now).

(** ** get_drawing *)

(** [SELECT * FROM saved_drawings WHERE id = ? LIMIT 1] *)
Definition select_by_id (drawing_id : Z) : run (option drawing) :=
  t <~~ prepared ;;
  _ <~~ bind_integer drawing_id ;;
  ret (find (fun row => id row =? drawing_id) (rows t)).

(** [json.loads(text) if text else []], with [[]] where [loads] raises. *)
Definition read_drawings (lib : library) (text : Sql.text) : json :=
  match text with
  | Some s =>
      if (s =? "")%string then JArr []
      else match loads lib s with
           | Some v => v
           | None => JArr []
           end
  | None => JArr []
  end.

(** [text.split(',') if text else []] *)
Definition read_instruments (text : Sql.text) : list string :=
  match text with
  | Some s => if (s =? "")%string then [] else split "," s
  | None => []
  end.

Definition view_of (lib : library) (row : drawing) : drawing_view :=
  {| v_id := id row;
     v_name := name row;
     v_layout := layout row;
     v_instruments := read_instruments (instruments row);
     v_timeframe := timeframe row;
     v_start_date := start_date row;
     v_end_date := end_date row;
     v_drawings := read_drawings lib (drawings_data row);
     v_created_at := created_at row |}.

Definition get_drawing_view (lib : library) (unreachable : option error)
    (drawing_id : Z) : run response :=
  if drawing_id <=? 0
  then ret (error_response "Invalid drawing ID" 400)
  else
    row <~~ get_connection unreachable (select_by_id drawing_id) ;;
    match row with
    | None => ret (error_response "Drawing not found" 404)
    | Some r => ret (mk_response 200 (Drawing (view_of lib r)))
    end.

Definition get_drawing (lib : library) (unreachable : option error)
    (drawing_id : Z) : run response :=
  handle_db_errors (get_drawing_view lib unreachable drawing_id).

(** ** delete_drawing *)

(** [DELETE FROM saved_drawings WHERE id = ?] and [commit]; the value is
    [cursor.rowcount]. *)
Definition delete_by_id (drawing_id : Z) : run Z :=
  t <~~ prepared ;;
  _ <~~ bind_integer drawing_id ;;
  let kept := filter (fun row => negb (id row =? drawing_id)) (rows t) in
  fun _ => (Returns (Z.of_nat (List.length (rows t))
                     - Z.of_nat (List.length kept)),
            mk_database (Some (mk_table kept (sequence t)))).

Definition delete_drawing_view (unreachable : option error) (drawing_id : Z)
    : run response :=
  if drawing_id <=? 0
  then ret (error_response "Invalid drawing ID" 400)
  else
    rowcount <~~ get_connection unreachable (delete_by_id drawing_id) ;;
    if rowcount =? 0
    then ret (error_response "Drawing not found" 404)
    else ret (mk_response 200 (Message "Drawing deleted successfully")).

Definition delete_drawing (unreachable : option error) (drawing_id : Z)
    : run response :=
  handle_db_errors (delete_drawing_view unreachable drawing_id).

End DrawingsApp.

(* ================================================================== *)
(** * The vocabulary of the properties of the drawing routes           *)
(* ================================================================== *)

Module DrawingStatements.
Import Json Drawings DrawingsApp.

(** A request to one of the drawing routes, with what the environment
    gives to it: the exception of the connection manager, if it raises, and
    the time of the clock. *)
Inductive request : Type :=
| Save (unreachable : option error) (data : json) (now : string)
| List (unreachable : option error) (arg_page arg_per_page : option string)
| Get (unreachable : option error) (drawing_id : Z)
| Delete (unreachable : option error) (drawing_id : Z).

Definition serve (lib : library) (req : request) : run response :=
  match req with
  | Save u data now => save_drawings lib u data now
  | List u p q => get_saved_drawings lib u p q
  | Get u i => get_drawing lib u i
  | Delete u i => delete_drawing u i
  end.

(** The requests served one after the other: the outcomes, and the
    database they leave. *)
Fixpoint serve_all (lib : library) (reqs : list request) (db : database)
    : list (result response) * database :=
  match reqs with
  | [] => ([], db)
  | req :: later =>
      let '(o, db1) := serve lib req db in
      let '(os, db2) := serve_all lib later db1 in
      (o :: os, db2)
  end.

(** The ids the save route gave out, oldest first. *)
Fixpoint ids_given (outcomes : list (result response)) : list Z :=
  match outcomes with
  | [] => []
  | Returns (mk_response _ (Saved i _)) :: later => i :: ids_given later
  | _ :: later => ids_given later
  end.

(** The answer of the decorator to an exception it retries no more. *)
Definition failure (e : error) : response :=
  match e with
  | OperationalError m => error_response ("Database error: " ++ m) 500
  | FileNotFoundError m =>
      error_response ("Database file not found: " ++ m) 500
  | _ => error_response ("Server error: " ++ str_of_error e) 500
  end.

(** Whether the decorator runs the handler again after [e], while attempts
    are left. *)
Definition again (e : error) : bool :=
  match e with
  | OperationalError m => Py.contains "database is locked" (Py.lower m)
  | FileNotFoundError _ => false
  | _ => true
  end.

(** A response other than the one of a successful save. *)
Definition gives_no_id (r : response) : Prop :=
  match content r with
  | Saved _ _ => False
  | _ => True
  end.

(** A row as the save route writes it. *)
Definition well_formed (row : drawing) : Prop :=
  strip (name row) = name row /\
  (1 <= String.length (name row) <= 255)%nat /\
  (layout row = Some 1 \/ layout row = Some 2) /\
  (exists s, timeframe row = Some s /\ In s timeframes) /\
  instruments row <> None /\
  drawings_data row <> None.

(** The table, if there is one, holds well-formed rows under distinct
    positive ids, none above the sequence. *)
Definition well_kept (db : database) : Prop :=
  match saved_drawings db with
  | Some t =>
      NoDup (map id (rows t)) /\
      Forall (fun row => 1 <= id row <= sequence t) (rows t) /\
      0 <= sequence t /\
      Forall well_formed (rows t)
  | None => True
  end.

(** The largest id the table has given, as [sqlite_sequence] has it; and
    what SQLite keeps true of it: no row is above it. *)
Definition last_id (db : database) : Z :=
  match saved_drawings db with
  | Some t => sequence t
  | None => 0
  end.

Definition ids_held (db : database) : list Z :=
  match saved_drawings db with
  | Some t => map id (rows t)
  | None => []
  end.

Definition sequence_kept (db : database) : Prop :=
  match saved_drawings db with
  | Some t => Forall (fun row => id row <= sequence t) (rows t)
  | None => True
  end.

(** The member of a request body under a key, or the default. *)
Definition member (members : list (string * json)) (key : string)
    (default : json) : json :=
  match App.dict_get key members with
  | Some x => x
  | None => default
  end.

(** The layout and the timeframe the save route stores for the ones
    given. *)
Definition layout_stored (given : Z) : Z :=
  if (given =? 1) || (given =? 2) then given else 1.

Definition timeframe_stored (given : json) : string :=
  match given with
  | JStr s => if existsb (String.eqb s) timeframes then s else "1min"
  | _ => "1min"
  end.

(** The text a TEXT column takes from a value, where the value can be
    bound. *)
Definition text_stored (v : json) : option Sql.text :=
  match v with
  | JNull => Some None
  | JStr s => Some (Some s)
  | JInt z => if Sql.int64 z then Some (Some (signed_decimal z)) else None
  | JBool b => Some (Some (if b then "1" else "0"))
  | JArr _ | JObj _ => None
  end.

(** The value of a query argument: its default when absent, what [int]
    reads when present. *)
Definition arg_value (arg : option string) (default : Z) : option Z :=
  match arg with
  | Some s => Py.int s
  | None => Some default
  end.

(** The texts with the separator between them. *)
Fixpoint joined (sep : string) (names : list string) : string :=
  match names with
  | [] => ""
  | s :: rest =>
      match rest with
      | [] => s
      | _ :: _ => s ++ sep ++ joined sep rest
      end
  end.

(** No text of the list holds a comma, and the list is not the one empty
    text. *)
Definition comma_free (names : list string) : Prop :=
  Forall (fun s => Py.contains "," s = false) names /\ names <> [""].

(** [a] is at least as new as [b]; in a list newest first each entry is
    at least as new as the next. *)
Definition as_new_as (a b : drawing) : Prop := created_desc a b = true.

Definition newest_first (a b : summary) : Prop :=
  Query.text_leb (s_created_at b) (s_created_at a) = true.

End DrawingStatements.

(* ================================================================== *)
(** * Sample requests, drawings and traces                             *)
(* ================================================================== *)

Module Cases.
Import Text Store Exec Query App Statements Samples Properties.

(** A handler that finds the database locked on its first run, when
    nothing is cached, and answers on its second. *)
Definition locked_once : exec response :=
  fun c =>
    match c with
    | None => (Raise (OperationalError "database is locked"), Some [],
               [MasterList])
    | Some v => (Ok (mk_response 200 (JsonInstruments v) None), c, [])
    end.

Definition no_slot_left : exn :=
  ConnectionError "Maximum database connections reached".

(** The fourth of March 2024, at 09:31:00. *)
Definition march_4th : time_value := mk_time_value 2024 3 4 9 31 0.

Definition first_busy_bar : bar_row := bar "2024-03-04 09:31:00" 100 104 99 103 10.

(** A bar of that day stamped with a [T], and one stamped with the date
    alone. *)
Definition iso_bar : bar_row := bar "2024-03-04T09:31:00" 100 104 99 103 10.
Definition date_bar : bar_row := bar "2024-03-04" 100 104 99 103 10.

Definition iso_table : table :=
  mk_table "iso_bars" bar_columns [iso_bar; date_bar] None.

(** Requests: three hourly bars; a limit that is no number; quarter-hour
    bars. *)
Definition three_hours : request_args :=
  mk_args (Some "60min") None None (Some "3") None.

Definition limit_abc : request_args :=
  mk_args (Some "raw") None None (Some "abc") None.


End Cases.

Module DrawingCases.
Import Json Drawings DrawingsApp DrawingStatements.

(** A library that writes and reads the empty list, writes [null] for
    anything else, and quotes a text as Python quotes one without quotes or
    escapes: enough for the samples. *)
Definition small_library : library :=
  {| repr := fun v => match v with JStr s => "'" ++ s ++ "'" | _ => "[]" end;
     dumps := fun v => match v with JArr [] => "[]" | _ => "null" end;
     loads := fun s => if (s =? "[]")%string then Some (JArr [])
                       else if (s =? "null")%string then Some JNull
                       else None |}.

(** The table as [create_drawings_table] leaves it. *)
Definition created : database := mk_database (Some (mk_table [] 0)).

(** A request body. *)
Definition swing_highs : list (string * json) :=
  [("name", JStr "  swing highs ");
   ("layout", JInt 2);
   ("instruments", JArr [JStr "ES"; JStr "NQ"]);
   ("timeframe", JStr "5min");
   ("start_date", JStr "2024-03-04")].

Definition noon : string := "2024-03-05 12:00:00".

Definition drawing_at (i : Z) (made : string) : drawing :=
  mk_drawing i "levels" (Some 1) (Some "ES") (Some "1min") None None
    (Some "[]") (Some made).

(** A table of three drawings, and one that has given five ids and holds
    the fifth. *)
Definition three_drawings : database :=
  mk_database
    (Some (mk_table [drawing_at 1 "2024-03-01 09:00:00";
                     drawing_at 2 "2024-03-02 09:00:00";
                     drawing_at 3 "2024-03-03 09:00:00"] 3)).

Definition fifth_left : database :=
  mk_database (Some (mk_table [drawing_at 5 "2024-03-05 09:00:00"] 5)).

End DrawingCases.

Module PoolCases.
Import Store Pool.

Definition path : string := "database/my_data.db".

Definition locked : exn := OperationalError "database is locked".

(** Two threads connect, the body of the first raises, a third thread
    fails to connect. *)
Definition mixed_trace : list event :=
  [Enters 0%nat (inl 7%nat); Enters 1%nat (inl 8%nat);
   Leaves 0%nat true false; Enters 2%nat (inr locked)].

Definition two_failures : list event :=
  [Enters 0%nat (inr locked); Enters 1%nat (inr locked)].

End PoolCases.

(* ================================================================== *)
(** * Facts about computations                                         *)
(* ================================================================== *)

Module ExecFacts.
Import Store Exec.

Lemma bind_ok {A B} (m : exec A) (f : A -> exec B) (c c1 c2 : cache) (a : A)
    (o : outcome B) (l1 l2 l : list statement) :
  m c = (Ok a, c1, l1) -> f a c1 = (o, c2, l2) -> l = (l1 ++ l2)%list ->
  bind m f c = (o, c2, l).
Proof. intros E1 E2 ->. unfold bind. now rewrite E1, E2. Qed.

Lemma bind_raise {A B} (m : exec A) (f : A -> exec B) (c c1 : cache) (e : exn)
    (l1 : list statement) :
  m c = (Raise e, c1, l1) -> bind m f c = (Raise e, c1, l1).
Proof. intros E1. unfold bind. now rewrite E1. Qed.

Lemma try_caught {A} (m : exec A) (h : exn -> exec A) (c c1 c2 : cache)
    (e : exn) (o : outcome A) (l1 l2 l : list statement) :
  m c = (Raise e, c1, l1) -> h e c1 = (o, c2, l2) -> l = (l1 ++ l2)%list ->
  try_except m any_exception h c = (o, c2, l).
Proof. intros E1 E2 ->. unfold try_except. now rewrite E1, E2. Qed.

Lemma try_ok {A} (m : exec A) (hs : exn -> bool) (h : exn -> exec A)
    (c c1 : cache) (a : A) (l1 : list statement) :
  m c = (Ok a, c1, l1) -> try_except m hs h c = (Ok a, c1, l1).
Proof. intros E1. unfold try_except. now rewrite E1. Qed.

End ExecFacts.

(* ================================================================== *)
(** * Facts about the text layer                                       *)
(* ================================================================== *)

Module TextFacts.
Import Text Statements ProofTools.

Lemma append_assoc (a b c : string) : ((a ++ b) ++ c = a ++ (b ++ c))%string.
Proof.
  induction a as [|x a IH]; simpl; [reflexivity | now rewrite IH].
Qed.

(** A boolean property checked on [0 .. k-1] holds on that range. *)
Lemma range_check (P : Z -> bool) (k : Z) :
  forallb P (map Z.of_nat (seq 0 (Z.to_nat k))) = true ->
  forall z, 0 <= z < k -> P z = true.
Proof.
  rewrite forallb_forall. intros H z Hz. apply H.
  apply in_map_iff. exists (Z.to_nat z). split; [lia|].
  apply in_seq. lia.
Qed.

Lemma digit_val_char (d : Z) :
  0 <= d <= 9 -> digit_val (digit_char d) = Some d.
Proof.
  intros Hd.
  assert (E : digit_roundtrip d = true).
  { apply (range_check digit_roundtrip 10); [vm_compute; reflexivity | lia]. }
  unfold digit_roundtrip in E.
  destruct (digit_val (digit_char d)); [|discriminate].
  apply Z.eqb_eq in E. now subst.
Qed.

Lemma printf_2 (n : Z) : 0 <= n <= 99 -> printf_0d 2 n = two_digits n.
Proof.
  intros Hn. apply String.eqb_eq.
  apply (range_check (fun n => (printf_0d 2 n =? two_digits n)%string) 100);
    [vm_compute; reflexivity | lia].
Qed.

Lemma printf_4 (n : Z) : 0 <= n <= 9999 -> printf_0d 4 n = four_digits n.
Proof.
  intros Hn. apply String.eqb_eq.
  apply (range_check (fun n => (printf_0d 4 n =? four_digits n)%string) 10000);
    [vm_compute; reflexivity | lia].
Qed.

Ltac digit_bounds :=
  match goal with
  | |- 0 <= ?e <= 9 =>
      let H := fresh in
      assert (H : 0 <= e <= 9) by (Z.div_mod_to_equations; lia); exact H
  end.

Lemma get_digits_step (k : nat) (acc d : Z) (r : string) :
  0 <= d <= 9 ->
  get_digits (S k) acc (String (digit_char d) r) = get_digits k (10 * acc + d) r.
Proof.
  intros Hd. cbn [get_digits]. now rewrite digit_val_char.
Qed.

Lemma get_digits_two (n acc : Z) (rest : string) :
  0 <= n <= 99 ->
  get_digits 2 acc (two_digits n ++ rest) = Some (100 * acc + n, rest).
Proof.
  intros Hn. unfold two_digits. cbn [append].
  rewrite !get_digits_step by digit_bounds. cbn [get_digits].
  f_equal. f_equal. Z.div_mod_to_equations; lia.
Qed.

Lemma get_digits_2 (n : Z) (rest : string) :
  0 <= n <= 99 ->
  get_digits 2 0 (printf_0d 2 n ++ rest) = Some (n, rest).
Proof.
  intros Hn. rewrite printf_2 by assumption.
  rewrite get_digits_two by assumption. f_equal.
Qed.

Lemma get_digits_4 (n : Z) (rest : string) :
  0 <= n <= 9999 ->
  get_digits 4 0 (printf_0d 4 n ++ rest) = Some (n, rest).
Proof.
  intros Hn. rewrite printf_4 by assumption. unfold four_digits.
  cbn [append].
  rewrite !get_digits_step by digit_bounds.
  rewrite get_digits_two by (Z.div_mod_to_equations; lia).
  f_equal. f_equal. Z.div_mod_to_equations; lia.
Qed.

Lemma valid_fields (t : time_value) :
  valid_time_value t = true ->
  0 <= year t <= 9999 /\ 1 <= month t <= 12 /\ 1 <= day t <= 31 /\
  0 <= hour t <= 23 /\ 0 <= minute t <= 59 /\ 0 <= second t <= 59.
Proof.
  unfold valid_time_value, in_range. intros H.
  repeat (apply andb_prop in H; destruct H as [H ?]).
  assert (days_in_month (year t) (month t) <= 31).
  { unfold days_in_month.
    destruct (month t =? 2); [destruct (is_leap (year t)); lia|].
    destruct ((month t =? 4) || (month t =? 6) || (month t =? 9)
              || (month t =? 11)); lia. }
  lia.
Qed.

Lemma parse_ymd_fmt (t : time_value) (rest : string) :
  valid_time_value t = true ->
  parse_ymd (fmt_date t ++ rest) = Some (year t, month t, day t, rest).
Proof.
  intros V. apply valid_fields in V.
  unfold parse_ymd, fmt_date. rewrite !append_assoc.
  rewrite get_digits_4 by lia. cbn [obind append expect Ascii.eqb Bool.eqb].
  rewrite get_digits_2 by lia. cbn [obind append expect Ascii.eqb Bool.eqb].
  rewrite get_digits_2 by lia. reflexivity.
Qed.

Lemma append_nil_r (s : string) : (s ++ "")%string = s.
Proof.
  induction s as [|c s IH]; simpl; [reflexivity | now rewrite IH].
Qed.

Lemma parse_hms_fmt (h mi se : Z) (rest : string) :
  0 <= h <= 99 -> 0 <= mi <= 99 -> 0 <= se <= 99 ->
  parse_hms (printf_0d 2 h ++ String ":" (printf_0d 2 mi ++
             String ":" (printf_0d 2 se ++ rest)))
  = obind (skip_fraction rest) (fun tail => Some (h, mi, se, tail)).
Proof.
  intros Hh Hm Hs. unfold parse_hms.
  rewrite get_digits_2 by lia. cbn [obind append expect Ascii.eqb Bool.eqb].
  rewrite get_digits_2 by lia. cbn [obind append expect Ascii.eqb Bool.eqb].
  rewrite get_digits_2 by lia. reflexivity.
Qed.

(** Reading back what strftime wrote. *)
Lemma parse_fmt_datetime (t : time_value) :
  valid_time_value t = true -> parse_time_value (fmt_datetime t) = Some t.
Proof.
  intros V. pose proof (valid_fields t V) as F.
  unfold parse_time_value, fmt_datetime.
  rewrite parse_ymd_fmt by assumption.
  cbn [obind append Ascii.eqb Bool.eqb orb].
  rewrite <- (append_nil_r (printf_0d 2 (second t))).
  rewrite parse_hms_fmt by lia. cbn [obind skip_fraction skip_zulu].
  destruct t; cbn [year month day hour minute second] in *. now rewrite V.
Qed.

Lemma valid_midnight (t : time_value) :
  valid_time_value t = true -> valid_time_value (midnight t) = true.
Proof.
  unfold valid_time_value, midnight, in_range.
  cbn [year month day hour minute second]. intros H. lia.
Qed.

Lemma parse_fmt_date (t : time_value) :
  valid_time_value t = true -> parse_time_value (fmt_date t) = Some (midnight t).
Proof.
  intros V. unfold parse_time_value.
  rewrite <- (append_nil_r (fmt_date t)).
  rewrite parse_ymd_fmt by assumption. cbn [obind].
  fold (midnight t). now rewrite valid_midnight.
Qed.

Lemma parse_valid (s : string) (t : time_value) :
  parse_time_value s = Some t -> valid_time_value t = true.
Proof.
  unfold parse_time_value. destruct (parse_ymd s) as [[[[y m] d] rest]|];
    cbn [obind]; [|discriminate].
  match goal with |- obind ?e _ = _ -> _ => destruct e as [t0|] end;
    cbn [obind]; [|discriminate].
  destruct (valid_time_value t0) eqn:V; [|discriminate].
  intros E. injection E as <-. assumption.
Qed.

Lemma valid_bucket_start (m : Z) (t : time_value) :
  0 < m -> valid_time_value t = true ->
  valid_time_value (bucket_start m t) = true.
Proof.
  intros Hm V. pose proof (valid_fields t V) as F.
  unfold valid_time_value, bucket_start, in_range in *.
  cbn [year month day hour minute second].
  assert (0 <= minute t / m * m <= 59).
  { pose proof (Z.mul_div_le (minute t) m Hm).
    assert (0 <= minute t / m) by (apply Z.div_pos; lia). nia. }
  lia.
Qed.

Lemma leading_digits_two (n : Z) :
  0 <= n <= 99 -> Sql.leading_digits (printf_0d 2 n) 0 = n.
Proof.
  intros Hn. rewrite printf_2 by assumption. unfold two_digits.
  cbn [Sql.leading_digits]. rewrite !digit_val_char by digit_bounds.
  Z.div_mod_to_equations; lia.
Qed.

(** ** The order of the texts is the order of time *)

Lemma digit_char_compare (x y : Z) :
  0 <= x <= 9 -> 0 <= y <= 9 ->
  Ascii.compare (digit_char x) (digit_char y) = (x ?= y).
Proof.
  intros Hx Hy.
  assert (E : digit_order (10 * x + y) = true).
  { apply (range_check digit_order 100); [vm_compute; reflexivity | lia]. }
  unfold digit_order in E.
  replace ((10 * x + y) / 10) with x in E by (Z.div_mod_to_equations; lia).
  replace ((10 * x + y) mod 10) with y in E by (Z.div_mod_to_equations; lia).
  destruct (Ascii.compare (digit_char x) (digit_char y)), (x ?= y);
    reflexivity || discriminate E.
Qed.

Lemma compare_digit (x y : Z) (r r' : string) :
  0 <= x <= 9 -> 0 <= y <= 9 ->
  String.compare (String (digit_char x) r) (String (digit_char y) r')
  = then_compare (x ?= y) (String.compare r r').
Proof.
  intros Hx Hy. cbn [String.compare]. rewrite digit_char_compare by assumption.
  now destruct (x ?= y).
Qed.

Lemma compare_two_digits (n n' : Z) (r r' : string) :
  0 <= n <= 99 -> 0 <= n' <= 99 ->
  String.compare (two_digits n ++ r) (two_digits n' ++ r')
  = then_compare (n ?= n') (String.compare r r').
Proof.
  intros Hn Hn'. unfold two_digits. cbn [append].
  rewrite !compare_digit by digit_bounds. unfold then_compare.
  destruct (Z.compare_spec (n / 10) (n' / 10));
    destruct (Z.compare_spec (n mod 10) (n' mod 10));
    destruct (Z.compare_spec n n'); try reflexivity;
    exfalso; Z.div_mod_to_equations; lia.
Qed.

Lemma compare_four_digits (n n' : Z) (r r' : string) :
  0 <= n <= 9999 -> 0 <= n' <= 9999 ->
  String.compare (four_digits n ++ r) (four_digits n' ++ r')
  = then_compare (n ?= n') (String.compare r r').
Proof.
  intros Hn Hn'. unfold four_digits. cbn [append].
  rewrite !compare_digit by digit_bounds.
  rewrite compare_two_digits by (Z.div_mod_to_equations; lia).
  unfold then_compare.
  destruct (Z.compare_spec (n / 1000) (n' / 1000));
    destruct (Z.compare_spec (n / 100 mod 10) (n' / 100 mod 10));
    destruct (Z.compare_spec (n mod 100) (n' mod 100));
    destruct (Z.compare_spec n n'); try reflexivity;
    exfalso; Z.div_mod_to_equations; lia.
Qed.

Lemma compare_same_head (c : ascii) (r r' : string) :
  String.compare (String c r) (String c r') = String.compare r r'.
Proof.
  cbn [String.compare]. unfold Ascii.compare. now rewrite N.compare_refl.
Qed.

(** Two timestamps written by strftime compare as texts the way their
    time values compare in time. *)
Lemma fmt_datetime_order (a b : time_value) :
  valid_time_value a = true -> valid_time_value b = true ->
  String.compare (fmt_datetime a) (fmt_datetime b) = chrono_compare a b.
Proof.
  intros Va Vb. apply valid_fields in Va, Vb.
  unfold fmt_datetime, fmt_date, chrono_compare. rewrite !append_assoc.
  rewrite !printf_4, !printf_2 by lia. cbn [append].
  rewrite compare_four_digits by lia. f_equal. rewrite compare_same_head.
  rewrite compare_two_digits by lia. f_equal. rewrite compare_same_head.
  rewrite compare_two_digits by lia. f_equal. rewrite compare_same_head.
  rewrite compare_two_digits by lia. f_equal. rewrite compare_same_head.
  rewrite compare_two_digits by lia. f_equal. rewrite compare_same_head.
  rewrite <- (append_nil_r (two_digits (second a))).
  rewrite <- (append_nil_r (two_digits (second b))).
  rewrite compare_two_digits by lia. cbn [String.compare].
  unfold then_compare. now destruct (second a ?= second b).
Qed.

Lemma fmt_date_order (a b : time_value) :
  valid_time_value a = true -> valid_time_value b = true ->
  String.compare (fmt_date a) (fmt_date b)
  = chrono_compare (midnight a) (midnight b).
Proof.
  intros Va Vb. apply valid_fields in Va, Vb.
  unfold fmt_date, chrono_compare, midnight.
  cbn [year month day hour minute second].
  rewrite !printf_4, !printf_2 by lia. cbn [append].
  rewrite compare_four_digits by lia. f_equal. rewrite compare_same_head.
  rewrite compare_two_digits by lia. f_equal. rewrite compare_same_head.
  rewrite <- (append_nil_r (two_digits (day a))).
  rewrite <- (append_nil_r (two_digits (day b))).
  rewrite compare_two_digits by lia. cbn [String.compare Z.compare].
  unfold then_compare. now destruct (day a ?= day b).
Qed.

(** Two calendar dates are written alike only if they are the same. *)
Lemma fmt_date_same (a b : time_value) :
  valid_time_value a = true -> valid_time_value b = true ->
  (fmt_date a = fmt_date b <->
   year a = year b /\ month a = month b /\ day a = day b).
Proof.
  intros Va Vb. split.
  - intros E. pose proof (fmt_date_order a b Va Vb) as O. rewrite E in O.
    assert (R : String.compare (fmt_date b) (fmt_date b) = Eq).
    { generalize (fmt_date b). intros s.
      induction s as [|c s IH]; [reflexivity|].
      now rewrite compare_same_head. }
    rewrite R in O. unfold chrono_compare, midnight, then_compare in O.
    cbn [year month day hour minute second] in O.
    destruct (Z.compare_spec (year a) (year b)); try discriminate O.
    destruct (Z.compare_spec (month a) (month b)); try discriminate O.
    destruct (Z.compare_spec (day a) (day b)); try discriminate O.
    tauto.
  - intros (Ey & Em & Ed). unfold fmt_date. now rewrite Ey, Em, Ed.
Qed.

End TextFacts.

(* ================================================================== *)
(** * Facts about the order of texts, the keys and the sort            *)
(* ================================================================== *)

Module OrderFacts.
Import Query Statements ProofTools.

Lemma ascii_compare_refl (a : ascii) : Ascii.compare a a = Eq.
Proof. unfold Ascii.compare. apply N.compare_refl. Qed.

Lemma ascii_compare_lt_trans (a b c : ascii) :
  Ascii.compare a b = Lt -> Ascii.compare b c = Lt -> Ascii.compare a c = Lt.
Proof.
  unfold Ascii.compare. rewrite !N.compare_lt_iff. intros; lia.
Qed.

Lemma string_compare_refl (s : string) : String.compare s s = Eq.
Proof.
  induction s as [|a s IH]; simpl; [reflexivity|].
  now rewrite ascii_compare_refl.
Qed.

Lemma string_compare_lt_trans (a b c : string) :
  String.compare a b = Lt -> String.compare b c = Lt -> String.compare a c = Lt.
Proof.
  revert b c. induction a as [|x a IH]; intros [|y b] [|z c]; simpl;
    try discriminate; try reflexivity.
  destruct (Ascii.compare x y) eqn:Exy; destruct (Ascii.compare y z) eqn:Eyz;
    try discriminate; intros H1 H2.
  - apply Ascii.compare_eq_iff in Exy, Eyz. subst.
    rewrite ascii_compare_refl. eauto.
  - apply Ascii.compare_eq_iff in Exy. subst. now rewrite Eyz.
  - apply Ascii.compare_eq_iff in Eyz. subst. now rewrite Exy.
  - now rewrite (ascii_compare_lt_trans x y z).
Qed.

Lemma text_compare_refl (a : Sql.text) : text_compare a a = Eq.
Proof. destruct a; simpl; [apply string_compare_refl | reflexivity]. Qed.

Lemma text_compare_eq (a b : Sql.text) : text_compare a b = Eq -> a = b.
Proof.
  destruct a, b; simpl; try discriminate; try reflexivity.
  intros H. apply String.compare_eq_iff in H. now subst.
Qed.

Lemma text_compare_antisym (a b : Sql.text) :
  text_compare a b = CompOpp (text_compare b a).
Proof.
  destruct a, b; simpl; try reflexivity. apply String.compare_antisym.
Qed.

Lemma text_lt_trans (a b c : Sql.text) : text_lt a b -> text_lt b c -> text_lt a c.
Proof.
  unfold text_lt. destruct a, b, c; simpl; try discriminate; try reflexivity.
  apply string_compare_lt_trans.
Qed.

Lemma text_lt_irrefl (a : Sql.text) : ~ text_lt a a.
Proof. unfold text_lt. rewrite text_compare_refl. discriminate. Qed.

Lemma text_eqb_eq (a b : Sql.text) : text_eqb a b = true <-> a = b.
Proof.
  unfold text_eqb. split.
  - destruct (text_compare a b) eqn:E; try discriminate.
    intros _. now apply text_compare_eq.
  - intros ->. now rewrite text_compare_refl.
Qed.

Lemma text_leb_total (a b : Sql.text) : text_leb a b = true \/ text_leb b a = true.
Proof.
  unfold text_leb. rewrite (text_compare_antisym b a).
  destruct (text_compare a b); simpl; auto.
Qed.

Lemma text_leb_trans (a b c : Sql.text) :
  text_leb a b = true -> text_leb b c = true -> text_leb a c = true.
Proof.
  unfold text_leb.
  destruct (text_compare a b) eqn:Eab; try discriminate;
    destruct (text_compare b c) eqn:Ebc; try discriminate; intros _ _.
  - apply text_compare_eq in Eab, Ebc. subst. now rewrite text_compare_refl.
  - apply text_compare_eq in Eab. subst. now rewrite Ebc.
  - apply text_compare_eq in Ebc. subst. now rewrite Eab.
  - now rewrite (text_lt_trans a b c Eab Ebc).
Qed.

(** ** The keys of GROUP BY *)

Lemma insert_key_in (k x : Sql.text) (l : list Sql.text) :
  In x (insert_key k l) <-> x = k \/ In x l.
Proof.
  induction l as [|y l IH]; simpl.
  - intuition.
  - destruct (text_compare k y) eqn:E; simpl.
    + apply text_compare_eq in E. subst. intuition.
    + intuition.
    + rewrite IH. intuition.
Qed.

Lemma group_keys_in (x : Sql.text) (l : list Sql.text) :
  In x (group_keys l) <-> In x l.
Proof.
  induction l as [|y l IH]; simpl; [tauto|].
  rewrite insert_key_in, IH. intuition.
Qed.

Lemma insert_key_sorted (k : Sql.text) (l : list Sql.text) :
  Sorted text_lt l -> Sorted text_lt (insert_key k l).
Proof.
  induction l as [|y l IH]; simpl; intros S.
  - repeat constructor.
  - destruct (text_compare k y) eqn:E.
    + assumption.
    + constructor; [assumption | constructor; exact E].
    + inversion S as [|? ? S' Hd]; subst.
      constructor; [auto|].
      destruct l as [|z l]; simpl.
      * constructor. unfold text_lt. rewrite text_compare_antisym, E. reflexivity.
      * destruct (text_compare k z) eqn:E'.
        -- exact Hd.
        -- constructor. unfold text_lt.
           rewrite text_compare_antisym, E. reflexivity.
        -- inversion Hd; subst. now constructor.
Qed.

Lemma group_keys_sorted (l : list Sql.text) : Sorted text_lt (group_keys l).
Proof.
  induction l as [|y l IH]; simpl; [constructor | now apply insert_key_sorted].
Qed.

Lemma text_lt_strongly (l : list Sql.text) :
  Sorted text_lt l -> StronglySorted text_lt l.
Proof.
  apply Sorted_StronglySorted. intros a b c. apply text_lt_trans.
Qed.

Lemma sorted_nodup (l : list Sql.text) : Sorted text_lt l -> NoDup l.
Proof.
  intros S. apply text_lt_strongly in S.
  induction S as [|x l S IH F]; constructor; [|assumption].
  intros Hin. rewrite Forall_forall in F.
  exact (text_lt_irrefl x (F x Hin)).
Qed.

(** Keys in strict order are fixed by which keys they are. *)
Lemma sorted_same (l l' : list Sql.text) :
  Sorted text_lt l -> Sorted text_lt l' ->
  (forall k, In k l <-> In k l') -> l = l'.
Proof.
  intros S S' E. apply text_lt_strongly in S, S'.
  revert l' S' E. induction S as [|x l S IH F]; intros l' S' E.
  - destruct l' as [|y l']; [reflexivity|].
    destruct (proj2 (E y) (or_introl eq_refl)).
  - destruct S' as [|y l' S' F'].
    + destruct (proj1 (E x) (or_introl eq_refl)).
    + rewrite Forall_forall in F, F'.
      assert (x = y) as <-.
      { destruct (proj1 (E x) (or_introl eq_refl)) as [H|H]; [now symmetry|].
        destruct (proj2 (E y) (or_introl eq_refl)) as [H'|H']; [assumption|].
        exfalso. apply (text_lt_irrefl x).
        apply (text_lt_trans x y x); [now apply F | now apply F']. }
      f_equal. apply IH; [assumption|].
      intros k. split; intros Hk.
      * destruct (proj1 (E k) (or_intror Hk)) as [<-|H]; [|exact H].
        exfalso. exact (text_lt_irrefl x (F x Hk)).
      * destruct (proj2 (E k) (or_intror Hk)) as [<-|H]; [|exact H].
        exfalso. exact (text_lt_irrefl x (F' x Hk)).
Qed.

(** Keys already in strict order are their own key list. *)
Lemma group_keys_fixed (l : list Sql.text) :
  Sorted text_lt l -> group_keys l = l.
Proof.
  induction l as [|x l IH]; simpl; intros S; [reflexivity|].
  inversion S as [|? ? S' Hd]; subst. rewrite IH by assumption.
  destruct l as [|y l]; simpl; [reflexivity|].
  inversion Hd as [|? ? H]; subst. unfold text_lt in H. now rewrite H.
Qed.

(** ** The stable sort *)

Section Sort.
Context {A : Type} (leb : A -> A -> bool).
Hypothesis leb_total : forall a b, leb a b = true \/ leb b a = true.
Hypothesis leb_trans :
  forall a b c, leb a b = true -> leb b c = true -> leb a c = true.

Lemma insert_by_perm (x : A) (l : list A) :
  Permutation (insert_by leb x l) (x :: l).
Proof.
  induction l as [|y l IH]; simpl; [reflexivity|].
  destruct (leb x y); [reflexivity|].
  rewrite IH. apply perm_swap.
Qed.

Lemma sort_by_perm (l : list A) : Permutation (sort_by leb l) l.
Proof.
  induction l as [|x l IH]; simpl; [reflexivity|].
  rewrite insert_by_perm. now constructor.
Qed.

Lemma insert_by_sorted (x : A) (l : list A) :
  Sorted (fun a b => leb a b = true) l ->
  Sorted (fun a b => leb a b = true) (insert_by leb x l).
Proof.
  induction l as [|y l IH]; simpl; intros S.
  - repeat constructor.
  - destruct (leb x y) eqn:E.
    + constructor; [assumption | constructor; exact E].
    + inversion S as [|? ? S' Hd]; subst.
      assert (Eyx : leb y x = true) by (destruct (leb_total x y); congruence).
      constructor; [auto|].
      destruct l as [|z l]; simpl.
      * constructor. exact Eyx.
      * destruct (leb x z); constructor; [exact Eyx|].
        inversion Hd; assumption.
Qed.

Lemma sort_by_sorted (l : list A) :
  Sorted (fun a b => leb a b = true) (sort_by leb l).
Proof.
  induction l as [|x l IH]; simpl; [constructor | now apply insert_by_sorted].
Qed.

(** The first row of the sorted partition is below every row of it. *)
Lemma sort_by_head (l : list A) (x : A) (r : list A) :
  sort_by leb l = x :: r ->
  In x l /\ forall y, In y l -> leb x y = true.
Proof.
  intros E. pose proof (sort_by_perm l) as P. rewrite E in P.
  split.
  - apply (Permutation_in x P). now left.
  - intros y Hy. apply (Permutation_in y (Permutation_sym P)) in Hy.
    pose proof (sort_by_sorted l) as S. rewrite E in S.
    apply Sorted_StronglySorted in S; [|intros a b c; apply leb_trans].
    inversion S as [|? ? _ F]; subst. rewrite Forall_forall in F.
    destruct Hy as [<-|Hy]; [|now apply F].
    destruct (leb_total x x); assumption.
Qed.

Lemma sort_by_nil (l : list A) : sort_by leb l = [] -> l = [].
Proof.
  intros E. pose proof (sort_by_perm l) as P. rewrite E in P.
  now apply Permutation_nil in P.
Qed.

End Sort.

Lemma ts_asc_total (a b : Store.bar_row) : ts_asc a b = true \/ ts_asc b a = true.
Proof. apply text_leb_total. Qed.

Lemma ts_asc_trans (a b c : Store.bar_row) :
  ts_asc a b = true -> ts_asc b c = true -> ts_asc a c = true.
Proof. apply text_leb_trans. Qed.

Lemma ts_desc_total (a b : Store.bar_row) :
  ts_desc a b = true \/ ts_desc b a = true.
Proof. apply text_leb_total. Qed.

Lemma ts_desc_trans (a b c : Store.bar_row) :
  ts_desc a b = true -> ts_desc b c = true -> ts_desc a c = true.
Proof. unfold ts_desc. intros H1 H2. exact (text_leb_trans _ _ _ H2 H1). Qed.

End OrderFacts.

(* ================================================================== *)
(** * Facts about the bucket keys                                      *)
(* ================================================================== *)

Module PeriodFacts.
Import Text TextFacts Query App Statements ProofTools.

Lemma period_minutes_parse (m : Z) (T : string) (t : time_value) :
  0 < m -> parse_time_value T = Some t ->
  period_minutes m (Some T) = Some (fmt_datetime (bucket_start m t)).
Proof.
  intros Hm P. pose proof (parse_valid T t P) as V.
  pose proof (valid_fields t V) as F.
  unfold period_minutes, Sql.strftime_YmdH, Sql.strftime_M. rewrite P.
  cbn [Sql.cast_integer option_map].
  rewrite leading_digits_two by lia.
  unfold Sql.div. destruct (Z.eqb_spec m 0) as [->|_]; [lia|].
  cbn [Sql.mul option_map Sql.printf_02d Sql.concat].
  rewrite Z.quot_div_nonneg by lia.
  replace (((fmt_date t ++ " " ++ printf_0d 2 (hour t) ++ ":") ++
            printf_0d 2 (minute t / m * m)) ++ ":00")%string
    with (fmt_datetime (bucket_start m t)).
  - unfold Sql.datetime.
    now rewrite parse_fmt_datetime by (now apply valid_bucket_start).
  - unfold fmt_datetime, fmt_date, bucket_start.
    cbn [year month day hour minute second].
    change (printf_0d 2 0) with "00". rewrite !append_assoc. reflexivity.
Qed.

Lemma period_minutes_unparsed (m : Z) (x : Sql.text) :
  match x with Some T => parse_time_value T = None | None => True end ->
  period_minutes m x = None.
Proof.
  unfold period_minutes, Sql.strftime_YmdH, Sql.strftime_M.
  destruct x as [T|]; [intros ->|]; reflexivity.
Qed.

Lemma period_daily_parse (T : string) (t : time_value) :
  parse_time_value T = Some t -> period_daily (Some T) = Some (fmt_date t).
Proof.
  intros P. unfold period_daily, Sql.date. now rewrite P.
Qed.

Lemma bucket_start_again (m : Z) (t : time_value) :
  0 < m -> bucket_start m (bucket_start m t) = bucket_start m t.
Proof.
  intros Hm. unfold bucket_start. cbn [year month day hour minute second].
  now rewrite Z.div_mul by lia.
Qed.

(** A bucket key is the key of its own bucket. *)
Lemma period_minutes_again (m : Z) (x : Sql.text) :
  0 < m -> period_minutes m (period_minutes m x) = period_minutes m x.
Proof.
  intros Hm. destruct x as [T|].
  - destruct (parse_time_value T) as [t|] eqn:P.
    + rewrite (period_minutes_parse m T t Hm P).
      rewrite (period_minutes_parse m _ (bucket_start m t) Hm).
      * now rewrite bucket_start_again.
      * apply parse_fmt_datetime, valid_bucket_start;
          [assumption | now apply (parse_valid T)].
    + now rewrite (period_minutes_unparsed m (Some T)).
  - reflexivity.
Qed.

Lemma period_daily_again (x : Sql.text) :
  period_daily (period_daily x) = period_daily x.
Proof.
  destruct x as [T|]; [|reflexivity].
  unfold period_daily, Sql.date.
  destruct (parse_time_value T) as [t|] eqn:P; [|reflexivity].
  cbn [option_map]. rewrite parse_fmt_date by (now apply (parse_valid T)).
  reflexivity.
Qed.

Lemma dict_get_in {V} (k : string) (d : list (string * V)) (v : V) :
  dict_get k d = Some v -> In (k, v) d.
Proof.
  induction d as [|[k' v'] d IH]; simpl; [discriminate|].
  destruct (String.eqb_spec k' k) as [->|_].
  - intros E. injection E as ->. now left.
  - intros E. right. auto.
Qed.

Lemma intervals_positive (timeframe : string) (m : Z) :
  dict_get timeframe intervals = Some m -> 0 < m.
Proof.
  intros E. apply dict_get_in in E. unfold intervals in E. simpl in E.
  repeat (destruct E as [E|E]; [injection E as _ <-; lia|]). contradiction.
Qed.

Lemma period_of_again (m : Z) (x : Sql.text) :
  0 < m -> period_of m (period_of m x) = period_of m x.
Proof.
  intros Hm. unfold period_of. destruct (m =? 1440).
  - apply period_daily_again.
  - now apply period_minutes_again.
Qed.

(** A bucket start that is not NULL is a time value written by strftime. *)
Lemma minute_key_form (m : Z) (x : Sql.text) (k : string) :
  0 < m -> period_minutes m x = Some k ->
  exists t, valid_time_value t = true /\ k = fmt_datetime t.
Proof.
  intros Hm E. destruct x as [T|]; [|discriminate E].
  destruct (parse_time_value T) as [t|] eqn:P.
  - rewrite (period_minutes_parse m T t Hm P) in E. injection E as <-.
    exists (bucket_start m t). split; [|reflexivity].
    apply valid_bucket_start; [assumption | now apply (parse_valid T)].
  - rewrite (period_minutes_unparsed m (Some T)) in E by assumption.
    discriminate E.
Qed.

Lemma daily_key_form (x : Sql.text) (k : string) :
  period_daily x = Some k ->
  exists t, valid_time_value t = true /\ k = fmt_date t.
Proof.
  unfold period_daily, Sql.date. destruct x as [T|]; [|discriminate].
  destruct (parse_time_value T) as [t|] eqn:P; [|discriminate].
  cbn [option_map]. intros E. injection E as <-.
  exists t. split; [now apply (parse_valid T) | reflexivity].
Qed.

(** The order of two bucket starts as texts is their order in time. *)
Lemma bucket_starts_in_time_order (m : Z) (x y : Sql.text) (kx ky : string) :
  0 < m -> period_of m x = Some kx -> period_of m y = Some ky ->
  exists tx ty,
    valid_time_value tx = true /\ valid_time_value ty = true /\
    kx = (if m =? 1440 then fmt_date tx else fmt_datetime tx) /\
    ky = (if m =? 1440 then fmt_date ty else fmt_datetime ty) /\
    text_compare (Some kx) (Some ky)
    = (if m =? 1440 then chrono_compare (midnight tx) (midnight ty)
       else chrono_compare tx ty).
Proof.
  intros Hm. unfold period_of. destruct (m =? 1440); intros Ex Ey.
  - apply daily_key_form in Ex as (tx & Vx & ->).
    apply daily_key_form in Ey as (ty & Vy & ->).
    exists tx, ty. repeat split; try assumption.
    now apply fmt_date_order.
  - apply minute_key_form in Ex as (tx & Vx & ->); [|assumption].
    apply minute_key_form in Ey as (ty & Vy & ->); [|assumption].
    exists tx, ty. repeat split; try assumption.
    now apply fmt_datetime_order.
Qed.

End PeriodFacts.

(* ================================================================== *)
(** * Facts about the aggregates and the grouped SELECT                *)
(* ================================================================== *)

Module AggFacts.
Import Store Exec ExecFacts Query App Statements ProofTools OrderFacts.

Lemma in_non_null {A} (v : A) (l : list (option A)) :
  In v (non_null l) <-> In (Some v) l.
Proof.
  induction l as [|[a|] l IH]; simpl.
  - tauto.
  - rewrite IH. split; intros [H|H]; auto; left; congruence.
  - rewrite IH. split; [auto | intros [H|H]; [discriminate | assumption]].
Qed.

Lemma fold_max_spec (r : list Z) (x : Z) :
  In (fold_left Z.max r x) (x :: r) /\
  forall v, In v (x :: r) -> v <= fold_left Z.max r x.
Proof.
  revert x. induction r as [|y r IH]; intros x; simpl.
  - split; [now left | intros v [<-|[]]; lia].
  - destruct (IH (Z.max x y)) as [I B]. split.
    + destruct I as [I|I]; [|now right; right].
      rewrite <- I.
      destruct (Z.max_spec x y) as [[_ E]|[_ E]]; rewrite E; auto.
    + intros v Hv. pose proof (B (Z.max x y) (or_introl eq_refl)).
      destruct Hv as [<-|[<-|Hv]]; [lia | lia | apply B; now right].
Qed.

Lemma fold_min_spec (r : list Z) (x : Z) :
  In (fold_left Z.min r x) (x :: r) /\
  forall v, In v (x :: r) -> fold_left Z.min r x <= v.
Proof.
  revert x. induction r as [|y r IH]; intros x; simpl.
  - split; [now left | intros v [<-|[]]; lia].
  - destruct (IH (Z.min x y)) as [I B]. split.
    + destruct I as [I|I]; [|now right; right].
      rewrite <- I.
      destruct (Z.min_spec x y) as [[_ E]|[_ E]]; rewrite E; auto.
    + intros v Hv. pose proof (B (Z.min x y) (or_introl eq_refl)).
      destruct Hv as [<-|[<-|Hv]]; [lia | lia | apply B; now right].
Qed.

(** MAX is the greatest of the values present. *)
Lemma sql_max_spec (l : list (option Z)) :
  match sql_max l with
  | Some m => In (Some m) l /\ forall v, In (Some v) l -> v <= m
  | None => forall v, ~ In (Some v) l
  end.
Proof.
  unfold sql_max. destruct (non_null l) as [|x r] eqn:E.
  - intros v Hv. apply in_non_null in Hv. rewrite E in Hv. contradiction.
  - destruct (fold_max_spec r x) as [I B]. rewrite <- E in I, B. split.
    + now apply in_non_null.
    + intros v Hv. apply B. now apply in_non_null.
Qed.

Lemma sql_min_spec (l : list (option Z)) :
  match sql_min l with
  | Some m => In (Some m) l /\ forall v, In (Some v) l -> m <= v
  | None => forall v, ~ In (Some v) l
  end.
Proof.
  unfold sql_min. destruct (non_null l) as [|x r] eqn:E.
  - intros v Hv. apply in_non_null in Hv. rewrite E in Hv. contradiction.
  - destruct (fold_min_spec r x) as [I B]. rewrite <- E in I, B. split.
    + now apply in_non_null.
    + intros v Hv. apply B. now apply in_non_null.
Qed.

Lemma fold_add (r : list Z) (x : Z) :
  fold_left Z.add r x = x + fold_right Z.add 0 r.
Proof.
  revert x. induction r as [|y r IH]; intros x; simpl; [lia|].
  rewrite IH. lia.
Qed.

(** SUM, read with NULL as 0, adds the values with NULL as 0. *)
Lemma sql_sum_spec (l : list (option Z)) :
  Py.number_or_0 (sql_sum l) = fold_right Z.add 0 (map Py.number_or_0 l).
Proof.
  assert (E : fold_right Z.add 0 (map Py.number_or_0 l)
              = fold_right Z.add 0 (non_null l)).
  { induction l as [|[a|] l IH]; simpl; [reflexivity | now rewrite IH | exact IH]. }
  rewrite E. unfold sql_sum. destruct (non_null l) as [|x r]; simpl; [reflexivity|].
  apply fold_add.
Qed.

Lemma later_rows_null (col : bar_row -> option Z) (r : list bar_row) (k : nat) :
  (2 <= k)%nat ->
  non_null (map (case_rn1 col) (combine r (map Z.of_nat (seq k (List.length r))))) = [].
Proof.
  revert k. induction r as [|x r IH]; intros k Hk; simpl; [reflexivity|].
  unfold case_rn1 at 1. cbn [snd fst].
  destruct (Z.eqb_spec (Z.of_nat k) 1); [lia|]. apply IH. lia.
Qed.

(** AVG over the CASE on row number 1 is the value in the first row. *)
Lemma avg_first_row (col : bar_row -> option Z) (l : list bar_row) :
  sql_avg (map (case_rn1 col) (number l)) =
  match l with [] => None | x :: _ => col x end.
Proof.
  destruct l as [|x r]; [reflexivity|].
  unfold sql_avg, number. cbn [List.length seq map combine].
  unfold case_rn1 at 1. cbn [snd fst Z.of_nat Pos.of_succ_nat Z.eqb Pos.eqb].
  destruct (col x) as [v|]; cbn [non_null]; rewrite later_rows_null by lia.
  - cbn [fold_left List.length Z.of_nat Pos.of_succ_nat]. now rewrite Z.div_1_r.
  - reflexivity.
Qed.

Lemma find_none_forallb {A} (f : A -> bool) (l : list A) :
  forallb f l = true -> find (fun c => negb (f c)) l = None.
Proof.
  induction l as [|x l IH]; simpl; [reflexivity|].
  intros H. apply andb_prop in H as [Hx Hl]. rewrite Hx. simpl. auto.
Qed.

Lemma execute_ok (st : store) (name : string) (t : table) (k : query_kind)
    (c : cache) :
  serves st name t -> incl (columns_named k) bar_columns ->
  execute st k name c = (Ok t, c, [OnTable k name]).
Proof.
  intros (_ & B & F & Fa & Co) I. unfold execute, bind, log.
  rewrite B, F, Fa.
  assert (N : find (fun c => negb (has_column t c)) (columns_named k) = None).
  { apply find_none_forallb. rewrite forallb_forall in *. auto. }
  rewrite N. reflexivity.
Qed.

Lemma bind_integer_ok (z : Z) (c : cache) :
  Sql.int64 z = true -> bind_integer z c = (Ok tt, c, []).
Proof. intros H. unfold bind_integer. now rewrite H. Qed.

(** On a serving store the aggregator returns the grouped rows as
    dictionaries. *)
Lemma aggregate_ok (st : store) (name timeframe : string) (t : table) (m : Z)
    (start_date end_date : option string) (limit : Z) (c : cache) :
  serves st name t -> dict_get timeframe intervals = Some m ->
  Sql.int64 limit = true ->
  aggregate_timeframe_data st name timeframe start_date end_date limit c =
  (Ok (map aggregated_point
         (grouped_select (period_of m) (date_conditions start_date end_date)
            limit (rows t))),
   c, [OnTable (aggregation_kind m) name]).
Proof.
  intros S D B. unfold aggregate_timeframe_data. rewrite D.
  pose proof S as (Cn & _).
  eapply bind_ok.
  - unfold get_connection. rewrite Cn. eapply bind_ok.
    + apply (execute_ok st name t); [exact S|].
      destruct (m =? 1440); apply incl_refl.
    + eapply bind_ok; [now apply bind_integer_ok | reflexivity | reflexivity].
    + reflexivity.
  - reflexivity.
  - unfold aggregation_kind. destruct (m =? 1440); reflexivity.
Qed.

End AggFacts.

Module GroupFacts.
Import Store Exec Query App Statements ProofTools OrderFacts AggFacts.

Lemma firstn_in {A} (n : nat) (l : list A) (x : A) :
  In x (firstn n l) -> In x l.
Proof.
  revert l. induction n as [|n IH]; intros [|y l]; simpl; try tauto.
  intros [H|H]; auto.
Qed.

Lemma limit_incl {A} (n : Z) (l : list A) (x : A) :
  In x (Sql.limit n l) -> In x l.
Proof.
  unfold Sql.limit. destruct (n <? 0); [auto|]. apply firstn_in.
Qed.

Lemma limit_all {A} (n : Z) (l : list A) :
  n < 0 \/ Z.of_nat (List.length l) <= n -> Sql.limit n l = l.
Proof.
  unfold Sql.limit. intros [H|H].
  - destruct (Z.ltb_spec n 0); [reflexivity | lia].
  - destruct (Z.ltb_spec n 0); [reflexivity|]. apply firstn_all2. lia.
Qed.

Lemma insert_key_length (k : Sql.text) (l : list Sql.text) :
  (List.length (insert_key k l) <= S (List.length l))%nat.
Proof.
  induction l as [|x l IH]; simpl; [lia|].
  destruct (text_compare k x); simpl; lia.
Qed.

Lemma group_keys_length (l : list Sql.text) :
  (List.length (group_keys l) <= List.length l)%nat.
Proof.
  induction l as [|x l IH]; simpl; [lia|].
  pose proof (insert_key_length x (group_keys l)). lia.
Qed.

Lemma grouped_periods (P : Sql.text -> Sql.text) (conds : list condition)
    (limit : Z) (rows : list bar_row) :
  map period (grouped_select P conds limit rows) =
  Sql.limit limit (keys_of P (filter (where_clause conds) rows)).
Proof.
  unfold grouped_select, keys_of, Sql.limit.
  destruct (limit <? 0).
  - rewrite map_map. cbn [period aggregate_group]. apply map_id.
  - rewrite <- firstn_map, map_map. cbn [period aggregate_group].
    now rewrite map_id.
Qed.

Lemma grouped_select_in (P : Sql.text -> Sql.text) (conds : list condition)
    (limit : Z) (rows : list bar_row) (g : agg_row) :
  In g (grouped_select P conds limit rows) ->
  let cte := filter (where_clause conds) rows in
  In (period g) (keys_of P cte) /\
  g = aggregate_group (period g) (partition_of P (period g) cte).
Proof.
  unfold grouped_select. intros H. apply limit_incl in H.
  apply in_map_iff in H as (k & <- & Hk). cbn [period aggregate_group].
  split; [exact Hk | reflexivity].
Qed.

Lemma key_has_row (P : Sql.text -> Sql.text) (cte : list bar_row) (k : Sql.text) :
  In k (keys_of P cte) <-> exists r, In r cte /\ P (bar_end_datetime r) = k.
Proof.
  unfold keys_of. rewrite group_keys_in, in_map_iff.
  split; intros (r & H1 & H2); exists r; tauto.
Qed.

Lemma partition_in (P : Sql.text -> Sql.text) (k : Sql.text)
    (cte : list bar_row) (r : bar_row) :
  In r (partition_of P k cte) <-> In r cte /\ P (bar_end_datetime r) = k.
Proof.
  unfold partition_of. rewrite filter_In, text_eqb_eq. tauto.
Qed.

Lemma partition_nonempty (P : Sql.text -> Sql.text) (cte : list bar_row)
    (k : Sql.text) :
  In k (keys_of P cte) -> partition_of P k cte <> [].
Proof.
  intros H. apply key_has_row in H as (r & H1 & H2).
  assert (I : In r (partition_of P k cte)) by (apply partition_in; tauto).
  intros E. rewrite E in I. contradiction.
Qed.

(** The open of a group is the open of a row no later than any other. *)
Lemma group_open (k : Sql.text) (part : list bar_row) :
  part <> [] ->
  exists first, In first part /\
    (forall r, In r part ->
       text_leb (bar_end_datetime first) (bar_end_datetime r) = true) /\
    r_open_price (aggregate_group k part) = open_price first.
Proof.
  intros N. cbn [aggregate_group r_open_price]. rewrite avg_first_row.
  destruct (sort_by ts_asc part) as [|x r] eqn:E.
  - apply sort_by_nil in E. contradiction.
  - destruct (sort_by_head ts_asc ts_asc_total ts_asc_trans part x r E) as [I B].
    exists x. repeat split; [assumption | exact B].
Qed.

Lemma group_close (k : Sql.text) (part : list bar_row) :
  part <> [] ->
  exists last, In last part /\
    (forall r, In r part ->
       text_leb (bar_end_datetime r) (bar_end_datetime last) = true) /\
    r_close_price (aggregate_group k part) = close_price last.
Proof.
  intros N. cbn [aggregate_group r_close_price]. rewrite avg_first_row.
  destruct (sort_by ts_desc part) as [|x r] eqn:E.
  - apply sort_by_nil in E. contradiction.
  - destruct (sort_by_head ts_desc ts_desc_total ts_desc_trans part x r E) as [I B].
    exists x. repeat split; [assumption | exact B].
Qed.

End GroupFacts.

(* ================================================================== *)
(** * Facts about the timestamps as they are written                   *)
(* ================================================================== *)

Module StampFacts.
Import Text TextFacts Store Query App Statements ProofTools OrderFacts
       PeriodFacts GroupFacts.

Lemma skip_digits_app (d rest : string) :
  Py.all_chars is_digit d = true ->
  match rest with
  | String c _ => is_digit c = false
  | EmptyString => True
  end ->
  skip_digits (d ++ rest) = rest.
Proof.
  intros D R. induction d as [|c d IH].
  - cbn [append]. destruct rest as [|c r]; [reflexivity|].
    cbn [skip_digits]. unfold is_digit in R.
    destruct (digit_val c); [discriminate R | reflexivity].
  - cbn [Py.all_chars] in D. apply andb_prop in D as [Dc Dd].
    cbn [append skip_digits]. unfold is_digit in Dc.
    destruct (digit_val c); [now apply IH | discriminate Dc].
Qed.

Lemma skip_fraction_zone (frac zone : string) :
  fraction frac -> zone_suffix zone ->
  skip_fraction (frac ++ zone) = Some zone.
Proof.
  intros [->|(d & N & _ & D & ->)] Z.
  - cbn [append]. destruct Z as [->|[->| ->]]; reflexivity.
  - destruct d as [|c d]; [contradiction|].
    cbn [Py.all_chars] in D. apply andb_prop in D as [Dc Dd].
    cbn [append skip_fraction Ascii.eqb Bool.eqb]. unfold is_digit in Dc.
    destruct (digit_val c); [|discriminate Dc].
    f_equal. apply skip_digits_app; [exact Dd|].
    destruct Z as [->|[->| ->]]; [exact I | reflexivity | reflexivity].
Qed.

Lemma parse_hm_fmt (h mi : Z) (zone : string) :
  0 <= h <= 99 -> 0 <= mi <= 99 -> zone_suffix zone ->
  parse_hms (printf_0d 2 h ++ String ":" (printf_0d 2 mi ++ zone))
  = Some (h, mi, 0, zone).
Proof.
  intros Hh Hm Z. unfold parse_hms.
  rewrite get_digits_2 by lia. cbn [obind append expect Ascii.eqb Bool.eqb].
  rewrite get_digits_2 by lia. cbn [obind].
  destruct Z as [->|[->| ->]]; reflexivity.
Qed.

Lemma skip_zulu_zone (zone : string) :
  zone_suffix zone -> skip_zulu zone = "".
Proof. intros [->|[->| ->]]; reflexivity. Qed.

Lemma separator_read (sep : ascii) :
  separator sep -> Ascii.eqb sep " " || Ascii.eqb sep "T" = true.
Proof. intros [->| ->]; reflexivity. Qed.

(** The model reads every text of a time value as that time value. *)
Lemma parse_written (T : string) (tv : time_value) :
  written T tv -> parse_time_value T = Some tv.
Proof.
  intros [V [(-> & Eh & Em & Es)|[(sep & zone & S & Z & Es & ->)
                                  |(sep & frac & zone & S & F & _ & Z & ->)]]].
  - rewrite parse_fmt_date by assumption. unfold midnight.
    destruct tv; cbn [year month day hour minute second] in *. now subst.
  - pose proof (valid_fields tv V) as B.
    unfold parse_time_value. rewrite parse_ymd_fmt by assumption.
    cbn [obind]. rewrite (separator_read sep S). unfold fmt_hm.
    rewrite append_assoc. cbn [append].
    rewrite parse_hm_fmt by (assumption || lia). cbn [obind].
    rewrite skip_zulu_zone by assumption.
    destruct tv; cbn [year month day hour minute second] in *. subst.
    cbn [obind]. now rewrite V.
  - pose proof (valid_fields tv V) as B.
    unfold parse_time_value. rewrite parse_ymd_fmt by assumption.
    cbn [obind]. rewrite (separator_read sep S). unfold fmt_hms, fmt_hm.
    rewrite !append_assoc. cbn [append].
    rewrite parse_hms_fmt by lia.
    rewrite skip_fraction_zone by assumption. cbn [obind].
    rewrite skip_zulu_zone by assumption.
    destruct tv; cbn [year month day hour minute second] in *.
    cbn [obind]. now rewrite V.
Qed.

Lemma written_once (T : string) (tv tv' : time_value) :
  written T tv -> written T tv' -> tv = tv'.
Proof.
  intros W W'. apply parse_written in W, W'. congruence.
Qed.



(** On timestamps as they are written, the key the query computes is the
    start of the bucket of the time. *)
Lemma written_key (m : Z) (T : string) (tv : time_value) :
  0 < m -> written T tv -> period_of m (Some T) = bucket_key m (Some tv).
Proof.
  intros Hm W. apply parse_written in W.
  unfold period_of, bucket_key. cbn [option_map]. destruct (m =? 1440).
  - now apply period_daily_parse.
  - now apply period_minutes_parse.
Qed.

Lemma timed_key (m : Z) (time : bar_row -> option time_value)
    (bars : list bar_row) (r : bar_row) :
  0 < m -> timed time bars -> In r bars ->
  period_of m (bar_end_datetime r) = bucket_key m (time r).
Proof.
  intros Hm Tm Hr. specialize (Tm r Hr).
  destruct (bar_end_datetime r) as [T|].
  - destruct Tm as (tv & -> & W). now apply written_key.
  - rewrite Tm. unfold period_of, bucket_key. cbn [option_map].
    destruct (m =? 1440); reflexivity.
Qed.

Lemma timed_bucket (m : Z) (time : bar_row -> option time_value)
    (bars : list bar_row) (k : Sql.text) :
  0 < m -> timed time bars ->
  partition_of (period_of m) k bars = bucket m time k bars.
Proof.
  intros Hm Tm. unfold partition_of, bucket. apply filter_ext_in.
  intros r Hr. now rewrite (timed_key m time bars r).
Qed.

Lemma timed_keys (m : Z) (time : bar_row -> option time_value)
    (bars : list bar_row) (k : Sql.text) :
  0 < m -> timed time bars ->
  (In k (keys_of (period_of m) bars)
   <-> exists r, In r bars /\ k = bucket_key m (time r)).
Proof.
  intros Hm Tm. rewrite key_has_row. split.
  - intros (r & Hr & E). exists r. split; [exact Hr|].
    now rewrite <- (timed_key m time bars r).
  - intros (r & Hr & ->). exists r. split; [exact Hr|].
    now apply (timed_key m time bars).
Qed.

Lemma in_bucket (m : Z) (time : bar_row -> option time_value)
    (k : Sql.text) (bars : list bar_row) (r : bar_row) :
  In r (bucket m time k bars) <-> In r bars /\ bucket_key m (time r) = k.
Proof. unfold bucket. rewrite filter_In, text_eqb_eq. tauto. Qed.

End StampFacts.

(* ================================================================== *)
(** * The timeframe aggregator                                         *)
(* ================================================================== *)

Module Aggregator.
Import Text TextFacts Store Exec Query App Statements ProofTools OrderFacts
       AggFacts GroupFacts PeriodFacts StampFacts.

Lemma data_datetimes (G : list agg_row) :
  map Point.datetime (map aggregated_point G) = map period G.
Proof. rewrite map_map. reflexivity. Qed.

Lemma keys_length (P : Sql.text -> Sql.text) (conds : list condition)
    (rows : list bar_row) :
  (List.length (keys_of P (filter (where_clause conds) rows))
   <= List.length rows)%nat.
Proof.
  unfold keys_of.
  pose proof (group_keys_length
                (map (fun r => P (bar_end_datetime r))
                   (filter (where_clause conds) rows))) as H.
  rewrite length_map in H.
  pose proof (filter_length_le (where_clause conds) rows). lia.
Qed.

Lemma sub_daily_facts (m : Z) :
  In m [1; 5; 15; 30; 60; 120; 240] ->
  0 < m /\ (m =? 1440) = false.
Proof.
  simpl. intros H.
  repeat (destruct H as [<-|H]; [split; [lia | reflexivity]|]). contradiction.
Qed.

Lemma sorted_firstn {A} (R : A -> A -> Prop) (n : nat) (l : list A) :
  Sorted R l -> Sorted R (firstn n l).
Proof.
  revert l. induction n as [|n IH]; intros [|x l] S; simpl; try constructor.
  - inversion S; auto.
  - inversion S as [|? ? _ Hd]; subst.
    destruct n, l; simpl; constructor. now inversion Hd.
Qed.

Lemma sorted_limit (n : Z) (l : list Sql.text) :
  Sorted text_lt l -> Sorted text_lt (Sql.limit n l).
Proof.
  unfold Sql.limit. destruct (n <? 0); [auto | apply sorted_firstn].
Qed.

Lemma limit_limit {A} (n L : Z) (l : list A) :
  0 <= n <= L -> Sql.limit n l = firstn (Z.to_nat n) (Sql.limit L l).
Proof.
  intros H. unfold Sql.limit.
  destruct (Z.ltb_spec n 0); [lia|]. destruct (Z.ltb_spec L 0); [lia|].
  rewrite firstn_firstn. f_equal. lia.
Qed.

(** The output bars start at the keys of the grouped SELECT, no two
    alike. *)
Lemma data_keys (m : Z) (conds : list condition) (limit : Z)
    (rows : list bar_row) :
  map Point.datetime
    (map aggregated_point (grouped_select (period_of m) conds limit rows))
  = Sql.limit limit (keys_of (period_of m) (filter (where_clause conds) rows)).
Proof. rewrite data_datetimes. apply grouped_periods. Qed.

Lemma data_distinct (m : Z) (conds : list condition) (limit : Z)
    (rows : list bar_row) :
  NoDup (map Point.datetime
           (map aggregated_point
              (grouped_select (period_of m) conds limit rows))).
Proof.
  rewrite data_keys. apply sorted_nodup, sorted_limit, group_keys_sorted.
Qed.

(** An output bar counts the bars of the bucket it starts. *)
Lemma data_counts (m : Z) (time : bar_row -> option time_value)
    (start_date end_date : option string) (limit : Z) (t : table)
    (p : Point.t) :
  0 < m ->
  timed time (bars_in_range start_date end_date t) ->
  In p (map aggregated_point
          (grouped_select (period_of m)
             (date_conditions start_date end_date) limit (rows t))) ->
  Point.bar_count p
  = Some (Z.of_nat
            (List.length
               (bucket m time (Point.datetime p)
                  (bars_in_range start_date end_date t)))).
Proof.
  intros Hm Tm Hp. apply in_map_iff in Hp as (g & <- & Hg).
  apply grouped_select_in in Hg. cbv zeta in Hg. destruct Hg as [_ Eg].
  cbn [aggregated_point Point.datetime Point.bar_count].
  rewrite Eg at 1. cbn [aggregate_group r_bar_count].
  fold (bars_in_range start_date end_date t).
  now rewrite (timed_bucket m time).
Qed.

(** C1. On a store serving the table, for a sub-daily interval [m] of the
    supported set, with the timestamps in range written as times and
    volumes that fit: a bar in range whose timestamp [T] is a text of the
    time [tv] has for key [tv] cut to the hour plus
    [floor(minute / m) * m] minutes, a function of the time alone; the
    aggregator returns; no two output bars start alike; every output bar
    counts the bars of the bucket it starts, and the bar is of that bucket
    exactly when the output bar starts at the key of the bar; and when
    LIMIT does not cut, an output bar starts there.  So the sample bars of
    10:14:59 and 10:15:00 give, for 15 minutes, the output bars of 10:00
    and of 10:15, of one bar each. *)
Theorem C1_calendar_aligned_bucket
    (st : store) (name timeframe : string) (t : table) (m : Z)
    (start_date end_date : option string) (limit : Z) (c : cache)
    (time : bar_row -> option time_value)
    (r : bar_row) (T : string) (tv : time_value) :
  serves st name t ->
  dict_get timeframe intervals = Some m ->
  In m [1; 5; 15; 30; 60; 120; 240] ->
  Sql.int64 limit = true ->
  volumes_fit (bars_in_range start_date end_date t) ->
  timed time (bars_in_range start_date end_date t) ->
  In r (bars_in_range start_date end_date t) ->
  bar_end_datetime r = Some T ->
  written T tv ->
  let bars := bars_in_range start_date end_date t in
  let start := Some (fmt_datetime (bucket_start m tv)) in
  period_of m (Some T) = start /\
  (exists data,
     aggregate_timeframe_data st name timeframe start_date end_date limit c
     = (Ok data, c, [OnTable (Minutes m) name]) /\
     NoDup (map Point.datetime data) /\
     (forall p, In p data ->
        Point.bar_count p
        = Some (Z.of_nat
                  (List.length (bucket m time (Point.datetime p) bars))) /\
        (In r (bucket m time (Point.datetime p) bars)
         <-> Point.datetime p = start)) /\
     (limit < 0 \/ Z.of_nat (List.length (rows t)) <= limit ->
      exists p, In p data /\ Point.datetime p = start)) /\
  map bar_end_datetime (rows Samples.quarter_table)
  = [Some "2024-01-01 10:14:59"; Some "2024-01-01 10:15:00"] /\
  aggregate_timeframe_data Samples.quarter_store "es_bars" "15min" None None
    50000 None
  = (Ok [Point.mk (Some "2024-01-01 10:00:00") 10 12 9 11 5 (Some 1);
         Point.mk (Some "2024-01-01 10:15:00") 11 13 10 12 7 (Some 1)],
     None, [OnTable (Minutes 15) "es_bars"]).
Proof.
  intros S D M B _ Tm I Ts W bars start.
  destruct (sub_daily_facts m M) as [Hm N].
  assert (K : period_of m (Some T) = start).
  { rewrite (written_key m T tv Hm W). unfold bucket_key, start.
    cbn [option_map]. now rewrite N. }
  assert (Kr : bucket_key m (time r) = start).
  { rewrite <- (timed_key m time bars r Hm Tm I), Ts. exact K. }
  split; [exact K|].
  split; [|split; [reflexivity | vm_compute; reflexivity]].
  eexists. split.
  { rewrite (aggregate_ok st name timeframe t m) by assumption.
    unfold aggregation_kind. rewrite N. reflexivity. }
  split; [apply data_distinct|]. split.
  - intros p Hp. split; [now apply (data_counts m time start_date end_date limit t)|].
    rewrite in_bucket, Kr.
    split; [intros [_ E]; now symmetry | intros E; split; [exact I | now symmetry]].
  - intros NoCut.
    assert (Hk : In start (map Point.datetime
                   (map aggregated_point
                      (grouped_select (period_of m)
                         (date_conditions start_date end_date) limit (rows t))))).
    { rewrite data_keys, limit_all.
      - apply key_has_row. exists r. split; [exact I | now rewrite Ts].
      - destruct NoCut as [H|H]; [now left | right].
        pose proof (keys_length (period_of m)
                      (date_conditions start_date end_date) (rows t)). lia. }
    apply in_map_iff in Hk as (p & E & Hp). exists p. tauto.
Qed.



(** C3. For the daily timeframe on a store serving the table, with the
    timestamps in range written as times and volumes that fit, when LIMIT
    does not cut: the output bars start at the calendar dates of the bars
    in range, written [YYYY-MM-DD], one bar for each date and none twice;
    every output bar counts the bars of its date; and two bars in range are
    folded into one output bar exactly when their times have the same
    year, month and day, whatever the time of day.  So the sample bars of
    2024-01-01 23:58 and 2024-01-02 00:02 give two daily bars, of one bar
    each. *)
Theorem C3_daily_bucket_per_date
    (st : store) (name : string) (t : table)
    (start_date end_date : option string) (limit : Z) (c : cache)
    (time : bar_row -> option time_value) :
  serves st name t ->
  Sql.int64 limit = true ->
  limit < 0 \/ Z.of_nat (List.length (rows t)) <= limit ->
  volumes_fit (bars_in_range start_date end_date t) ->
  timed time (bars_in_range start_date end_date t) ->
  let bars := bars_in_range start_date end_date t in
  (exists data,
     aggregate_timeframe_data st name "1day" start_date end_date limit c
     = (Ok data, c, [OnTable Daily name]) /\
     NoDup (map Point.datetime data) /\
     (forall key,
        In key (map Point.datetime data) <->
        exists r, In r bars /\ key = option_map fmt_date (time r)) /\
     (forall p, In p data ->
        Point.bar_count p
        = Some (Z.of_nat
                  (List.length (bucket 1440 time (Point.datetime p) bars)))) /\
     (forall r r' tv tv',
        In r bars -> In r' bars -> time r = Some tv -> time r' = Some tv' ->
        ((exists p, In p data /\
                    In r (bucket 1440 time (Point.datetime p) bars) /\
                    In r' (bucket 1440 time (Point.datetime p) bars))
         <-> year tv = year tv' /\ month tv = month tv' /\ day tv = day tv'))) /\
  map bar_end_datetime (rows Samples.midnight_table)
  = [Some "2024-01-01 23:58:00"; Some "2024-01-02 00:02:00"] /\
  aggregate_timeframe_data Samples.midnight_store "es_bars" "1day" None None
    50000 None
  = (Ok [Point.mk (Some "2024-01-01") 10 12 9 11 5 (Some 1);
         Point.mk (Some "2024-01-02") 11 13 10 12 7 (Some 1)],
     None, [OnTable Daily "es_bars"]).
Proof.
  intros S B NoCut _ Tm bars.
  assert (Hm : 0 < 1440) by lia.
  assert (All : Sql.limit limit
                  (keys_of (period_of 1440)
                     (filter (where_clause (date_conditions start_date end_date))
                        (rows t)))
                = keys_of (period_of 1440) bars).
  { unfold bars, bars_in_range.
    apply limit_all. destruct NoCut as [H|H]; [now left | right].
    pose proof (keys_length (period_of 1440)
                  (date_conditions start_date end_date) (rows t)). lia. }
  assert (Keys : forall key,
            In key (map Point.datetime
                      (map aggregated_point
                         (grouped_select (period_of 1440)
                            (date_conditions start_date end_date) limit
                            (rows t))))
            <-> exists r, In r bars /\ key = option_map fmt_date (time r)).
  { intros key. rewrite data_keys, All.
    apply (timed_keys 1440 time bars key Hm Tm). }
  assert (Valid : forall r tv, In r bars -> time r = Some tv ->
                               valid_time_value tv = true).
  { intros r tv Hr E. specialize (Tm r Hr).
    destruct (bar_end_datetime r) as [T|]; [|congruence].
    destruct Tm as (tv0 & E0 & W). rewrite E in E0. injection E0 as <-.
    exact (proj1 W). }
  split; [|split; [reflexivity | vm_compute; reflexivity]].
  eexists. split.
  { now rewrite (aggregate_ok st name "1day" t 1440). }
  split; [apply data_distinct|].
  split; [exact Keys|].
  split; [intros p Hp; now apply (data_counts 1440 time start_date end_date limit t)|].
  intros r r' tv tv' Hr Hr' E E'.
  rewrite <- (fmt_date_same tv tv' (Valid r tv Hr E) (Valid r' tv' Hr' E')).
  split.
  - intros (p & _ & I & I'). apply in_bucket in I as [_ I], I' as [_ I'].
    rewrite E in I. rewrite E' in I'. rewrite <- I' in I.
    cbn in I. now injection I.
  - intros F.
    assert (Hk : In (Some (fmt_date tv))
                   (map Point.datetime
                      (map aggregated_point
                         (grouped_select (period_of 1440)
                            (date_conditions start_date end_date) limit
                            (rows t))))).
    { apply Keys. exists r. split; [exact Hr | now rewrite E]. }
    apply in_map_iff in Hk as (p & Ep & Hp). exists p.
    split; [exact Hp|]. rewrite !in_bucket, E, E', Ep. cbn.
    repeat split; try assumption. now rewrite F.
Qed.

(** The order of the bucket starts as texts is their order in time. *)
Lemma bucket_key_order (m : Z) (a b : time_value) :
  0 < m -> valid_time_value a = true -> valid_time_value b = true ->
  text_compare (bucket_key m (Some a)) (bucket_key m (Some b))
  = chrono_compare (bucket_time m a) (bucket_time m b).
Proof.
  intros Hm Va Vb. unfold bucket_key, bucket_time. cbn [option_map text_compare].
  destruct (m =? 1440).
  - now apply fmt_date_order.
  - apply fmt_datetime_order; now apply valid_bucket_start.
Qed.

(** C5. On a store serving the table, for a supported timeframe and a
    limit that is not negative, with the timestamps in range written as
    times and volumes that fit: let [keys] be the bucket starts of the bars
    in range, each once, in ascending order, which for the starts of
    buckets is the order of time; the output bars start at the first
    [limit] of them, in that order, each counting the bars of its bucket;
    and when there are more than [limit] buckets the output has exactly
    [limit] bars.  So of the ten sample bars in ten hours, which give ten
    buckets, limit 3 returns the bars of the first three hours. *)
Theorem C5_limit_keeps_first_buckets
    (st : store) (name timeframe : string) (t : table) (m : Z)
    (start_date end_date : option string) (limit : Z) (c : cache)
    (time : bar_row -> option time_value) :
  serves st name t ->
  dict_get timeframe intervals = Some m ->
  0 <= limit ->
  Sql.int64 limit = true ->
  volumes_fit (bars_in_range start_date end_date t) ->
  timed time (bars_in_range start_date end_date t) ->
  let bars := bars_in_range start_date end_date t in
  (exists data keys,
     aggregate_timeframe_data st name timeframe start_date end_date limit c
     = (Ok data, c, [OnTable (aggregation_kind m) name]) /\
     (forall k,
        In k keys <-> exists r, In r bars /\ k = bucket_key m (time r)) /\
     Sorted text_lt keys /\
     (forall a b, valid_time_value a = true -> valid_time_value b = true ->
        (text_lt (bucket_key m (Some a)) (bucket_key m (Some b))
         <-> chrono_compare (bucket_time m a) (bucket_time m b) = Lt)) /\
     map Point.datetime data = firstn (Z.to_nat limit) keys /\
     (forall p, In p data ->
        Point.bar_count p
        = Some (Z.of_nat
                  (List.length (bucket m time (Point.datetime p) bars)))) /\
     (limit < Z.of_nat (List.length keys) ->
      Z.of_nat (List.length data) = limit)) /\
  (exists all,
     aggregate_timeframe_data Samples.ten_store "cl_bars" "60min" None None
       50000 None
     = (Ok all, None, [OnTable (Minutes 60) "cl_bars"]) /\
     List.length all = 10%nat) /\
  aggregate_timeframe_data Samples.ten_store "cl_bars" "60min" None None 3 None
  = (Ok [Point.mk (Some "2024-05-06 08:00:00") 1 2 1 2 1 (Some 1);
         Point.mk (Some "2024-05-06 09:00:00") 2 3 2 3 1 (Some 1);
         Point.mk (Some "2024-05-06 10:00:00") 3 4 3 4 1 (Some 1)],
     None, [OnTable (Minutes 60) "cl_bars"]).
Proof.
  intros S D H B _ Tm bars. pose proof (intervals_positive timeframe m D) as Hm.
  split;
    [|split; [eexists; split; vm_compute; reflexivity | vm_compute; reflexivity]].
  exists (map aggregated_point
            (grouped_select (period_of m)
               (date_conditions start_date end_date) limit (rows t))),
         (keys_of (period_of m) bars).
  assert (E : map Point.datetime
                (map aggregated_point
                   (grouped_select (period_of m)
                      (date_conditions start_date end_date) limit (rows t)))
              = firstn (Z.to_nat limit) (keys_of (period_of m) bars)).
  { rewrite data_keys. unfold Sql.limit.
    destruct (Z.ltb_spec limit 0); [lia | reflexivity]. }
  split; [now apply (aggregate_ok st name timeframe t m)|].
  split; [intros k; now apply timed_keys|].
  split; [apply group_keys_sorted|].
  split.
  { intros a b Va Vb. unfold text_lt.
    now rewrite (bucket_key_order m a b Hm Va Vb). }
  split; [exact E|].
  split; [intros p Hp;
          now apply (data_counts m time start_date end_date limit t)|].
  intros Hl. rewrite <- (length_map Point.datetime), E, length_firstn. lia.
Qed.

Lemma partition_single (P : Sql.text -> Sql.text) (D : list Point.t)
    (p : Point.t) :
  NoDup (map Point.datetime D) ->
  (forall q, In q D -> P (Point.datetime q) = Point.datetime q) ->
  In p D ->
  partition_of P (Point.datetime p) (map reconstruct D) = [reconstruct p].
Proof.
  unfold partition_of. induction D as [|q D IH]; intros N F I; [contradiction|].
  inversion N as [|? ? Nq ND]; subst. cbn [map filter bar_end_datetime reconstruct].
  rewrite (F q (or_introl eq_refl)).
  assert (Rest : forall k, ~ In k (map Point.datetime D) ->
            filter (fun r => text_eqb (P (bar_end_datetime r)) k)
              (map reconstruct D) = []).
  { intros k Hk. clear IH N Nq ND I.
    induction D as [|d D IHD]; [reflexivity|].
    cbn [map filter bar_end_datetime reconstruct].
    rewrite (F d (or_intror (or_introl eq_refl))).
    destruct (text_eqb (Point.datetime d) k) eqn:E.
    - apply text_eqb_eq in E. exfalso. apply Hk. now left.
    - apply IHD.
      + intros x [Hx|Hx]; apply F; [now left | now right; right].
      + intros Hin. apply Hk. now right. }
  destruct I as [->|I].
  - assert (E : text_eqb (Point.datetime p) (Point.datetime p) = true)
      by (now apply text_eqb_eq).
    rewrite E. f_equal. now apply Rest.
  - destruct (text_eqb (Point.datetime q) (Point.datetime p)) eqn:E.
    + apply text_eqb_eq in E. exfalso. apply Nq. rewrite E.
      now apply in_map.
    + apply IH; [assumption | | assumption].
      intros x Hx. apply F. now right.
Qed.

Lemma regroup_single (k : Sql.text) (p : Point.t) :
  ohlcv (aggregated_point (aggregate_group k [reconstruct p]))
  = (k, Point.open p, Point.high p, Point.low p, Point.close p, Point.volume p).
Proof.
  unfold ohlcv. cbn [aggregated_point Point.datetime Point.open Point.high
    Point.low Point.close Point.volume period aggregate_group r_open_price
    r_high_price r_low_price r_close_price r_volume].
  rewrite !avg_first_row. reflexivity.
Qed.

(** Aggregating reconstructed bars whose timestamps are distinct bucket
    keys in ascending order gives the same bars back. *)
Lemma regroup (P : Sql.text -> Sql.text) (limit : Z) (D : list Point.t) :
  Sorted text_lt (map Point.datetime D) ->
  (forall q, In q D -> P (Point.datetime q) = Point.datetime q) ->
  limit < 0 \/ Z.of_nat (List.length D) <= limit ->
  map ohlcv (map aggregated_point (grouped_select P [] limit (map reconstruct D)))
  = map ohlcv D.
Proof.
  intros S F Len. unfold grouped_select.
  assert (W : filter (where_clause []) (map reconstruct D) = map reconstruct D).
  { apply forallb_filter_id. apply forallb_forall. reflexivity. }
  rewrite W.
  assert (K : group_keys (map (fun r => P (bar_end_datetime r)) (map reconstruct D))
              = map Point.datetime D).
  { rewrite map_map. cbn [bar_end_datetime reconstruct].
    rewrite (map_ext_in _ Point.datetime) by exact F.
    now apply group_keys_fixed. }
  rewrite K, limit_all by (now rewrite !length_map).
  rewrite !map_map. apply map_ext_in. intros p Hp.
  rewrite (partition_single P D p); [| now apply sorted_nodup | assumption | assumption].
  apply regroup_single.
Qed.

(** C9. On a store serving the table, for a supported timeframe: let
    [data] be the aggregator's output; on any store serving a table whose
    rows are the reconstructed bars of [data], aggregating again at the
    same timeframe and limit, with no date bounds, returns bars with the
    same bucket starts and the same open, high, low, close and volume. *)
Theorem C9_aggregation_idempotent
    (st : store) (name timeframe : string) (t : table) (m : Z)
    (start_date end_date : option string) (limit : Z) (c c1 : cache)
    (lg : list statement) (data : list Point.t)
    (st' : store) (name' : string) (t' : table) (c' : cache) :
  serves st name t ->
  dict_get timeframe intervals = Some m ->
  Sql.int64 limit = true ->
  aggregate_timeframe_data st name timeframe start_date end_date limit c
  = (Ok data, c1, lg) ->
  serves st' name' t' ->
  rows t' = map reconstruct data ->
  exists data',
    aggregate_timeframe_data st' name' timeframe None None limit c'
    = (Ok data', c', [OnTable (aggregation_kind m) name']) /\
    map ohlcv data' = map ohlcv data.
Proof.
  intros S D B A S' R.
  rewrite (aggregate_ok st name timeframe t m) in A by assumption.
  injection A as A _ _.
  eexists. split; [now apply (aggregate_ok st' name' timeframe t' m)|].
  rewrite R. change (date_conditions None None) with (@nil condition).
  pose proof (intervals_positive timeframe m D) as Hm.
  assert (Dt : map Point.datetime data
               = Sql.limit limit
                   (keys_of (period_of m) (bars_in_range start_date end_date t))).
  { rewrite <- A, data_datetimes. apply grouped_periods. }
  apply regroup.
  - rewrite Dt. apply sorted_limit, group_keys_sorted.
  - intros q Hq. assert (Hk : In (Point.datetime q) (map Point.datetime data))
      by (now apply in_map).
    rewrite Dt in Hk. apply limit_incl, key_has_row in Hk as (r & _ & <-).
    now apply period_of_again.
  - destruct (Z.ltb_spec limit 0) as [Hl|Hl]; [now left | right].
    rewrite <- (length_map Point.datetime), Dt. unfold Sql.limit.
    destruct (Z.ltb_spec limit 0); [lia|].
    pose proof (firstn_le_length (Z.to_nat limit)
                  (keys_of (period_of m) (bars_in_range start_date end_date t))).
    lia.
Qed.

End Aggregator.

(* ================================================================== *)
(** * The table catalog                                                *)
(* ================================================================== *)

Module Catalog.
Import Store Exec Query App Statements ProofTools OrderFacts.

(** A handler that returns is returned by the decorator as it is. *)
Lemma handle_ok (f : exec response) (c c' : cache) (r : response)
    (lg : list statement) :
  f c = (Ok r, c', lg) -> handle_db_errors f c = (Ok r, c', lg).
Proof.
  intros E. unfold handle_db_errors.
  change (Z.to_nat max_retries) with 3%nat. cbn [retry_loop].
  unfold try_except. now rewrite E.
Qed.

Section Facts.
Variable upper : string -> string.
Variable isoformat_date : string -> option string.

Lemma scan_unconnected (st : store) (e : exn) (c : cache) :
  connect_error st = Some e ->
  scan_catalog upper isoformat_date st c = (Ok [], c, []).
Proof.
  intros E. unfold scan_catalog, try_except, get_connection. rewrite E.
  reflexivity.
Qed.

Lemma instruments_cached (st : store) (v : list descriptor) :
  get_instruments upper isoformat_date st (Some v)
  = (Ok (mk_response 200 (JsonInstruments v) None), Some v, []).
Proof.
  unfold get_instruments. apply handle_ok. reflexivity.
Qed.

Lemma responses_cached (later : list store) (v : list descriptor) :
  Forall (fun o => o = Ok (mk_response 200 (JsonInstruments v) None))
    (instruments_responses upper isoformat_date later (Some v)).
Proof.
  induction later as [|st later IH]; cbn [instruments_responses]; [constructor|].
  rewrite instruments_cached. now constructor.
Qed.

End Facts.

(** C10. When the connection cannot be obtained on the first scan, the
    scan returns the empty tuple and caches it: the request answers 200
    with an empty list, and so does every later request, whatever the
    store then holds, as long as the cache is kept. *)
Theorem C10_failed_scan_cached_empty
    (upper : string -> string) (isoformat_date : string -> option string)
    (st : store) (e : exn) (later : list store) :
  connect_error st = Some e ->
  detect_trading_tables upper isoformat_date st None = (Ok [], Some [], []) /\
  get_instruments upper isoformat_date st None
  = (Ok empty_listing, Some [], []) /\
  Forall (fun o => o = Ok empty_listing)
    (instruments_responses upper isoformat_date (st :: later) None).
Proof.
  intros E.
  assert (D : detect_trading_tables upper isoformat_date st None
              = (Ok [], Some [], [])).
  { unfold detect_trading_tables. now rewrite (scan_unconnected _ _ st e). }
  assert (G : get_instruments upper isoformat_date st None
              = (Ok empty_listing, Some [], [])).
  { unfold get_instruments. apply handle_ok.
    unfold get_instruments_view, bind. now rewrite D. }
  repeat split; try assumption.
  cbn [instruments_responses]. rewrite G. constructor; [reflexivity|].
  apply responses_cached.
Qed.

(** ** Which tables the scan lists *)

Lemma has_required_iff (t : table) :
  has_required t = true <->
  forall col, In col required_columns -> In col (map Py.lower (columns t)).
Proof.
  unfold has_required. rewrite forallb_forall. split; intros H col Hc.
  - specialize (H col Hc). apply existsb_exists in H as (x & Hx & E).
    apply String.eqb_eq in E. now subst.
  - apply existsb_exists. exists col. split; [auto | apply String.eqb_refl].
Qed.

Lemma find_table_unique (st : store) (t : table) :
  NoDup (map table_name (tables st)) -> In t (tables st) ->
  find_table st (table_name t) = Some t.
Proof.
  unfold find_table. induction (tables st) as [|x l IH]; intros N I;
    [contradiction|].
  inversion N as [|? ? Nx Nl]; subst. cbn [find].
  destruct I as [->|I].
  - now rewrite String.eqb_refl.
  - destruct (String.eqb_spec (table_name x) (table_name t)) as [E|_].
    + exfalso. apply Nx. rewrite E. now apply in_map.
    + auto.
Qed.

Lemma find_table_name (st : store) (n : string) (t : table) :
  find_table st n = Some t -> table_name t = n /\ In t (tables st).
Proof.
  unfold find_table. intros H. apply find_some in H as [I E].
  apply String.eqb_eq in E. tauto.
Qed.

Section Listing.
Variable upper : string -> string.
Variable isoformat_date : string -> option string.

Lemma inspect_step (st : store) (n : string) (c : cache) :
  exists r lg,
    try_except (inspect_table upper isoformat_date st n) is_sqlite_error
      (fun _ => ret None) c = (Ok r, c, lg) /\
    match r with
    | Some d => d_table_name d = n /\ listed st n
    | None => ~ listed st n
    end.
Proof.
  unfold try_except, inspect_table, pragma_table_info, bind at 1, bind at 1, log.
  destruct (Py.contains "]" n) eqn:B.
  { cbn. eexists _, _. split; [reflexivity|].
    intros (t & _ & B' & _). congruence. }
  destruct (find_table st n) as [t|] eqn:F.
  2:{ cbn. eexists _, _. split; [reflexivity|].
      intros (t & F' & _). congruence. }
  destruct (fault t) as [msg|] eqn:Fa.
  { cbn. eexists _, _. split; [reflexivity|].
    intros (t' & F' & _ & Fa' & _). congruence. }
  unfold ret at 1. cbn iota beta.
  fold (has_required t).
  destruct (has_required t) eqn:R; cbn [negb].
  2:{ cbn. eexists _, _. split; [reflexivity|].
      intros (t' & F' & _ & _ & R' & _). congruence. }
  unfold bind at 1, execute, bind at 1, log. rewrite B, F, Fa.
  assert (Hc : has_column t "bar_end_datetime" = true).
  { unfold has_column. apply existsb_exists. exists "bar_end_datetime".
    split; [|reflexivity].
    apply has_required_iff; [assumption | now left]. }
  cbn [columns_named find]. rewrite Hc. cbn [negb ret].
  destruct (Z.eqb_spec (Z.of_nat (List.length (rows t))) 0) as [Z0|Z0].
  - cbn. eexists _, _. split; [reflexivity|].
    intros (t' & F' & _ & _ & _ & Nr). rewrite F in F'. injection F' as <-.
    destruct (rows t); [contradiction | discriminate].
  - cbn. eexists _, _. split; [reflexivity|]. split; [reflexivity|].
    exists t. repeat split; try assumption.
    intros E. rewrite E in Z0. contradiction.
Qed.

Lemma scan_tables_spec (st : store) (names : list string)
    (acc : list descriptor) (c : cache) :
  exists out lg,
    scan_tables upper isoformat_date st names acc c = (Ok out, c, lg) /\
    forall n, In n (map d_table_name out) <->
              In n (map d_table_name acc) \/ (In n names /\ listed st n).
Proof.
  revert acc. induction names as [|x names IH]; intros acc.
  - cbn. eexists _, _. split; [reflexivity|]. intros n. tauto.
  - cbn [scan_tables]. unfold bind at 1.
    destruct (inspect_step st x c) as (r & lg & E & Hr). rewrite E.
    destruct r as [d|].
    + destruct (IH (acc ++ [d])%list) as (out & lg' & E' & H). rewrite E'.
      eexists _, _. split; [reflexivity|]. intros n. rewrite H.
      rewrite map_app, in_app_iff. cbn [map In]. destruct Hr as [Hd Hl].
      split.
      * intros [[Ha|[Hn|[]]]|[Hn Hl']].
        -- now left.
        -- right. split; [left; congruence | now rewrite <- Hn, Hd].
        -- right. split; [now right | assumption].
      * intros [Ha|[[Hn|Hn] Hl']].
        -- now left; left.
        -- left. right. left. congruence.
        -- right. split; assumption.
    + destruct (IH acc) as (out & lg' & E' & H). rewrite E'.
      eexists _, _. split; [reflexivity|]. intros n. rewrite H.
      cbn [In]. split.
      * intros [Ha|[Hn Hl']]; [now left | right; split; [now right | assumption]].
      * intros [Ha|[[Hn|Hn] Hl']]; [now left | | right; split; assumption].
        subst. contradiction.
Qed.

(** The first call of the cached function. *)
Lemma detect_first (st : store) :
  exists listing lg,
    detect_trading_tables upper isoformat_date st None
    = (Ok listing, Some listing, lg) /\
    forall n, In n (map d_table_name listing) <->
              connect_error st = None /\
              In n (map table_name (tables st)) /\ listed st n.
Proof.
  unfold detect_trading_tables, scan_catalog, try_except, get_connection.
  destruct (connect_error st) as [e|] eqn:Cn.
  { cbn. eexists _, _. split; [reflexivity|]. intros n. cbn.
    split; [contradiction | intros [H _]; discriminate]. }
  unfold bind at 1, log. unfold bind at 1.
  destruct (scan_tables_spec st
              (sort_by String.leb (map table_name (tables st))) [] None)
    as (out & lg & E & H).
  rewrite E. cbn. eexists _, _. split; [reflexivity|]. intros n.
  assert (P1 : Permutation (sort_by instrument_sorted out) out)
    by apply sort_by_perm.
  assert (P2 : Permutation (sort_by String.leb (map table_name (tables st)))
                 (map table_name (tables st))) by apply sort_by_perm.
  split.
  - intros I. apply (Permutation_in _ (Permutation_map d_table_name P1)) in I.
    apply H in I as [[]|[I L]]. split; [reflexivity|]. split; [|assumption].
    now apply (Permutation_in _ P2).
  - intros (_ & I & L).
    apply (Permutation_in _ (Permutation_sym (Permutation_map d_table_name P1))).
    apply H. right. split; [|assumption].
    now apply (Permutation_in _ (Permutation_sym P2)).
Qed.

End Listing.

(** C6, as amended.  On the first scan of a store whose table names are
    distinct: a listed table has the required columns and at least one
    row; and when the scan obtains its connection and its statements on
    the table raise no error, a table with the required columns and at
    least one row is listed. *)
Theorem C6_listed_iff_qualifies
    (upper : string -> string) (isoformat_date : string -> option string)
    (st : store) (t : table) :
  NoDup (map table_name (tables st)) ->
  In t (tables st) ->
  exists listing lg,
    detect_trading_tables upper isoformat_date st None
    = (Ok listing, Some listing, lg) /\
    (In (table_name t) (map d_table_name listing) -> qualifies t) /\
    (connect_error st = None -> inspectable t ->
     (In (table_name t) (map d_table_name listing) <-> qualifies t)).
Proof.
  intros N I.
  destruct (detect_first upper isoformat_date st) as (listing & lg & E & H).
  exists listing, lg. split; [exact E|].
  pose proof (find_table_unique st t N I) as F.
  assert (Q : In (table_name t) (map d_table_name listing) -> qualifies t).
  { intros Hin. apply H in Hin as (_ & _ & (t' & F' & _ & _ & R & Nr)).
    rewrite F in F'. injection F' as <-.
    split; [now apply has_required_iff | assumption]. }
  split; [exact Q|].
  intros Cn [B Fa]. split; [exact Q|].
  intros [R Nr]. apply H. split; [assumption|]. split; [now apply in_map|].
  exists t. repeat split; try assumption. now apply has_required_iff.
Qed.

End Catalog.

(* ================================================================== *)
(** * The data and download routes                                     *)
(* ================================================================== *)

Module Facade.
Import Store Exec ExecFacts Query App Statements ProofTools OrderFacts AggFacts
       GroupFacts Catalog.

Lemma clamp_limit_ok (args : request_args) (c : cache) :
  limit_parses args ->
  clamp_limit args c = (Ok (effective_limit args), c, []).
Proof.
  unfold limit_parses, clamp_limit, effective_limit.
  destruct (arg_limit args) as [s|]; [|reflexivity].
  destruct (Py.int s); [reflexivity | congruence].
Qed.

(** The clamp holds the limit at or below the maximum. *)
Lemma effective_limit_le (args : request_args) :
  effective_limit args <= MAX_DATA_POINTS.
Proof.
  unfold effective_limit. destruct (arg_limit args); lia.
Qed.

Lemma table_exists_ok (st : store) (name : string) (c : cache) :
  connect_error st = None ->
  table_exists st name c =
  (Ok (match find_table st name with Some _ => true | None => false end),
   c, [MasterFind name]).
Proof.
  intros Cn. unfold table_exists, get_connection. now rewrite Cn.
Qed.

Lemma unsupported_facts (tf : string) :
  ~ In tf supported_timeframes ->
  (tf =? "raw")%string = false /\ dict_get tf intervals = None.
Proof.
  intros N. split.
  - apply String.eqb_neq. intros ->. apply N. now left.
  - unfold intervals. cbn [dict_get].
    repeat match goal with
    | |- context [String.eqb ?a tf] =>
        destruct (String.eqb_spec a tf) as [E|_];
        [exfalso; apply N; rewrite <- E; cbn; tauto|]
    end.
    reflexivity.
Qed.

(** C4, as the code has it.  For a well-formed name of a table of the
    store and a timeframe outside the supported set, the data route (and
    the download route, for a supported format) fails with the message of
    the validation error and executes nothing but the table lookup: no
    statement reads a bar table.  The status of the response is 500. *)
Theorem C4_unsupported_timeframe
    (st : store) (name : string) (args : request_args) (tf : string)
    (c : cache) :
  valid_table_name name = true ->
  connect_error st = None ->
  find_table st name <> None ->
  limit_parses args ->
  arg_timeframe args = Some tf ->
  ~ In tf supported_timeframes ->
  let failure := error_response ("Unsupported timeframe: " ++ tf) 500 in
  get_data st name args c = (Ok failure, c, [MasterFind name]) /\
  (format_ok args = true ->
   download_data st name args c = (Ok failure, c, [MasterFind name])).
Proof.
  intros V Cn F L Tf N failure.
  destruct (unsupported_facts tf N) as [Raw Dg].
  assert (Found : match find_table st name with Some _ => true | None => false end
                  = true) by (destruct (find_table st name); congruence).
  assert (Agg : forall s e l,
            aggregate_timeframe_data st name tf s e l c
            = (Raise (ValueError ("Unsupported timeframe: " ++ tf)), c, [])).
  { intros s e l. unfold aggregate_timeframe_data. now rewrite Dg. }
  split.
  - unfold get_data. apply handle_ok. unfold get_data_view.
    rewrite V. cbn [negb].
    eapply bind_ok; [now apply table_exists_ok | | reflexivity].
    rewrite Found. cbn [negb].
    eapply bind_ok; [now apply clamp_limit_ok | | reflexivity].
    rewrite Tf. cbn [args_get]. rewrite Raw.
    eapply try_caught; [apply bind_raise, Agg | reflexivity | reflexivity].
  - intros Fo. unfold download_data. apply handle_ok.
    unfold download_data_view. rewrite V. cbn [negb].
    unfold format_ok in Fo. cbv zeta in Fo. rewrite Fo. cbn [negb].
    eapply bind_ok; [now apply clamp_limit_ok | | reflexivity].
    eapply bind_ok; [now apply table_exists_ok | | reflexivity].
    rewrite Found. cbn [negb]. rewrite Tf. cbn [args_get]. rewrite Raw.
    eapply try_caught;
      [apply bind_raise, bind_raise, Agg | reflexivity | reflexivity].
Qed.

Lemma raw_select_unbounded (conds : list condition) (n : Z)
    (rows : list bar_row) :
  n < 0 ->
  List.length (raw_select conds n rows)
  = List.length (filter (where_clause conds) rows).
Proof.
  intros Hn. unfold raw_select. rewrite limit_all by now left.
  apply Permutation_length, sort_by_perm.
Qed.

Lemma star_columns : incl (columns_named RawStar) bar_columns.
Proof. intros x [<-|[]]. now left. Qed.

(** C7, as the code has it.  The clamp bounds the limit from above only: a
    negative limit (of 64 bits) passes it unchanged, and under a negative
    LIMIT the raw query returns every bar in range: the response of either
    route then has as many rows as the table has bars in range, whatever
    their number. *)
Theorem C7_negative_limit_unbounded
    (st : store) (name : string) (t : table) (args : request_args)
    (s : string) (n : Z) (c : cache) :
  valid_table_name name = true ->
  serves st name t ->
  arg_timeframe args = Some "raw" ->
  arg_limit args = Some s ->
  Py.int s = Some n ->
  n < 0 ->
  Sql.int64 n = true ->
  let in_range :=
    bars_in_range (arg_start_date args) (arg_end_date args) t in
  effective_limit args = n /\
  (exists data,
     get_data st name args c
     = (Ok (mk_response 200 (JsonData data) (Some "public, max-age=300")), c,
        [MasterFind name; OnTable RawBars name]) /\
     List.length data = List.length in_range) /\
  (format_ok args = true ->
   exists data,
     download_data st name args c
     = (Ok (mk_response 200
              (Attachment (Py.lower (args_get (arg_format args) "csv")) data)
              None), c,
        [MasterFind name; OnTable RawStar name]) /\
     List.length data = List.length in_range).
Proof.
  intros V S Tf La Li Hn Bn in_range.
  assert (El : effective_limit args = n).
  { unfold effective_limit. rewrite La, Li. cbn [Py.number_or_0].
    unfold MAX_DATA_POINTS. lia. }
  assert (Lp : limit_parses args).
  { unfold limit_parses. rewrite La, Li. discriminate. }
  pose proof S as (Cn & _ & F & _).
  assert (Found : match find_table st name with Some _ => true | None => false end
                  = true) by (now rewrite F).
  split; [exact El|]. split.
  - eexists. split.
    + unfold get_data. apply handle_ok. unfold get_data_view.
      rewrite V. cbn [negb].
      eapply bind_ok; [now apply table_exists_ok | | reflexivity].
      rewrite Found. cbn [negb].
      eapply bind_ok; [now apply clamp_limit_ok | | reflexivity].
      rewrite Tf. cbn [args_get]. rewrite String.eqb_refl.
      apply try_ok.
      eapply bind_ok;
        [eapply bind_ok;
           [unfold get_connection; rewrite Cn;
            eapply bind_ok;
              [apply (execute_ok st name t); [exact S | apply incl_refl]
              | eapply bind_ok;
                  [apply bind_integer_ok; now rewrite El
                  | reflexivity | reflexivity]
              | reflexivity]
           | reflexivity | reflexivity]
        | reflexivity | reflexivity].
    + rewrite length_map, El. now apply raw_select_unbounded.
  - intros Fo. eexists. split.
    + unfold download_data. apply handle_ok. unfold download_data_view.
      rewrite V. cbn [negb].
      unfold format_ok in Fo. cbv zeta in Fo. rewrite Fo. cbn [negb].
      eapply bind_ok; [now apply clamp_limit_ok | | reflexivity].
      eapply bind_ok; [now apply table_exists_ok | | reflexivity].
      rewrite Found. cbn [negb]. rewrite Tf. cbn [args_get].
      rewrite String.eqb_refl.
      apply try_ok.
      eapply bind_ok;
        [unfold get_connection; rewrite Cn;
         eapply bind_ok;
           [apply (execute_ok st name t); [exact S | apply star_columns]
           | eapply bind_ok;
               [apply bind_integer_ok; now rewrite El
               | reflexivity | reflexivity]
           | reflexivity]
        | reflexivity | reflexivity].
    + rewrite length_map, El. now apply raw_select_unbounded.
Qed.

(** ** The gate on table identifiers *)

Lemma replace_char (ch : ascii) (s : string) :
  Py.replace (String ch "") "" s = drop_char ch s.
Proof.
  unfold Py.replace. cbn [String.eqb].
  induction s as [|x r IH]; [reflexivity|].
  cbn [Py.replace_from drop_char String.prefix String.length Nat.sub].
  destruct (ascii_dec ch x) as [->|Ne].
  - rewrite Ascii.eqb_refl. destruct r; exact IH.
  - destruct (Ascii.eqb_spec x ch) as [->|_]; [contradiction|].
    now rewrite IH.
Qed.

Lemma all_chars_drop (P : ascii -> bool) (ch : ascii) (s : string) :
  Py.all_chars P (drop_char ch s) = true ->
  Py.all_chars (fun x => P x || Ascii.eqb x ch) s = true.
Proof.
  induction s as [|x r IH]; [reflexivity|]. cbn [drop_char Py.all_chars].
  destruct (Ascii.eqb x ch); cbn [Py.all_chars].
  - intros H. rewrite orb_true_r. auto.
  - intros H. apply andb_prop in H as [H1 H2]. rewrite H1. cbn. auto.
Qed.

Lemma all_chars_ext (P Q : ascii -> bool) (s : string) :
  (forall x, P x = Q x) -> Py.all_chars P s = Py.all_chars Q s.
Proof.
  intros E. induction s as [|x r IH]; [reflexivity|]. cbn.
  now rewrite E, IH.
Qed.

(** A name the check accepts is made of allowed characters only. *)
Lemma valid_name_chars (name : string) :
  valid_table_name name = true -> Py.all_chars allowed_char name = true.
Proof.
  unfold valid_table_name, Py.isalnum. intros H.
  apply andb_prop in H as [_ H].
  change "-"%string with (String "-" "") in H.
  change "_"%string with (String "_" "") in H.
  rewrite !replace_char in H.
  apply all_chars_drop, all_chars_drop in H.
  rewrite <- H. apply all_chars_ext. intros x. unfold allowed_char.
  destruct (Py.char_isalnum x), (Ascii.eqb x "_"), (Ascii.eqb x "-"); reflexivity.
Qed.

(** Allowed characters leave the bracket quoting intact. *)
Lemma allowed_no_bracket (name : string) :
  Py.all_chars allowed_char name = true -> Py.contains "]" name = false.
Proof.
  induction name as [|x r IH]; [reflexivity|]. cbn [Py.all_chars Py.contains].
  intros H. apply andb_prop in H as [Hx Hr]. rewrite (IH Hr), orb_false_r.
  cbn [String.prefix]. destruct (ascii_dec "]" x) as [<-|_]; [|reflexivity].
  discriminate Hx.
Qed.

Lemma gated_nil (st : store) (name : string) : gated st name [].
Proof. split; [constructor | exact I]. Qed.

Lemma gated_app (st : store) (name : string) (l1 l2 : list statement) :
  gated st name l1 -> gated st name l2 -> gated st name (l1 ++ l2).
Proof.
  intros [F1 H1] [F2 H2]. split; [now apply Forall_app|].
  destruct l1; [exact H2 | exact H1].
Qed.

Lemma logs_ret {A} (a : A) : logs silent (ret a).
Proof. intros c. now eexists _, _. Qed.

Lemma logs_raise {A} (e : exn) : logs silent (@raise A e).
Proof. intros c. now eexists _, _. Qed.

Lemma logs_weaken {A} (Q Q' : list statement -> Prop) (m : exec A) :
  (forall l, Q l -> Q' l) -> logs Q m -> logs Q' m.
Proof.
  intros W H c. destruct (H c) as (o & lg & E & HQ). eauto.
Qed.

Lemma logs_bind {A B} (Q : list statement -> Prop) (m : exec A)
    (f : A -> exec B) :
  logs Q m -> (forall a, logs silent (f a)) -> logs Q (bind m f).
Proof.
  intros Hm Hf c. destruct (Hm c) as ([a|e] & l1 & E1 & Q1).
  - destruct (Hf a c) as (o & l2 & E2 & ->).
    exists o, l1. split; [|assumption].
    eapply bind_ok; [exact E1 | exact E2 | now rewrite app_nil_r].
  - exists (Raise e), l1. split; [now apply bind_raise | assumption].
Qed.

Lemma logs_try {A} (Q : list statement -> Prop) (m : exec A)
    (hs : exn -> bool) (h : exn -> exec A) :
  logs Q m -> (forall e, logs silent (h e)) -> logs Q (try_except m hs h).
Proof.
  intros Hm Hh c. destruct (Hm c) as ([a|e] & l1 & E1 & Q1).
  - exists (Ok a), l1. split; [now apply try_ok | assumption].
  - unfold try_except. rewrite E1. destruct (hs e).
    + destruct (Hh e c) as (o & l2 & E2 & ->). rewrite E2.
      exists o, l1. now rewrite app_nil_r.
    + now exists (Raise e), l1.
Qed.

Lemma execute_logs (st : store) (k : query_kind) (name : string) :
  logs (at_most_one name) (execute st k name).
Proof.
  intros c. unfold execute, bind, log.
  destruct (Py.contains "]" name);
    [| destruct (find_table st name) as [t|];
       [destruct (fault t);
          [| destruct (find (fun c0 => negb (has_column t c0)) (columns_named k))]
       |]];
    cbn; eexists _, _; (split; [reflexivity | right; now exists k]).
Qed.

Lemma connection_logs {A} (Q : list statement -> Prop) (st : store)
    (body : exec A) :
  Q [] -> logs Q body -> logs Q (get_connection st body).
Proof.
  intros Q0 H c. unfold get_connection. destruct (connect_error st).
  - now eexists _, _.
  - apply H.
Qed.

Lemma bind_integer_logs (z : Z) : logs silent (bind_integer z).
Proof.
  intros c. unfold bind_integer. destruct (Sql.int64 z); now eexists _, _.
Qed.

Lemma after_execute_logs {A} (st : store) (k : query_kind) (name : string)
    (limit : Z) (f : table -> A) :
  logs (at_most_one name)
    (t <~ execute st k name ;; bind_integer limit ;;; ret (f t)).
Proof.
  apply logs_bind; [apply execute_logs|]. intros t.
  apply logs_bind; [apply bind_integer_logs | intros; apply logs_ret].
Qed.

Lemma aggregate_logs (st : store) (name timeframe : string)
    (start_date end_date : option string) (limit : Z) :
  logs (at_most_one name)
    (aggregate_timeframe_data st name timeframe start_date end_date limit).
Proof.
  unfold aggregate_timeframe_data. destruct (dict_get timeframe intervals).
  - apply logs_bind; [|intros; apply logs_ret].
    apply connection_logs; [now left|].
    apply (after_execute_logs st _ name limit).
  - eapply logs_weaken; [|apply logs_raise]. intros l ->. now left.
Qed.

(** After the checks, the handlers run at most one statement on the
    table. *)
Lemma gate_passed (st : store) (name : string) (lg : list statement) :
  valid_table_name name = true -> find_table st name <> None ->
  at_most_one name lg -> gated st name (MasterFind name :: lg).
Proof.
  intros V F [->|(k & ->)]; (split; [|reflexivity]).
  - repeat constructor.
  - constructor; [now left|]. constructor; [|constructor].
    right. exists k. pose proof (valid_name_chars name V).
    repeat split; try assumption. now apply allowed_no_bracket.
Qed.

Lemma table_exists_cases (st : store) (name : string) (c : cache) :
  (exists e, table_exists st name c = (Raise e, c, [])) \/
  table_exists st name c =
  (Ok (match find_table st name with Some _ => true | None => false end),
   c, [MasterFind name]).
Proof.
  unfold table_exists, get_connection. destruct (connect_error st) as [e|].
  - left. now exists e.
  - now right.
Qed.

Lemma clamp_limit_cases (args : request_args) (c : cache) :
  (exists e, clamp_limit args c = (Raise e, c, [])) \/
  (exists n, clamp_limit args c = (Ok n, c, [])).
Proof.
  unfold clamp_limit. destruct (arg_limit args) as [s|].
  - destruct (Py.int s); [right | left]; now eexists.
  - right. now eexists.
Qed.

Lemma lookup_only (st : store) (name : string) :
  gated st name [MasterFind name].
Proof. split; [|reflexivity]. constructor; [now left | constructor]. Qed.

Lemma get_data_view_gated (st : store) (name : string) (args : request_args) :
  logs (gated st name) (get_data_view st name args).
Proof.
  intros c. unfold get_data_view.
  destruct (valid_table_name name) eqn:V; cbn [negb].
  2:{ eexists _, _. split; [reflexivity | apply gated_nil]. }
  destruct (table_exists_cases st name c) as [(e & E)|E].
  { exists (Raise e), []. split; [now apply bind_raise | apply gated_nil]. }
  destruct (find_table st name) as [t|] eqn:F.
  2:{ eexists _, _. split; [|apply lookup_only].
      eapply bind_ok; [exact E | reflexivity | reflexivity]. }
  destruct (clamp_limit_cases args c) as [(e & El)|(n & El)].
  { exists (Raise e), [MasterFind name]. split; [|apply lookup_only].
    eapply bind_ok; [exact E | cbn [negb] | reflexivity]. now apply bind_raise. }
      assert (T : forall limit,
                logs (at_most_one name)
                  (try_except
                     (data <~ (if (args_get (arg_timeframe args) "1min" =? "raw")%string
                               then
                                 rows <~ get_connection st
                                   (t <~ execute st RawBars name ;;
                                    bind_integer limit ;;;
                                    ret (raw_select
                                           (date_conditions (arg_start_date args)
                                              (arg_end_date args))
                                           limit (Store.rows t))) ;;
                                 ret (map raw_point rows)
                               else
                                 aggregate_timeframe_data st name
                                   (args_get (arg_timeframe args) "1min")
                                   (arg_start_date args) (arg_end_date args) limit) ;;
                      ret (mk_response 200 (JsonData data)
                             (Some "public, max-age=300")))
                     any_exception
                     (fun e => ret (error_response (str e) 500)))).
  { intros limit. apply logs_try; [|intros; apply logs_ret].
    apply logs_bind; [|intros; apply logs_ret].
    destruct (args_get (arg_timeframe args) "1min" =? "raw")%string.
    - apply logs_bind; [|intros; apply logs_ret].
      apply connection_logs; [now left|].
      apply (after_execute_logs st _ name limit).
    - apply aggregate_logs. }
  destruct (T n c) as (o & lg & Et & Q).
  exists o, (MasterFind name :: lg). split.
  - eapply bind_ok; [exact E | cbn [negb] | reflexivity].
    eapply bind_ok; [exact El | exact Et | reflexivity].
  - apply gate_passed; [assumption | congruence | assumption].
Qed.

Lemma download_data_view_gated (st : store) (name : string)
    (args : request_args) :
  logs (gated st name) (download_data_view st name args).
Proof.
  intros c. unfold download_data_view.
  destruct (valid_table_name name) eqn:V; cbn [negb].
  2:{ eexists _, _. split; [reflexivity | apply gated_nil]. }
  match goal with
  | |- context [if negb ?b then _ else _] => destruct b; cbn [negb]
  end.
  2:{ eexists _, _. split; [reflexivity | apply gated_nil]. }
  destruct (clamp_limit_cases args c) as [(e & El)|(n & El)].
  { exists (Raise e), []. split; [now apply bind_raise | apply gated_nil]. }
  destruct (table_exists_cases st name c) as [(e & E)|E].
  { exists (Raise e), []. split; [|apply gated_nil].
    eapply bind_ok; [exact El | | reflexivity]. now apply bind_raise. }
  destruct (find_table st name) as [t|] eqn:F.
  2:{ eexists _, _. split; [|apply lookup_only].
      eapply bind_ok; [exact El | | reflexivity].
      eapply bind_ok; [exact E | reflexivity | reflexivity]. }
  assert (T : forall limit,
            logs (at_most_one name)
              (try_except
                 (data <~ (if (args_get (arg_timeframe args) "1min" =? "raw")%string
                           then
                             get_connection st
                               (t <~ execute st RawStar name ;;
                                bind_integer limit ;;;
                                ret (map (star_dict t)
                                       (raw_select
                                          (date_conditions (arg_start_date args)
                                             (arg_end_date args))
                                          limit (Store.rows t))))
                           else
                             aggregated_data <~
                               aggregate_timeframe_data st name
                                 (args_get (arg_timeframe args) "1min")
                                 (arg_start_date args) (arg_end_date args) limit ;;
                             ret (map (download_dict
                                         (args_get (arg_timeframe args) "1min"))
                                    aggregated_data)) ;;
                  ret (mk_response 200
                         (Attachment (Py.lower (args_get (arg_format args) "csv"))
                            data) None))
                 any_exception
                 (fun e => ret (error_response (str e) 500)))).
  { intros limit. apply logs_try; [|intros; apply logs_ret].
    apply logs_bind; [|intros; apply logs_ret].
    destruct (args_get (arg_timeframe args) "1min" =? "raw")%string.
    - apply connection_logs; [now left|].
      apply (after_execute_logs st _ name limit
               (fun t => map (star_dict t)
                           (raw_select
                              (date_conditions (arg_start_date args)
                                 (arg_end_date args)) limit (rows t)))).
    - apply logs_bind; [apply aggregate_logs | intros; apply logs_ret]. }
  destruct (T n c) as (o & lg & Et & Q).
  exists o, (MasterFind name :: lg). split.
  - eapply bind_ok; [exact El | | reflexivity].
    eapply bind_ok; [exact E | cbn [negb]; exact Et | reflexivity].
  - apply gate_passed; [assumption | congruence | assumption].
Qed.

(** The decorator runs the handler up to three times; the log is the logs
    of the runs one after the other. *)
Lemma retry_logs (Q : list statement -> Prop) (f : exec response) :
  Q [] -> (forall l1 l2, Q l1 -> Q l2 -> Q (l1 ++ l2)%list) ->
  logs Q f -> forall left attempt, logs Q (retry_loop f attempt left).
Proof.
  intros Qnil Qapp Hf left.
  induction left as [|left IH]; intros attempt c; cbn [retry_loop].
  - now eexists _, _.
  - unfold try_except. destruct (Hf c) as ([r|e] & l1 & E1 & Q1); rewrite E1.
    + now eexists _, _.
    + cbn [any_exception].
      assert (R : forall m : exec response, logs Q m ->
                exists o lg,
                  (let '(o, c2, l2) := m c in (o, c2, (l1 ++ l2)%list))
                  = (o, c, lg) /\ Q lg).
      { intros m Hm. destruct (Hm c) as (o & l2 & E2 & Q2). rewrite E2.
        eexists _, _. split; [reflexivity | now apply Qapp]. }
      assert (Ret : forall r : response, logs Q (ret r))
        by (intros r c0; now eexists _, _).
      destruct e as [m|m|m|m|m].
      * destruct (Py.contains "database is locked" (Py.lower m)
                  && (attempt <? max_retries - 1)); apply R; auto.
      * destruct (attempt <? max_retries - 1); apply R; auto.
      * apply R; auto.
      * destruct (attempt <? max_retries - 1); apply R; auto.
      * destruct (attempt <? max_retries - 1); apply R; auto.
Qed.

(** C8, as amended.  On either route: a name with a character other than
    a letter, a digit, an underscore or a hyphen is answered 400 with no
    statement executed; and in every log the first statement is the lookup
    of the name in [sqlite_master], and a statement with the name spliced
    in occurs only for a name of allowed characters, which keeps the
    quoting intact, and which names a table of the store. *)
Theorem C8_table_identifier_gate
    (st : store) (name : string) (args : request_args) (c c' : cache)
    (o : outcome response) (lg : list statement) :
  get_data st name args c = (o, c', lg) \/
  download_data st name args c = (o, c', lg) ->
  (Py.all_chars allowed_char name = false ->
   o = Ok (error_response "Invalid table name format" 400) /\ lg = []) /\
  Forall (checked st name) lg /\
  match lg with [] => True | s :: _ => s = MasterFind name end.
Proof.
  intros H. split.
  - intros Bad.
    assert (V : valid_table_name name = false).
    { destruct (valid_table_name name) eqn:V; [|reflexivity].
      apply valid_name_chars in V. congruence. }
    assert (G : get_data st name args c
                = (Ok (error_response "Invalid table name format" 400), c, [])).
    { apply handle_ok. unfold get_data_view. now rewrite V. }
    assert (D : download_data st name args c
                = (Ok (error_response "Invalid table name format" 400), c, [])).
    { apply handle_ok. unfold download_data_view. now rewrite V. }
    destruct H as [H|H]; [rewrite G in H | rewrite D in H];
      injection H as <- _ <-; now split.
  - assert (G : logs (gated st name) (get_data st name args)).
    { apply retry_logs;
        [apply gated_nil | apply gated_app | apply get_data_view_gated]. }
    assert (D : logs (gated st name) (download_data st name args)).
    { apply retry_logs;
        [apply gated_nil | apply gated_app | apply download_data_view_gated]. }
    destruct H as [H|H];
      [destruct (G c) as (o' & lg' & E & Q) | destruct (D c) as (o' & lg' & E & Q)];
      rewrite E in H; injection H as _ _ <-; exact Q.
Qed.

End Facade.

(* ================================================================== *)
(** * Worked instances                                                 *)
(* ================================================================== *)

Module Examples.
Import Text TextFacts Store Exec Query App Statements Samples AggFacts
       Aggregator Catalog Facade.

Lemma quarter_serves : serves quarter_store "es_bars" quarter_table.
Proof. repeat split; reflexivity. Defined.

Example quarter_output :
  aggregate_timeframe_data quarter_store "es_bars" "15min" None None 50000 None
  = (Ok [Point.mk (Some "2024-01-01 10:00:00") 10 12 9 11 5 (Some 1);
         Point.mk (Some "2024-01-01 10:15:00") 11 13 10 12 7 (Some 1)],
     None, [OnTable (Minutes 15) "es_bars"]).
Proof. vm_compute. reflexivity. Qed.

(** The sample timestamps are texts of the sample times. *)
Ltac strftime_text :=
  split; [reflexivity|]; right; right;
  exists " "%char, "", "";
  split; [left; reflexivity|];
  split; [left; reflexivity|];
  split; [left; reflexivity|];
  split; [left; reflexivity | reflexivity].

Lemma quarter_timed :
  timed (clock quarter_times) (bars_in_range None None quarter_table).
Proof.
  intros r Hr. cbn in Hr. destruct Hr as [<-|[<-|[]]]; cbn;
    eexists; (split; [reflexivity | strftime_text]).
Defined.

Lemma quarter_fit : volumes_fit (bars_in_range None None quarter_table).
Proof. vm_compute. discriminate. Defined.

(** The bar at 10:14:59 is keyed 10:00 and the bar at 10:15:00 is keyed
    10:15, under the 15-minute interval, and each is the one bar of its
    output bar. *)
Lemma C1_witness :
  (period_of 15 (Some "2024-01-01 10:14:59") = Some "2024-01-01 10:00:00" /\
   exists data,
     aggregate_timeframe_data quarter_store "es_bars" "15min" None None 50000 None
     = (Ok data, None, [OnTable (Minutes 15) "es_bars"]) /\
     NoDup (map Point.datetime data) /\
     (forall p, In p data ->
        Point.bar_count p
        = Some (Z.of_nat
                  (List.length
                     (bucket 15 (clock quarter_times) (Point.datetime p)
                        (bars_in_range None None quarter_table)))) /\
        (In bar_1014 (bucket 15 (clock quarter_times) (Point.datetime p)
                        (bars_in_range None None quarter_table))
         <-> Point.datetime p = Some "2024-01-01 10:00:00")) /\
     (50000 < 0 \/ Z.of_nat (List.length (rows quarter_table)) <= 50000 ->
      exists p, In p data /\ Point.datetime p = Some "2024-01-01 10:00:00")) /\
  (period_of 15 (Some "2024-01-01 10:15:00") = Some "2024-01-01 10:15:00" /\
   exists data,
     aggregate_timeframe_data quarter_store "es_bars" "15min" None None 50000 None
     = (Ok data, None, [OnTable (Minutes 15) "es_bars"]) /\
     NoDup (map Point.datetime data) /\
     (forall p, In p data ->
        Point.bar_count p
        = Some (Z.of_nat
                  (List.length
                     (bucket 15 (clock quarter_times) (Point.datetime p)
                        (bars_in_range None None quarter_table)))) /\
        (In bar_1015 (bucket 15 (clock quarter_times) (Point.datetime p)
                        (bars_in_range None None quarter_table))
         <-> Point.datetime p = Some "2024-01-01 10:15:00")) /\
     (50000 < 0 \/ Z.of_nat (List.length (rows quarter_table)) <= 50000 ->
      exists p, In p data /\ Point.datetime p = Some "2024-01-01 10:15:00")) /\
  bucket 15 (clock quarter_times) (Some "2024-01-01 10:00:00")
    (bars_in_range None None quarter_table) = [bar_1014] /\
  bucket 15 (clock quarter_times) (Some "2024-01-01 10:15:00")
    (bars_in_range None None quarter_table) = [bar_1015].
Proof.
  assert (I14 : In bar_1014 (bars_in_range None None quarter_table))
    by (simpl; tauto).
  assert (I15 : In bar_1015 (bars_in_range None None quarter_table))
    by (simpl; tauto).
  assert (W14 : written "2024-01-01 10:14:59" (mk_time_value 2024 1 1 10 14 59))
    by strftime_text.
  assert (W15 : written "2024-01-01 10:15:00" (mk_time_value 2024 1 1 10 15 0))
    by strftime_text.
  assert (M : In 15 [1; 5; 15; 30; 60; 120; 240]) by (simpl; tauto).
  destruct (C1_calendar_aligned_bucket quarter_store "es_bars" "15min"
              quarter_table 15 None None 50000 None (clock quarter_times)
              bar_1014 "2024-01-01 10:14:59" (mk_time_value 2024 1 1 10 14 59)
              quarter_serves eq_refl M eq_refl quarter_fit quarter_timed
              I14 eq_refl W14) as (K14 & R14 & _).
  destruct (C1_calendar_aligned_bucket quarter_store "es_bars" "15min"
              quarter_table 15 None None 50000 None (clock quarter_times)
              bar_1015 "2024-01-01 10:15:00" (mk_time_value 2024 1 1 10 15 0)
              quarter_serves eq_refl M eq_refl quarter_fit quarter_timed
              I15 eq_refl W15) as (K15 & R15 & _).
  split; [split; [exact K14 | exact R14]|].
  split; [split; [exact K15 | exact R15]|].
  split; reflexivity.
Defined.

Lemma busy_serves : serves busy_store "nq_bars" busy_table.
Proof. repeat split; reflexivity. Defined.

Example busy_output :
  aggregate_timeframe_data busy_store "nq_bars" "15min" None None 50000 None
  = (Ok [Point.mk (Some "2024-03-04 09:30:00") 100 108 95 96 40 (Some 3);
         Point.mk (Some "2024-03-04 09:45:00") 96 97 90 91 40 (Some 1)],
     None, [OnTable (Minutes 15) "nq_bars"]).
Proof. vm_compute. reflexivity. Qed.


Lemma busy_fit : volumes_fit (bars_in_range None None busy_table).
Proof. vm_compute. discriminate. Defined.




Lemma midnight_serves : serves midnight_store "es_bars" midnight_table.
Proof. repeat split; reflexivity. Defined.

Example midnight_output :
  aggregate_timeframe_data midnight_store "es_bars" "1day" None None 50000 None
  = (Ok [Point.mk (Some "2024-01-01") 10 12 9 11 5 (Some 1);
         Point.mk (Some "2024-01-02") 11 13 10 12 7 (Some 1)],
     None, [OnTable Daily "es_bars"]).
Proof. vm_compute. reflexivity. Qed.

Lemma midnight_timed :
  timed (clock midnight_times) (bars_in_range None None midnight_table).
Proof.
  intros r Hr. cbn in Hr. destruct Hr as [<-|[<-|[]]]; cbn;
    eexists; (split; [reflexivity | strftime_text]).
Defined.

Lemma midnight_fit : volumes_fit (bars_in_range None None midnight_table).
Proof. vm_compute. discriminate. Defined.

(** The bars of 2024-01-01 23:58 and 2024-01-02 00:02 give two daily bars,
    of 2024-01-01 and of 2024-01-02, and no output bar folds both. *)
Lemma C3_witness :
  exists data,
    aggregate_timeframe_data midnight_store "es_bars" "1day" None None 50000 None
    = (Ok data, None, [OnTable Daily "es_bars"]) /\
    NoDup (map Point.datetime data) /\
    (forall key,
       In key (map Point.datetime data) <->
       key = Some "2024-01-01" \/ key = Some "2024-01-02") /\
    (forall p, In p data ->
       Point.bar_count p
       = Some (Z.of_nat
                 (List.length
                    (bucket 1440 (clock midnight_times) (Point.datetime p)
                       (bars_in_range None None midnight_table))))) /\
    ~ (exists p, In p data /\
         In bar_2358 (bucket 1440 (clock midnight_times) (Point.datetime p)
                        (bars_in_range None None midnight_table)) /\
         In bar_0002 (bucket 1440 (clock midnight_times) (Point.datetime p)
                        (bars_in_range None None midnight_table))).
Proof.
  assert (H : 50000 < 0 \/ Z.of_nat (List.length (rows midnight_table)) <= 50000)
    by (right; simpl; lia).
  destruct (C3_daily_bucket_per_date midnight_store "es_bars" midnight_table
              None None 50000 None (clock midnight_times)
              midnight_serves eq_refl H midnight_fit midnight_timed)
    as ((data & A & N & K & Cn & Same) & _).
  exists data. split; [exact A|]. split; [exact N|]. split; [|split; [exact Cn|]].
  - intros key. rewrite K. split.
    + intros (r & Hr & ->). cbn in Hr.
      destruct Hr as [<-|[<-|[]]]; [left | right]; reflexivity.
    + intros [->| ->]; [exists bar_2358 | exists bar_0002];
        (split; [cbn; tauto | reflexivity]).
  - intros Both.
    apply (Same bar_2358 bar_0002 (mk_time_value 2024 1 1 23 58 0)
             (mk_time_value 2024 1 2 0 2 0)) in Both;
      [| cbn; tauto | cbn; tauto | reflexivity | reflexivity].
    destruct Both as (_ & _ & D). discriminate D.
Defined.

Lemma ten_serves : serves ten_store "cl_bars" ten_table.
Proof. repeat split; reflexivity. Defined.

Example ten_output_limit_3 :
  aggregate_timeframe_data ten_store "cl_bars" "60min" None None 3 None
  = (Ok [Point.mk (Some "2024-05-06 08:00:00") 1 2 1 2 1 (Some 1);
         Point.mk (Some "2024-05-06 09:00:00") 2 3 2 3 1 (Some 1);
         Point.mk (Some "2024-05-06 10:00:00") 3 4 3 4 1 (Some 1)],
     None, [OnTable (Minutes 60) "cl_bars"]).
Proof. vm_compute. reflexivity. Qed.

Lemma ten_timed :
  timed (clock ten_times) (bars_in_range None None ten_table).
Proof.
  intros r Hr. cbn in Hr.
  repeat (destruct Hr as [<-|Hr];
          [cbn; eexists; (split; [reflexivity | strftime_text])|]).
  contradiction.
Defined.

Lemma ten_fit : volumes_fit (bars_in_range None None ten_table).
Proof. vm_compute. discriminate. Defined.

Lemma ten_keys_sorted : Sorted text_lt ten_keys.
Proof. repeat constructor. Defined.

(** Ten bars in ten hours give ten buckets, and limit 3 returns the bars
    of the first three, in ascending order. *)
Lemma C5_witness :
  exists data keys,
    aggregate_timeframe_data ten_store "cl_bars" "60min" None None 3 None
    = (Ok data, None, [OnTable (aggregation_kind 60) "cl_bars"]) /\
    keys = ten_keys /\
    List.length keys = 10%nat /\
    map Point.datetime data
    = [Some "2024-05-06 08:00:00"; Some "2024-05-06 09:00:00";
       Some "2024-05-06 10:00:00"] /\
    Z.of_nat (List.length data) = 3.
Proof.
  assert (H : 0 <= 3) by lia.
  destruct (C5_limit_keeps_first_buckets ten_store "cl_bars" "60min" ten_table
              60 None None 3 None (clock ten_times)
              ten_serves eq_refl H eq_refl ten_fit ten_timed)
    as ((data & keys & A & K & S & _ & E & _ & L) & _).
  assert (Ek : keys = ten_keys).
  { apply OrderFacts.sorted_same; [exact S | exact ten_keys_sorted |].
    intros k. rewrite K.
    change ten_keys
      with (map (fun r => bucket_key 60 (clock ten_times r))
              (bars_in_range None None ten_table)).
    rewrite in_map_iff. split; intros (r & X & Y); exists r; auto. }
  exists data, keys. split; [exact A|]. split; [exact Ek|].
  rewrite Ek in E, L. split; [now rewrite Ek|]. split; [exact E|].
  apply L. simpl. lia.
Defined.

Lemma rebuilt_serves : serves rebuilt_store "nq_15min" rebuilt_table.
Proof. repeat split; reflexivity. Defined.

Lemma C9_witness :
  serves busy_store "nq_bars" busy_table /\
  dict_get "15min" intervals = Some 15 /\
  Sql.int64 50000 = true /\
  aggregate_timeframe_data busy_store "nq_bars" "15min" None None 50000 None
  = (Ok busy_data, None, [OnTable (Minutes 15) "nq_bars"]) /\
  serves rebuilt_store "nq_15min" rebuilt_table /\
  rows rebuilt_table = map reconstruct busy_data /\
  exists data',
    aggregate_timeframe_data rebuilt_store "nq_15min" "15min" None None 50000 None
    = (Ok data', None, [OnTable (aggregation_kind 15) "nq_15min"]) /\
    map ohlcv data' = map ohlcv busy_data.
Proof.
  assert (A : aggregate_timeframe_data busy_store "nq_bars" "15min" None None
                50000 None
              = (Ok busy_data, None, [OnTable (Minutes 15) "nq_bars"]))
    by (vm_compute; reflexivity).
  split; [exact busy_serves|]. split; [reflexivity|]. split; [reflexivity|].
  split; [exact A|]. split; [exact rebuilt_serves|]. split; [reflexivity|].
  apply (C9_aggregation_idempotent busy_store "nq_bars" "15min" busy_table 15
           None None 50000 None None [OnTable (Minutes 15) "nq_bars"] busy_data
           rebuilt_store "nq_15min" rebuilt_table None
           busy_serves eq_refl eq_refl A rebuilt_serves eq_refl).
Defined.

Example recovered_store_lists_the_table :
  exists listing lg,
    detect_trading_tables ascii_upper iso_date busy_store None
    = (Ok listing, Some listing, lg) /\
    map d_table_name listing = ["nq_bars"] /\
    map d_display_name listing = ["NQ (2024-03-04 to 2024-03-04)"].
Proof. eexists _, _. repeat split; vm_compute; reflexivity. Qed.

Lemma C10_witness :
  connect_error exhausted_store
  = Some (ConnectionError "Maximum database connections reached") /\
  detect_trading_tables ascii_upper iso_date exhausted_store None
  = (Ok [], Some [], []) /\
  get_instruments ascii_upper iso_date exhausted_store None
  = (Ok empty_listing, Some [], []) /\
  Forall (fun o => o = Ok empty_listing)
    (instruments_responses ascii_upper iso_date
       (exhausted_store :: [busy_store; busy_store]) None).
Proof.
  split; [reflexivity|].
  apply (C10_failed_scan_cached_empty ascii_upper iso_date exhausted_store
           (ConnectionError "Maximum database connections reached")
           [busy_store; busy_store] eq_refl).
Defined.

Example mixed_store_listing :
  exists listing lg,
    detect_trading_tables ascii_upper iso_date mixed_store None
    = (Ok listing, Some listing, lg) /\
    map d_table_name listing = ["nq_bars"].
Proof. eexists _, _. split; vm_compute; reflexivity. Qed.

Lemma mixed_names : NoDup (map table_name (tables mixed_store)).
Proof.
  cbn. repeat constructor; cbn; intros H;
    repeat (destruct H as [H|H]; [discriminate H|]); exact H.
Defined.

Lemma C6_witness :
  NoDup (map table_name (tables mixed_store)) /\
  In busy_table (tables mixed_store) /\
  exists listing lg,
    detect_trading_tables ascii_upper iso_date mixed_store None
    = (Ok listing, Some listing, lg) /\
    (In (table_name busy_table) (map d_table_name listing) ->
     qualifies busy_table) /\
    (connect_error mixed_store = None -> inspectable busy_table ->
     (In (table_name busy_table) (map d_table_name listing)
      <-> qualifies busy_table)).
Proof.
  assert (I : In busy_table (tables mixed_store)) by (cbn; tauto).
  split; [exact mixed_names|]. split; [exact I|].
  apply (C6_listed_iff_qualifies ascii_upper iso_date mixed_store busy_table
           mixed_names I).
Defined.

(** The table has the required columns and two rows, and the scan, which
    obtains its connection, does not list it. *)
Lemma C6_counterexample :
  In locked_table (tables locked_store) /\
  qualifies locked_table /\
  forall upper isoformat_date,
    detect_trading_tables upper isoformat_date locked_store None
    = (Ok [], Some [], [MasterList; OnTable TableInfo "es_bars"]).
Proof.
  split; [cbn; tauto|]. split.
  - split; [|discriminate].
    intros col H. cbn in H. cbn.
    repeat (destruct H as [<-|H]; [tauto|]). contradiction.
  - intros upper isoformat_date. reflexivity.
Qed.

Lemma C4_witness :
  valid_table_name "es_bars" = true /\
  connect_error quarter_store = None /\
  find_table quarter_store "es_bars" <> None /\
  limit_parses seven_minutes /\
  arg_timeframe seven_minutes = Some "7min" /\
  ~ In "7min" supported_timeframes /\
  get_data quarter_store "es_bars" seven_minutes None
  = (Ok (error_response "Unsupported timeframe: 7min" 500), None,
     [MasterFind "es_bars"]) /\
  (format_ok seven_minutes = true ->
   download_data quarter_store "es_bars" seven_minutes None
   = (Ok (error_response "Unsupported timeframe: 7min" 500), None,
      [MasterFind "es_bars"])).
Proof.
  assert (F : find_table quarter_store "es_bars" <> None) by discriminate.
  assert (N : ~ In "7min" supported_timeframes).
  { cbn. intros H. repeat (destruct H as [H|H]; [discriminate H|]). exact H. }
  split; [reflexivity|]. split; [reflexivity|]. split; [exact F|].
  split; [exact I|]. split; [reflexivity|]. split; [exact N|].
  apply (C4_unsupported_timeframe quarter_store "es_bars" seven_minutes "7min"
           None eq_refl eq_refl F I eq_refl N).
Defined.

Lemma crowded_serves : serves crowded_store "es_bars" crowded_table.
Proof. repeat split; reflexivity. Defined.

Lemma C7_witness :
  valid_table_name "es_bars" = true /\
  serves crowded_store "es_bars" crowded_table /\
  arg_timeframe minus_one = Some "raw" /\
  arg_limit minus_one = Some "-1" /\
  Py.int "-1" = Some (-1) /\
  -1 < 0 /\
  Sql.int64 (-1) = true /\
  effective_limit minus_one = -1 /\
  (exists data,
     get_data crowded_store "es_bars" minus_one None
     = (Ok (mk_response 200 (JsonData data) (Some "public, max-age=300")), None,
        [MasterFind "es_bars"; OnTable RawBars "es_bars"]) /\
     Z.of_nat (List.length data) = 50001) /\
  (exists data,
     download_data crowded_store "es_bars" minus_one None
     = (Ok (mk_response 200 (Attachment "csv" data) None), None,
        [MasterFind "es_bars"; OnTable RawStar "es_bars"]) /\
     Z.of_nat (List.length data) = 50001).
Proof.
  assert (H : -1 < 0) by lia.
  assert (L : Z.of_nat (List.length (bars_in_range None None crowded_table))
              = 50001) by (vm_compute; reflexivity).
  split; [reflexivity|]. split; [exact crowded_serves|].
  split; [reflexivity|]. split; [reflexivity|]. split; [reflexivity|].
  split; [exact H|]. split; [reflexivity|].
  destruct (C7_negative_limit_unbounded crowded_store "es_bars" crowded_table
              minus_one "-1" (-1) None eq_refl crowded_serves eq_refl eq_refl
              eq_refl H eq_refl) as (E & (data & G & Lg) & D).
  split; [exact E|]. split.
  - exists data. split; [exact G|]. rewrite Lg. exact L.
  - destruct (D eq_refl) as (rows' & Dd & Ld).
    exists rows'. split; [exact Dd|]. rewrite Ld. exact L.
Defined.

Lemma C8_witness :
  (get_data quarter_store "es_bars" raw_bars None
   = (Ok quarter_response, None,
      [MasterFind "es_bars"; OnTable RawBars "es_bars"]) \/
   download_data quarter_store "es_bars" raw_bars None
   = (Ok quarter_response, None,
      [MasterFind "es_bars"; OnTable RawBars "es_bars"])) /\
  (Py.all_chars allowed_char "es_bars" = false ->
   Ok quarter_response = Ok (error_response "Invalid table name format" 400) /\
   [MasterFind "es_bars"; OnTable RawBars "es_bars"] = []) /\
  Forall (checked quarter_store "es_bars")
    [MasterFind "es_bars"; OnTable RawBars "es_bars"] /\
  MasterFind "es_bars" = MasterFind "es_bars".
Proof.
  assert (G : get_data quarter_store "es_bars" raw_bars None
              = (Ok quarter_response, None,
                 [MasterFind "es_bars"; OnTable RawBars "es_bars"]) \/
              download_data quarter_store "es_bars" raw_bars None
              = (Ok quarter_response, None,
                 [MasterFind "es_bars"; OnTable RawBars "es_bars"]))
    by (left; vm_compute; reflexivity).
  split; [exact G|].
  apply (C8_table_identifier_gate quarter_store "es_bars" raw_bars None None
           (Ok quarter_response)
           [MasterFind "es_bars"; OnTable RawBars "es_bars"] G).
Defined.

Example bracket_name_refused :
  get_data quarter_store "es_bars] --" raw_bars None
  = (Ok (error_response "Invalid table name format" 400), None, []).
Proof. vm_compute. reflexivity. Qed.

Lemma C8_counterexample :
  ~ qualifies volume_log /\
  (forall upper isoformat_date,
     exists listing lg,
       detect_trading_tables upper isoformat_date side_store None
       = (Ok listing, Some listing, lg) /\
       map d_table_name listing = ["es_bars"]) /\
  download_data side_store "volume_log" raw_bars None
  = (Ok (mk_response 200
           (Attachment "csv"
              [[("bar_end_datetime", CText "2024-01-01 23:58:00");
                ("volume", CNum 5)]])
           None),
     None, [MasterFind "volume_log"; OnTable RawStar "volume_log"]).
Proof.
  split.
  - intros [H _]. specialize (H "open_price"). cbn in H.
    destruct H as [H|[H|[]]]; [tauto | discriminate H | discriminate H].
  - split; [|vm_compute; reflexivity].
    intros upper isoformat_date. eexists _, _. split; reflexivity.
Qed.

End Examples.

(* ================================================================== *)
(** * The retry decorator                                              *)
(* ================================================================== *)

Module Decorator.
Import Store Exec ExecFacts App Statements Properties.

(** One turn of the loop on a run that raises. *)
Lemma retry_step (f : exec response) (attempt : Z) (left : nat) (c c1 : cache)
    (e : exn) (l1 : list statement) :
  f c = (Raise e, c1, l1) ->
  retry_loop f attempt (S left) c =
  if retried e && (attempt <? max_retries - 1)
  then let '(o, c2, l2) := retry_loop f (attempt + 1) left c1 in
       (o, c2, (l1 ++ l2)%list)
  else (Ok (failure_response e), c1, l1).
Proof.
  intros E. cbn [retry_loop]. unfold try_except. rewrite E.
  cbn [any_exception].
  destruct e as [m|m|m|m|m]; cbn [retried failure_response str andb].
  - destruct (Py.contains "database is locked" (Py.lower m)); cbn [andb].
    + destruct (attempt <? max_retries - 1); [reflexivity|].
      cbn. now rewrite app_nil_r.
    + cbn. now rewrite app_nil_r.
  - destruct (attempt <? max_retries - 1); [reflexivity|].
    cbn. now rewrite app_nil_r.
  - cbn. now rewrite app_nil_r.
  - destruct (attempt <? max_retries - 1); [reflexivity|].
    cbn. now rewrite app_nil_r.
  - destruct (attempt <? max_retries - 1); [reflexivity|].
    cbn. now rewrite app_nil_r.
Qed.

Lemma retry_returns (f : exec response) (attempt : Z) (left : nat) (c c1 : cache)
    (r : response) (l1 : list statement) :
  f c = (Ok r, c1, l1) -> retry_loop f attempt (S left) c = (Ok r, c1, l1).
Proof. intros E. cbn [retry_loop]. unfold try_except. now rewrite E. Qed.

(** What the loop gives when attempts are left. *)
Lemma retry_loop_answers (f : exec response) (left : nat) (attempt : Z)
    (c : cache) :
  (max_retries - attempt <= Z.of_nat left) -> attempt < max_retries ->
  exists r c' lg,
    retry_loop f attempt left c = (Ok r, c', lg) /\
    ((exists c0 c1 l, f c0 = (Ok r, c1, l)) \/
     (exists e c0 c1 l, f c0 = (Raise e, c1, l) /\ r = failure_response e)).
Proof.
  revert attempt c. induction left as [|left IH]; intros attempt c Hl Ha.
  - unfold max_retries in *. lia.
  - destruct (f c) as [[[r|e] c1] l1] eqn:E.
    + rewrite (retry_returns f attempt left c c1 r l1 E).
      exists r, c1, l1. split; [reflexivity|]. left. now exists c, c1, l1.
    + rewrite (retry_step f attempt left c c1 e l1 E).
      destruct (retried e && (attempt <? max_retries - 1)) eqn:R.
      * apply andb_prop in R as [_ R]. apply Z.ltb_lt in R.
        destruct (IH (attempt + 1) c1) as (r & c2 & l2 & E2 & H);
          [unfold max_retries in *; lia | lia |].
        rewrite E2. exists r, c2, (l1 ++ l2)%list. split; [reflexivity | exact H].
      * exists (failure_response e), c1, l1. split; [reflexivity|].
        right. now exists e, c, c1, l1.
Qed.

(** X1. The decorated handler never raises: whatever the handler does, the
    decorator answers with a response, which is a response the handler
    returned or the failure response (status 500) of an exception the
    handler raised.  The line after the loop is never reached. *)
Theorem X1_decorated_handler_always_answers (f : exec response) (c : cache) :
  exists r c' lg,
    handle_db_errors f c = (Ok r, c', lg) /\
    ((exists c0 c1 l, f c0 = (Ok r, c1, l)) \/
     (exists e c0 c1 l, f c0 = (Raise e, c1, l) /\ r = failure_response e /\
                        status r = 500)).
Proof.
  unfold handle_db_errors.
  destruct (retry_loop_answers f (Z.to_nat max_retries) 0 c)
    as (r & c' & lg & E & H); [unfold max_retries; lia | unfold max_retries; lia|].
  exists r, c', lg. split; [exact E|].
  destruct H as [H|(e & c0 & c1 & l & F & ->)]; [now left | right].
  exists e, c0, c1, l. repeat split; [assumption|].
  now destruct e.
Qed.

Lemma persistent_failure (f : exec response) (e : exn)
    (l : list statement) (c : cache) :
  (forall c0, f c0 = (Raise e, c0, l)) ->
  handle_db_errors f c = (Ok (failure_response e), c, repeated (attempts e) l).
Proof.
  intros F. unfold handle_db_errors, attempts.
  change (Z.to_nat max_retries) with 3%nat.
  rewrite (retry_step f 0 2 c c e l (F c)).
  destruct (retried e) eqn:R; cbn [andb].
  - change (0 <? max_retries - 1) with true. cbn iota.
    rewrite (retry_step f (0 + 1) 1 c c e l (F c)). rewrite R. cbn [andb].
    change (0 + 1 <? max_retries - 1) with true. cbn iota.
    rewrite (retry_step f (0 + 1 + 1) 0 c c e l (F c)). rewrite R. cbn [andb].
    change (0 + 1 + 1 <? max_retries - 1) with false. cbn iota.
    cbn [repeated]. now rewrite app_nil_r.
  - cbn [repeated]. now rewrite app_nil_r.
Qed.

(** X2. The retry policy on a handler that fails the same way each time:
    it is run three times when the exception is a locked database or any
    exception other than a database or file error, and once otherwise; its
    statements are executed that many times over; and the answer is the
    failure response of the exception. *)
Theorem X2_persistent_failure_retry_policy (f : exec response) (e : exn)
    (l : list statement) (c : cache) :
  (forall c0, f c0 = (Raise e, c0, l)) ->
  handle_db_errors f c = (Ok (failure_response e), c, repeated (attempts e) l).
Proof. apply persistent_failure. Qed.

(** X3. A failure that passes: when the first run raises an exception
    that is retried and the second run returns, the decorator returns that
    response, with the statements of both runs executed. *)
Theorem X3_transient_failure_is_retried (f : exec response) (e : exn)
    (c c1 c2 : cache) (l1 l2 : list statement) (r : response) :
  f c = (Raise e, c1, l1) ->
  retried e = true ->
  f c1 = (Ok r, c2, l2) ->
  handle_db_errors f c = (Ok r, c2, (l1 ++ l2)%list).
Proof.
  intros F1 R F2. unfold handle_db_errors.
  change (Z.to_nat max_retries) with 3%nat.
  rewrite (retry_step f 0 2 c c1 e l1 F1), R. cbn [andb].
  change (0 <? max_retries - 1) with true. cbn iota.
  now rewrite (retry_returns f (0 + 1) 1 c1 c2 r l2 F2).
Qed.

End Decorator.

(* ================================================================== *)
(** * The catalog entries                                              *)
(* ================================================================== *)

Module CatalogEntries.
Import Store Exec ExecFacts Query App Statements ProofTools OrderFacts Catalog
       Properties.

Lemma string_leb_trans (a b c : string) :
  String.leb a b = true -> String.leb b c = true -> String.leb a c = true.
Proof. exact (text_leb_trans (Some a) (Some b) (Some c)). Qed.

(** MIN and MAX of a text column. *)
Lemma min_is_earliest (l : list Sql.text) :
  earliest l (fold_right text_min None l).
Proof.
  induction l as [|x l IH]; cbn [fold_right]; [intros s []|].
  destruct x as [s|], (fold_right text_min None l) as [m|];
    cbn [text_min earliest] in *.
  - destruct IH as [I B]. destruct (String.leb s m) eqn:E; cbn [earliest].
    + split; [now left|]. intros s' [H|H].
      * injection H as <-. destruct (String.leb_total s s); assumption.
      * apply (string_leb_trans s m s'); auto.
    + split; [now right|]. intros s' [H|H]; [|auto].
      injection H as <-. destruct (String.leb_total s m); congruence.
  - split; [now left|]. intros s' [H|H].
    + injection H as <-. destruct (String.leb_total s s); assumption.
    + now apply IH in H.
  - destruct IH as [I B]. split; [now right|].
    intros s' [H|H]; [discriminate | auto].
  - intros s' [H|H]; [discriminate | now apply IH in H].
Qed.

Lemma max_is_latest (l : list Sql.text) :
  latest l (fold_right text_max None l).
Proof.
  induction l as [|x l IH]; cbn [fold_right]; [intros s []|].
  destruct x as [s|], (fold_right text_max None l) as [m|];
    cbn [text_max latest] in *.
  - destruct IH as [I B]. destruct (String.leb s m) eqn:E; cbn [latest].
    + split; [now right|]. intros s' [H|H]; [|auto].
      now injection H as <-.
    + assert (Ems : String.leb m s = true)
        by (destruct (String.leb_total s m); congruence).
      split; [now left|]. intros s' [H|H].
      * injection H as <-. destruct (String.leb_total s s); assumption.
      * apply (string_leb_trans s' m s); auto.
  - split; [now left|]. intros s' [H|H].
    + injection H as <-. destruct (String.leb_total s s); assumption.
    + now apply IH in H.
  - destruct IH as [I B]. split; [now right|].
    intros s' [H|H]; [discriminate | auto].
  - intros s' [H|H]; [discriminate | now apply IH in H].
Qed.

Section Entries.
Variable upper : string -> string.
Variable isoformat_date : string -> option string.

(** The descriptor built for a table describes it. *)
Lemma inspect_describes (st : store) (n : string) (c : cache) :
  exists r lg,
    try_except (inspect_table upper isoformat_date st n) is_sqlite_error
      (fun _ => ret None) c = (Ok r, c, lg) /\
    match r with
    | Some d => describes st d
    | None => True
    end.
Proof.
  unfold try_except, inspect_table, pragma_table_info, bind at 1, bind at 1, log.
  destruct (Py.contains "]" n) eqn:B.
  { cbn. now eexists _, _. }
  destruct (find_table st n) as [t|] eqn:F.
  2:{ cbn. now eexists _, _. }
  destruct (fault t) as [msg|] eqn:Fa.
  { cbn. now eexists _, _. }
  unfold ret at 1. cbn iota beta.
  match goal with
  | |- context [if negb ?b then _ else _] => destruct b; cbn [negb]
  end.
  2:{ cbn. now eexists _, _. }
  unfold bind at 1, execute, bind at 1, log. rewrite B, F, Fa.
  destruct (find (fun c0 => negb (has_column t c0)) (columns_named CountSpan)).
  { cbn. now eexists _, _. }
  cbn [ret].
  destruct (Z.eqb_spec (Z.of_nat (List.length (rows t))) 0) as [Z0|Z0].
  - cbn. now eexists _, _.
  - cbn. eexists _, _. split; [reflexivity|].
    exists t. cbn [d_table_name d_record_count d_date_range fst snd].
    repeat split; try assumption; try lia.
    + apply min_is_earliest.
    + apply max_is_latest.
Qed.

Lemma scan_describes (st : store) (names : list string)
    (acc : list descriptor) (c : cache) :
  Forall (describes st) acc ->
  exists out lg,
    scan_tables upper isoformat_date st names acc c = (Ok out, c, lg) /\
    Forall (describes st) out.
Proof.
  revert acc. induction names as [|x names IH]; intros acc Ha.
  - cbn. now eexists _, _.
  - cbn [scan_tables]. unfold bind at 1.
    destruct (inspect_describes st x c) as (r & lg & E & Hr). rewrite E.
    destruct (IH (match r with Some d => (acc ++ [d])%list | None => acc end))
      as (out & lg' & E' & H).
    { destruct r as [d|]; [|assumption].
      apply Forall_app. split; [assumption | now constructor]. }
    rewrite E'. now eexists _, _.
Qed.

(** The first call: the listing is the scanned entries in order of
    instrument. *)
Lemma detect_describes (st : store) :
  exists listing lg,
    detect_trading_tables upper isoformat_date st None
    = (Ok listing, Some listing, lg) /\
    Forall (describes st) listing /\ Sorted by_instrument listing.
Proof.
  unfold detect_trading_tables, scan_catalog, try_except, get_connection.
  destruct (connect_error st) as [e|] eqn:Cn.
  { cbn. eexists _, _. split; [reflexivity|]. split; constructor. }
  unfold bind at 1, log. unfold bind at 1.
  destruct (scan_describes st
              (sort_by String.leb (map table_name (tables st))) [] None)
    as (out & lg & E & H); [constructor|].
  rewrite E. cbn. eexists _, _. split; [reflexivity|]. split.
  - rewrite Forall_forall in *. intros d Hd. apply H.
    now apply (Permutation_in _ (sort_by_perm instrument_sorted out)).
  - apply (sort_by_sorted instrument_sorted).
    intros a b. apply String.leb_total.
Qed.

End Entries.

(** X4. Every entry of the catalog describes a table of the store: the
    entry's record count is the number of rows of the table and is
    positive, and its date range runs from the least to the greatest
    timestamp text of the table (NULL timestamps apart). *)
Theorem X4_catalog_entries_describe_tables
    (upper : string -> string) (isoformat_date : string -> option string)
    (st : store) :
  exists listing lg,
    detect_trading_tables upper isoformat_date st None
    = (Ok listing, Some listing, lg) /\
    Forall (describes st) listing.
Proof.
  destruct (detect_describes upper isoformat_date st) as (v & lg & E & D & _).
  now exists v, lg.
Qed.

(** X5. The catalog lists its entries in ascending order of instrument
    name, whatever the order of the tables in the store. *)
Theorem X5_catalog_sorted_by_instrument
    (upper : string -> string) (isoformat_date : string -> option string)
    (st : store) :
  exists listing lg,
    detect_trading_tables upper isoformat_date st None
    = (Ok listing, Some listing, lg) /\
    Sorted by_instrument listing.
Proof.
  destruct (detect_describes upper isoformat_date st) as (v & lg & E & _ & S).
  now exists v, lg.
Qed.

(** X6. The catalog is computed once: the first call never raises and
    caches its listing, and every later call, and every later request for
    the instruments, returns that listing without a statement, whatever
    the store holds by then. *)
Theorem X6_catalog_computed_once
    (upper : string -> string) (isoformat_date : string -> option string)
    (st : store) :
  exists listing lg,
    detect_trading_tables upper isoformat_date st None
    = (Ok listing, Some listing, lg) /\
    forall st',
      detect_trading_tables upper isoformat_date st' (Some listing)
      = (Ok listing, Some listing, []) /\
      get_instruments upper isoformat_date st' (Some listing)
      = (Ok (mk_response 200 (JsonInstruments listing) None), Some listing, []).
Proof.
  destruct (detect_describes upper isoformat_date st) as (v & lg & E & _).
  exists v, lg. split; [exact E|]. intros st'.
  split; [reflexivity | apply instruments_cached].
Qed.

End CatalogEntries.

(* ================================================================== *)
(** * The aggregator: what the output accounts for                     *)
(* ================================================================== *)

Module Accounting.
Import Text TextFacts Store Exec Query App Statements ProofTools OrderFacts
       AggFacts GroupFacts PeriodFacts Properties.

(** A key that occurs once among distinct keys is counted once. *)
Lemma one_key_matches (x : Sql.text) (a : Z) (keys : list Sql.text) :
  NoDup keys -> In x keys ->
  total (fun k => if text_eqb x k then a else 0) keys = a.
Proof.
  unfold total. induction keys as [|k keys IH]; intros N I; [contradiction|].
  inversion N as [|? ? Nk Nr]; subst. cbn [map fold_right].
  destruct (text_eqb x k) eqn:E.
  - apply text_eqb_eq in E. subst k.
    assert (Z0 : fold_right Z.add 0
                   (map (fun k => if text_eqb x k then a else 0) keys) = 0).
    { clear IH N Nr I. induction keys as [|y keys IH]; [reflexivity|].
      cbn [map fold_right]. destruct (text_eqb x y) eqn:E.
      - apply text_eqb_eq in E. subst. exfalso. apply Nk. now left.
      - rewrite IH; [reflexivity|]. intros H. apply Nk. now right. }
    rewrite Z0. lia.
  - destruct I as [->|I].
    + assert (T : text_eqb x x = true) by (now apply text_eqb_eq). congruence.
    + rewrite IH by assumption. lia.
Qed.

Lemma total_plus {A} (g h : A -> Z) (l : list A) :
  total (fun x => g x + h x) l = total g l + total h l.
Proof.
  unfold total. induction l as [|x l IH]; cbn [map fold_right]; lia.
Qed.

Lemma total_ext {A} (g h : A -> Z) (l : list A) :
  (forall x, g x = h x) -> total g l = total h l.
Proof.
  intros E. unfold total. f_equal. apply map_ext. exact E.
Qed.

(** The partitions of distinct keys that cover the rows split the rows:
    what is summed over the partitions is the sum over the rows. *)
Lemma partitions_split (g : bar_row -> Z) (P : Sql.text -> Sql.text)
    (keys : list Sql.text) (cte : list bar_row) :
  NoDup keys ->
  (forall r, In r cte -> In (P (bar_end_datetime r)) keys) ->
  total (fun k => total g (partition_of P k cte)) keys = total g cte.
Proof.
  intros N. induction cte as [|r cte IH]; intros C.
  - clear N C. unfold partition_of, total. cbn [filter map fold_right].
    induction keys as [|k keys IHk]; [reflexivity|].
    cbn [map fold_right]. now rewrite IHk.
  - rewrite (total_ext _
               (fun k => (if text_eqb (P (bar_end_datetime r)) k then g r else 0)
                         + total g (partition_of P k cte))).
    + rewrite total_plus, IH by (intros x Hx; apply C; now right).
      rewrite one_key_matches; [|assumption | apply C; now left].
      unfold total. cbn [map fold_right]. reflexivity.
    + intros k. unfold partition_of. cbn [filter].
      destruct (text_eqb (P (bar_end_datetime r)) k); unfold total;
        cbn [map fold_right]; lia.
Qed.

Lemma total_ones {A} (l : list A) : total (fun _ => 1) l = Z.of_nat (List.length l).
Proof.
  unfold total. induction l as [|x l IH]; cbn [map fold_right List.length]; lia.
Qed.

Lemma total_map {A B} (g : B -> Z) (f : A -> B) (l : list A) :
  total g (map f l) = total (fun x => g (f x)) l.
Proof. unfold total. now rewrite map_map. Qed.

(** X7. Without a cut by LIMIT, and with volumes that fit the 64 bits of
    SUM, the output accounts for every bar in range once: the bar counts of
    the output bars add up to the number of bars in range, and their
    volumes to the volume of the bars in range (NULL as 0). *)
Theorem X7_aggregation_accounts_for_every_bar
    (st : store) (name timeframe : string) (t : table) (m : Z)
    (start_date end_date : option string) (limit : Z) (c : cache) :
  serves st name t ->
  dict_get timeframe intervals = Some m ->
  Sql.int64 limit = true ->
  limit < 0 \/ Z.of_nat (List.length (rows t)) <= limit ->
  volumes_fit (bars_in_range start_date end_date t) ->
  exists data,
    aggregate_timeframe_data st name timeframe start_date end_date limit c
    = (Ok data, c, [OnTable (aggregation_kind m) name]) /\
    bars_counted data
    = Z.of_nat (List.length (bars_in_range start_date end_date t)) /\
    volume_counted data = volume_total (bars_in_range start_date end_date t).
Proof.
  intros S D B NoCut _. eexists.
  split; [now apply (aggregate_ok st name timeframe t m)|].
  unfold grouped_select, bars_in_range.
  set (cte := filter (where_clause (date_conditions start_date end_date)) (rows t)).
  set (keys := group_keys (map (fun r => period_of m (bar_end_datetime r)) cte)).
  assert (L : Sql.limit limit
                (map (fun k => aggregate_group k (partition_of (period_of m) k cte))
                   keys)
              = map (fun k => aggregate_group k (partition_of (period_of m) k cte))
                  keys).
  { apply limit_all. destruct NoCut as [H|H]; [now left | right].
    rewrite length_map.
    pose proof (group_keys_length
                  (map (fun r => period_of m (bar_end_datetime r)) cte)) as H1.
    rewrite length_map in H1. fold keys in H1.
    pose proof (filter_length_le
                  (where_clause (date_conditions start_date end_date)) (rows t)).
    fold cte in H0. lia. }
  rewrite L. clear L.
  assert (N : NoDup keys) by (apply sorted_nodup, group_keys_sorted).
  assert (C : forall r, In r cte -> In (period_of m (bar_end_datetime r)) keys).
  { intros r Hr. apply group_keys_in.
    now apply (in_map (fun r => period_of m (bar_end_datetime r))). }
  split.
  - unfold bars_counted. 
    match goal with |- fold_right Z.add 0 (map ?g ?l) = _ =>
      change (fold_right Z.add 0 (map g l)) with (total g l) end.
    rewrite !total_map. cbn [aggregated_point Point.bar_count aggregate_group
                               r_bar_count].
    rewrite <- total_ones.
    rewrite <- (partitions_split (fun _ => 1) (period_of m) keys cte N C).
    apply total_ext. intros k. now rewrite total_ones.
  - unfold volume_counted, volume_total.
    match goal with |- fold_right Z.add 0 (map ?g ?l) = fold_right Z.add 0 (map ?h ?k) =>
      change (total g l = total h k) end.
    rewrite !total_map. cbn [aggregated_point Point.volume aggregate_group r_volume].
    rewrite <- (partitions_split (fun r => Py.number_or_0 (volume r))
                  (period_of m) keys cte N C).
    apply total_ext. intros k. rewrite sql_sum_spec, map_map. reflexivity.
Qed.

(** X8. Aggregation keeps prices coherent: when every bar in range has its
    four prices, with the open and the close between the low and the high,
    and the volumes fit the 64 bits of SUM, every output bar has its open
    and its close between its low and its high. *)
Theorem X8_aggregation_keeps_prices_coherent
    (st : store) (name timeframe : string) (t : table) (m : Z)
    (start_date end_date : option string) (limit : Z) (c : cache) :
  serves st name t ->
  dict_get timeframe intervals = Some m ->
  Sql.int64 limit = true ->
  (forall r, In r (bars_in_range start_date end_date t) -> coherent_bar r) ->
  volumes_fit (bars_in_range start_date end_date t) ->
  exists data,
    aggregate_timeframe_data st name timeframe start_date end_date limit c
    = (Ok data, c, [OnTable (aggregation_kind m) name]) /\
    forall p, In p data -> coherent_point p.
Proof.
  intros S D B Co _. eexists.
  split; [now apply (aggregate_ok st name timeframe t m)|].
  intros p Hp. apply in_map_iff in Hp as (g & <- & Hg).
  apply grouped_select_in in Hg. cbv zeta in Hg. destruct Hg as [Hk Eg].
  fold (bars_in_range start_date end_date t) in Hk, Eg.
  set (part := partition_of (period_of m) (period g)
                 (bars_in_range start_date end_date t)) in *.
  assert (N : part <> []) by (now apply partition_nonempty).
  assert (Cp : forall r, In r part -> coherent_bar r).
  { intros r Hr. apply Co. unfold part in Hr. apply partition_in in Hr. tauto. }
  destruct (group_open (period g) part N) as (f & If & _ & Ef).
  destruct (group_close (period g) part N) as (z & Iz & _ & Ez).
  pose proof (sql_max_spec (map high_price part)) as Hmax.
  pose proof (sql_min_spec (map low_price part)) as Hmin.
  unfold coherent_point.
  cbn [aggregated_point Point.open Point.high Point.low Point.close].
  rewrite Eg. rewrite Ef, Ez.
  cbn [aggregate_group r_high_price r_low_price].
  destruct (Cp f If) as (fo & fh & fl & fc & Fo & Fh & Fl & Fc & F1 & F2).
  destruct (Cp z Iz) as (zo & zh & zl & zc & Zo & Zh & Zl & Zc & Z1 & Z2).
  assert (Hf : In (Some fh) (map high_price part))
    by (rewrite <- Fh; now apply in_map).
  assert (Hz : In (Some zh) (map high_price part))
    by (rewrite <- Zh; now apply in_map).
  assert (Lf : In (Some fl) (map low_price part))
    by (rewrite <- Fl; now apply in_map).
  assert (Lz : In (Some zl) (map low_price part))
    by (rewrite <- Zl; now apply in_map).
  destruct (sql_max (map high_price part)) as [hi|];
    [|exfalso; exact (Hmax fh Hf)].
  destruct (sql_min (map low_price part)) as [lo|];
    [|exfalso; exact (Hmin fl Lf)].
  destruct Hmax as [_ Hmax]. destruct Hmin as [_ Hmin].
  pose proof (Hmax fh Hf). pose proof (Hmax zh Hz).
  pose proof (Hmin fl Lf). pose proof (Hmin zl Lz).
  rewrite Fo, Zc. cbn [Py.number_or_0]. lia.
Qed.

End Accounting.

(* ================================================================== *)
(** * The date window of the queries                                   *)
(* ================================================================== *)

Module DateWindow.
Import Text TextFacts Store Exec Query App Statements ProofTools OrderFacts
       Properties.

Lemma fmt_date_truthy (a : time_value) :
  valid_time_value a = true -> Py.truthy (Some (fmt_date a)) = true.
Proof.
  intros V. apply valid_fields in V. unfold fmt_date.
  rewrite printf_4 by lia. reflexivity.
Qed.

Lemma valid_end_of_day (t : time_value) :
  valid_time_value t = true -> valid_time_value (end_of_day t) = true.
Proof.
  unfold valid_time_value, end_of_day, in_range.
  cbn [year month day hour minute second]. intros H. lia.
Qed.

(** The parameters bound to the conditions are timestamps as strftime
    writes them: the first and the last second of the day. *)
Lemma lower_bound_text (a : time_value) :
  fmt_date a ++ " 00:00:00" = fmt_datetime (midnight a).
Proof. reflexivity. Qed.

Lemma upper_bound_text (b : time_value) :
  fmt_date b ++ " 23:59:59" = fmt_datetime (end_of_day b).
Proof. reflexivity. Qed.

Lemma leb_compare (x y : string) :
  String.leb x y = true <-> String.compare x y <> Gt.
Proof.
  unfold String.leb. destruct (String.compare x y); split; congruence.
Qed.

Lemma from_midnight (a t : time_value) :
  valid_time_value t = true ->
  (chrono_compare (midnight a) t <> Gt <-> day_leq a t).
Proof.
  intros V. apply valid_fields in V.
  unfold day_leq, chrono_compare, midnight, then_compare.
  cbn [year month day hour minute second]. change (0 ?= 0) with Eq.
  destruct (Z.compare_spec (year a) (year t)); try tauto.
  destruct (Z.compare_spec (month a) (month t)); try tauto.
  destruct (Z.compare_spec (day a) (day t)); try tauto.
  destruct (Z.compare_spec 0 (hour t)); try (split; congruence); try lia.
  destruct (Z.compare_spec 0 (minute t)); try (split; congruence); try lia.
  destruct (Z.compare_spec 0 (second t)); try (split; congruence); lia.
Qed.

Lemma to_end_of_day (t b : time_value) :
  valid_time_value t = true ->
  (chrono_compare t (end_of_day b) <> Gt <-> day_leq t b).
Proof.
  intros V. apply valid_fields in V.
  unfold day_leq, chrono_compare, midnight, end_of_day, then_compare.
  cbn [year month day hour minute second]. change (0 ?= 0) with Eq.
  destruct (Z.compare_spec (year t) (year b)); try tauto.
  destruct (Z.compare_spec (month t) (month b)); try tauto.
  destruct (Z.compare_spec (day t) (day b)); try tauto.
  destruct (Z.compare_spec (hour t) 23); try (split; congruence); try lia.
  destruct (Z.compare_spec (minute t) 59); try (split; congruence); try lia.
  destruct (Z.compare_spec (second t) 59); try (split; congruence); lia.
Qed.

Lemma at_least_day (a t : time_value) :
  valid_time_value a = true -> valid_time_value t = true ->
  (condition_holds (Some (fmt_datetime t)) (AtLeast (fmt_date a ++ " 00:00:00"))
   = true <-> day_leq a t).
Proof.
  intros Va Vt. cbn [condition_holds]. rewrite lower_bound_text, leb_compare.
  rewrite fmt_datetime_order by (try apply valid_midnight; assumption).
  now apply from_midnight.
Qed.

Lemma at_most_day (t b : time_value) :
  valid_time_value b = true -> valid_time_value t = true ->
  (condition_holds (Some (fmt_datetime t)) (AtMost (fmt_date b ++ " 23:59:59"))
   = true <-> day_leq t b).
Proof.
  intros Vb Vt. cbn [condition_holds]. rewrite upper_bound_text, leb_compare.
  rewrite fmt_datetime_order by (try apply valid_end_of_day; assumption).
  now apply to_end_of_day.
Qed.

(** X9. The date window is by calendar day, both ends included: with the
    bounds given as dates, a bar whose timestamp is written as strftime
    writes it is in range exactly when its day is the start day or later
    and the end day or earlier; an absent bound bounds nothing. *)
Theorem X9_date_window_by_calendar_day
    (lo hi : option time_value) (t : table) (r : bar_row) (tv : time_value) :
  given_days_valid lo hi ->
  valid_time_value tv = true ->
  bar_end_datetime r = Some (fmt_datetime tv) ->
  (In r (bars_in_range (option_map fmt_date lo) (option_map fmt_date hi) t)
   <-> In r (rows t) /\ within_days lo hi tv).
Proof.
  intros [Vlo Vhi] Vt Ts. unfold bars_in_range, within_days.
  rewrite filter_In. apply and_iff_compat_l.
  unfold where_clause, date_conditions. rewrite Ts.
  destruct lo as [a|], hi as [b|]; cbn [option_map];
    rewrite ?fmt_date_truthy by assumption; cbn [Py.truthy app forallb];
    rewrite ?andb_true_iff, ?at_least_day, ?at_most_day by assumption;
    tauto.
Qed.

Lemma compare_after_prefix (p x y : string) :
  String.compare (p ++ x) (p ++ y) = String.compare x y.
Proof.
  induction p as [|c p IH]; [reflexivity|]. cbn [append].
  now rewrite compare_same_head.
Qed.

Lemma parse_fmt_iso (t : time_value) :
  valid_time_value t = true -> parse_time_value (fmt_iso t) = Some t.
Proof.
  intros V. pose proof (valid_fields t V) as F.
  unfold parse_time_value, fmt_iso.
  rewrite parse_ymd_fmt by assumption.
  cbn [obind append Ascii.eqb Bool.eqb orb].
  rewrite <- (append_nil_r (printf_0d 2 (second t))).
  rewrite parse_hms_fmt by lia. cbn [obind skip_fraction skip_zulu].
  destruct t; cbn [year month day hour minute second] in *. now rewrite V.
Qed.

(** X10. The window compares texts.  A bar of day [d] stamped with a [T]
    between date and time is read by the queries as a bar of that day, and
    is out of range when [d] is the end date; a bar stamped with the date
    alone is read as a bar of that day, and is out of range when [d] is the
    start date. *)
Theorem X10_date_window_misses_other_forms
    (d : time_value) (t : table) (r : bar_row) (other : option string) :
  valid_time_value d = true ->
  (bar_end_datetime r = Some (fmt_iso d) ->
   period_daily (bar_end_datetime r) = Some (fmt_date d) /\
   ~ In r (bars_in_range other (Some (fmt_date d)) t)) /\
  (bar_end_datetime r = Some (fmt_date d) ->
   period_daily (bar_end_datetime r) = Some (fmt_date d) /\
   ~ In r (bars_in_range (Some (fmt_date d)) other t)).
Proof.
  intros V. split; intros Ts; rewrite Ts.
  - split.
    + unfold period_daily, Sql.date. now rewrite parse_fmt_iso.
    + unfold bars_in_range. rewrite filter_In. intros [_ W].
      unfold where_clause, date_conditions in W.
      rewrite forallb_app, (fmt_date_truthy d V) in W.
      apply andb_prop in W as [_ W]. cbn [forallb] in W.
      rewrite Ts, andb_true_r in W. cbn [condition_holds] in W.
      apply leb_compare in W. apply W. unfold fmt_iso.
      now rewrite compare_after_prefix.
  - split.
    + unfold period_daily, Sql.date. rewrite parse_fmt_date by assumption.
      reflexivity.
    + unfold bars_in_range. rewrite filter_In. intros [_ W].
      unfold where_clause, date_conditions in W.
      rewrite forallb_app, (fmt_date_truthy d V) in W.
      apply andb_prop in W as [W _]. cbn [forallb] in W.
      rewrite Ts, andb_true_r in W. cbn [condition_holds] in W.
      apply leb_compare in W. apply W.
      rewrite <- (append_nil_r (fmt_date d)) at 2.
      now rewrite compare_after_prefix.
Qed.

End DateWindow.

(* ================================================================== *)
(** * The routes: what a response can be                               *)
(* ================================================================== *)

Module Answers.
Import Store Exec ExecFacts Query App Statements ProofTools OrderFacts AggFacts
       GroupFacts Catalog Facade Properties Decorator.

Lemma yields_ret {A} (P : A -> Prop) (a : A) : P a -> yields P (ret a).
Proof. intros H c a' c' l E. injection E as <- _ _. exact H. Qed.

Lemma yields_raise {A} (P : A -> Prop) (e : exn) : yields P (@raise A e).
Proof. intros c a c' l E. discriminate E. Qed.

Lemma yields_bind {A B} (Q : A -> Prop) (P : B -> Prop) (m : exec A)
    (f : A -> exec B) :
  yields Q m -> (forall a, Q a -> yields P (f a)) -> yields P (bind m f).
Proof.
  intros Hm Hf c b c' l. unfold bind.
  destruct (m c) as [[[a|e] c1] l1] eqn:E; [|discriminate].
  destruct (f a c1) as [[o c2] l2] eqn:E2. intros H. injection H as -> _ _.
  exact (Hf a (Hm c a c1 l1 E) c1 b c2 l2 E2).
Qed.

Lemma yields_try {A} (P : A -> Prop) (m : exec A) (hs : exn -> bool)
    (h : exn -> exec A) :
  yields P m -> (forall e, yields P (h e)) -> yields P (try_except m hs h).
Proof.
  intros Hm Hh c a c' l. unfold try_except.
  destruct (m c) as [[[a0|e] c1] l1] eqn:E.
  - intros H. injection H as <- _ _. exact (Hm c a0 c1 l1 E).
  - destruct (hs e); [|discriminate].
    destruct (h e c1) as [[o c2] l2] eqn:E2. intros H. injection H as -> _ _.
    exact (Hh e c1 a c2 l2 E2).
Qed.

Lemma yields_connection {A} (P : A -> Prop) (st : store) (body : exec A) :
  yields P body -> yields P (get_connection st body).
Proof.
  intros H. unfold get_connection. destruct (connect_error st).
  - apply yields_raise.
  - exact H.
Qed.

Lemma yields_any {A} (m : exec A) : yields (fun _ => True) m.
Proof. intros c a c' l _. exact I. Qed.

(** What the handler's responses and the failure responses satisfy, the
    responses of the decorated handler satisfy. *)
Lemma yields_decorated (Q : response -> Prop) (f : exec response) :
  yields Q f -> (forall e, Q (failure_response e)) ->
  yields Q (handle_db_errors f).
Proof.
  intros Hf He c r c' l E.
  destruct (retry_loop_answers f (Z.to_nat max_retries) 0 c)
    as (r' & c1 & lg & E' & H); [unfold max_retries; lia | unfold max_retries; lia|].
  unfold handle_db_errors in E. rewrite E' in E. injection E as <- _ _.
  destruct H as [(c0 & c2 & l0 & F)|(e & c0 & c2 & l0 & F & ->)].
  - exact (Hf c0 r' c2 l0 F).
  - apply He.
Qed.

Lemma decorated_answers (f : exec response) (c c' : cache)
    (o : outcome response) (lg : list statement) :
  handle_db_errors f c = (o, c', lg) -> exists r, o = Ok r.
Proof.
  intros E.
  destruct (retry_loop_answers f (Z.to_nat max_retries) 0 c)
    as (r' & c1 & lg' & E' & _); [unfold max_retries; lia | unfold max_retries; lia|].
  unfold handle_db_errors in E. rewrite E' in E. injection E as <- _ _.
  now exists r'.
Qed.

Lemma clamp_yields (args : request_args) :
  yields (fun n => n = effective_limit args) (clamp_limit args).
Proof.
  unfold clamp_limit, effective_limit. destruct (arg_limit args) as [s|].
  - destruct (Py.int s); [now apply yields_ret | apply yields_raise].
  - now apply yields_ret.
Qed.

Lemma limit_length {A} (n : Z) (l : list A) :
  0 <= n -> Z.of_nat (List.length (Sql.limit n l)) <= n.
Proof.
  intros H. unfold Sql.limit. destruct (Z.ltb_spec n 0); [lia|].
  rewrite length_firstn. lia.
Qed.

Lemma aggregate_yields (st : store) (name timeframe : string)
    (start_date end_date : option string) (limit : Z) :
  0 <= limit ->
  yields (fun data => Z.of_nat (List.length data) <= limit)
    (aggregate_timeframe_data st name timeframe start_date end_date limit).
Proof.
  intros H. unfold aggregate_timeframe_data.
  destruct (dict_get timeframe intervals) as [m|]; [|apply yields_raise].
  eapply yields_bind with
    (Q := fun rows => Z.of_nat (List.length rows) <= limit).
  - apply yields_connection.
    eapply yields_bind; [apply yields_any|]. intros t _.
    eapply yields_bind; [apply yields_any|]. intros _ _.
    apply yields_ret. unfold grouped_select. now apply limit_length.
  - intros rows Hr. apply yields_ret. now rewrite length_map.
Qed.

Lemma no_rows_in_error (m : string) (code : Z) :
  response_rows (error_response m code) = 0.
Proof. reflexivity. Qed.

Lemma no_rows_in_failure (e : exn) : response_rows (failure_response e) = 0.
Proof. now destruct e. Qed.

Lemma data_view_rows (st : store) (name : string) (args : request_args) :
  0 <= effective_limit args ->
  yields (fun r => response_rows r <= effective_limit args)
    (get_data_view st name args).
Proof.
  intros H. unfold get_data_view.
  destruct (valid_table_name name); cbn [negb];
    [|apply yields_ret; now rewrite no_rows_in_error].
  eapply yields_bind; [apply yields_any|]. intros found _.
  destruct found; cbn [negb];
    [|apply yields_ret; now rewrite no_rows_in_error].
  eapply yields_bind; [apply clamp_yields|]. intros limit ->.
  apply yields_try; [|intros e; apply yields_ret; now rewrite no_rows_in_error].
  eapply yields_bind with
    (Q := fun data => Z.of_nat (List.length data) <= effective_limit args).
  - destruct (args_get (arg_timeframe args) "1min" =? "raw")%string.
    + eapply yields_bind with
        (Q := fun rows => Z.of_nat (List.length rows) <= effective_limit args).
      * apply yields_connection.
        eapply yields_bind; [apply yields_any|]. intros t _.
        eapply yields_bind; [apply yields_any|]. intros _ _.
        apply yields_ret. unfold raw_select. now apply limit_length.
      * intros rows Hr. apply yields_ret. now rewrite length_map.
    + now apply aggregate_yields.
  - intros data Hd. now apply yields_ret.
Qed.

Lemma download_view_rows (st : store) (name : string) (args : request_args) :
  0 <= effective_limit args ->
  yields (fun r => response_rows r <= effective_limit args)
    (download_data_view st name args).
Proof.
  intros H. unfold download_data_view.
  destruct (valid_table_name name); cbn [negb];
    [|apply yields_ret; now rewrite no_rows_in_error].
  match goal with
  | |- context [if negb ?b then _ else _] => destruct b; cbn [negb]
  end; [|apply yields_ret; now rewrite no_rows_in_error].
  eapply yields_bind; [apply clamp_yields|]. intros limit ->.
  eapply yields_bind; [apply yields_any|]. intros found _.
  destruct found; cbn [negb];
    [|apply yields_ret; now rewrite no_rows_in_error].
  apply yields_try; [|intros e; apply yields_ret; now rewrite no_rows_in_error].
  eapply yields_bind with
    (Q := fun data => Z.of_nat (List.length data) <= effective_limit args).
  - destruct (args_get (arg_timeframe args) "1min" =? "raw")%string.
    + apply yields_connection.
      eapply yields_bind; [apply yields_any|]. intros t _.
      eapply yields_bind; [apply yields_any|]. intros _ _.
      apply yields_ret. rewrite length_map. unfold raw_select.
      now apply limit_length.
    + eapply yields_bind; [now apply aggregate_yields|].
      intros data Hd. apply yields_ret. now rewrite length_map.
  - intros data Hd. now apply yields_ret.
Qed.

(** X11. A limit that is absent, or not negative, bounds the response: on
    either route the decorated handler answers, and the rows of its
    response are at most the limit passed to the query, which is at most
    the maximum of 50000. *)
Theorem X11_response_bounded_by_limit
    (st : store) (name : string) (args : request_args) (c c' : cache)
    (o : outcome response) (lg : list statement) :
  0 <= effective_limit args ->
  get_data st name args c = (o, c', lg) \/
  download_data st name args c = (o, c', lg) ->
  exists r, o = Ok r /\
            response_rows r <= effective_limit args <= MAX_DATA_POINTS.
Proof.
  intros H [E|E]; destruct (decorated_answers _ _ _ _ _ E) as (r & ->);
    exists r; (split; [reflexivity|]); (split; [|apply effective_limit_le]).
  - refine (yields_decorated _ _ (data_view_rows st name args H) _ c r c' lg E).
    intros e. rewrite no_rows_in_failure. exact H.
  - refine (yields_decorated _ _ (download_view_rows st name args H) _ c r c' lg E).
    intros e. rewrite no_rows_in_failure. exact H.
Qed.

End Answers.

(* ================================================================== *)
(** * The routes: status codes and the rows returned                   *)
(* ================================================================== *)

Module Routes.
Import Store Exec ExecFacts Query App Statements ProofTools OrderFacts AggFacts
       GroupFacts Catalog Facade Properties Decorator Answers.

(** A block under [except Exception] answers. *)
Lemma guarded_answers (m : exec response) (c : cache) :
  yields (fun r => status r = 200) m ->
  exists r c' l,
    try_except m any_exception (fun e => ret (error_response (str e) 500)) c
    = (Ok r, c', l) /\ (status r = 200 \/ status r = 500).
Proof.
  intros Y. unfold try_except.
  destruct (m c) as [[[r|e] c1] l1] eqn:E.
  - exists r, c1, l1. split; [reflexivity|]. left. exact (Y c r c1 l1 E).
  - cbn. eexists _, _, _. split; [reflexivity|]. now right.
Qed.

Lemma found_flag (st : store) (name : string) :
  match find_table st name with Some _ => true | None => false end = true <->
  find_table st name <> None.
Proof. destruct (find_table st name); split; congruence. Qed.

Lemma data_view_status (st : store) (name : string) (args : request_args)
    (c : cache) :
  connect_error st = None -> limit_parses args ->
  exists r c' l,
    get_data_view st name args c = (Ok r, c', l) /\ name_status st name r.
Proof.
  intros Cn Lp. unfold get_data_view, name_status.
  destruct (valid_table_name name) eqn:V; cbn [negb].
  { unfold bind. rewrite (table_exists_ok st name c Cn).
    destruct (find_table st name) as [t|] eqn:F; cbn [negb].
    - rewrite (clamp_limit_ok args c Lp).
      match goal with
      | |- context [try_except ?m _ _ c] =>
          destruct (guarded_answers m c) as (r & c' & l & E & S)
      end.
      { eapply yields_bind; [apply yields_any|]. intros d _.
        now apply yields_ret. }
      rewrite E. eexists _, _, _. split; [reflexivity|].
      cbn [In]. destruct S as [S|S]; rewrite S; repeat split;
        try discriminate; try tauto; try (intros [_ H]; discriminate H).
    - cbn. eexists _, _, _. split; [reflexivity|]. cbn [status error_response].
      cbn [In]. repeat split; try discriminate; try tauto. }
  cbn. eexists _, _, _. split; [reflexivity|]. cbn [status error_response In].
  repeat split; try discriminate; try tauto. intros [H _]. discriminate H.
Qed.

Lemma download_view_status (st : store) (name : string) (args : request_args)
    (c : cache) :
  connect_error st = None -> limit_parses args -> format_ok args = true ->
  exists r c' l,
    download_data_view st name args c = (Ok r, c', l) /\ name_status st name r.
Proof.
  intros Cn Lp Fo. unfold download_data_view, name_status.
  destruct (valid_table_name name) eqn:V; cbn [negb].
  { unfold format_ok in Fo. cbv zeta in Fo. rewrite Fo. cbn [negb].
    unfold bind at 1. rewrite (clamp_limit_ok args c Lp).
    unfold bind at 1. rewrite (table_exists_ok st name c Cn).
    destruct (find_table st name) as [t|] eqn:F; cbn [negb].
    - match goal with
      | |- context [try_except ?m _ _ c] =>
          destruct (guarded_answers m c) as (r & c' & l & E & S)
      end.
      { eapply yields_bind; [apply yields_any|]. intros d _.
        now apply yields_ret. }
      rewrite E. eexists _, _, _. split; [reflexivity|].
      cbn [In]. destruct S as [S|S]; rewrite S; repeat split;
        try discriminate; try tauto; try (intros [_ H]; discriminate H).
    - cbn. eexists _, _, _. split; [reflexivity|]. cbn [status error_response].
      cbn [In]. repeat split; try discriminate; try tauto. }
  cbn. eexists _, _, _. split; [reflexivity|]. cbn [status error_response In].
  repeat split; try discriminate; try tauto. intros [H _]. discriminate H.
Qed.

(** X12. The status tells what is wrong with the table name.  With a
    connection to be had and a limit that reads (and, for a download, a
    supported format), either route answers 400 exactly for a name that
    fails the format check, 404 exactly for a name that passes it and names
    no table of the store, and 200 or 500 otherwise. *)
Theorem X12_status_tells_the_table_name
    (st : store) (name : string) (args : request_args) (c c' : cache)
    (o : outcome response) (lg : list statement) :
  connect_error st = None ->
  limit_parses args ->
  get_data st name args c = (o, c', lg) \/
  (format_ok args = true /\ download_data st name args c = (o, c', lg)) ->
  exists r, o = Ok r /\ name_status st name r.
Proof.
  intros Cn Lp [E|[Fo E]].
  - destruct (data_view_status st name args c Cn Lp) as (r & c1 & l & V & S).
    unfold get_data in E. rewrite (handle_ok _ _ _ _ _ V) in E.
    injection E as <- _ _. now exists r.
  - destruct (download_view_status st name args c Cn Lp Fo)
      as (r & c1 & l & V & S).
    unfold download_data in E. rewrite (handle_ok _ _ _ _ _ V) in E.
    injection E as <- _ _. now exists r.
Qed.

(** X13. A limit that [int] cannot read is answered 500, not 400, with
    the message of the ValueError ("invalid literal for int() with base
    10:" and the text as [repr] quotes it, or that the text exceeds the
    limit of 4300 digits), after three runs of the handler: the data
    route, which parses the limit after the table lookup, looks the table
    up three times; the download route, which parses it first, executes
    nothing. *)
Theorem X13_unreadable_limit_is_a_server_error
    (st : store) (name : string) (args : request_args) (s : string)
    (c : cache) :
  valid_table_name name = true ->
  connect_error st = None ->
  find_table st name <> None ->
  arg_limit args = Some s ->
  Py.int s = None ->
  get_data st name args c
  = (Ok (error_response (unreadable_limit s) 500), c,
     [MasterFind name; MasterFind name; MasterFind name]) /\
  (format_ok args = true ->
   download_data st name args c
   = (Ok (error_response (unreadable_limit s) 500), c, [])).
Proof.
  intros V Cn F La Li.
  assert (Cl : forall c0, clamp_limit args c0
                 = (Raise (ValueError (Py.int_error s)), c0, [])).
  { intros c0. unfold clamp_limit. now rewrite La, Li. }
  split.
  - unfold get_data.
    rewrite (persistent_failure _ (ValueError (Py.int_error s))
               [MasterFind name]).
    + reflexivity.
    + intros c0. unfold get_data_view. rewrite V. cbn [negb].
      eapply bind_ok; [now apply table_exists_ok | | reflexivity].
      apply found_flag in F. rewrite F. cbn [negb].
      apply bind_raise, Cl.
  - intros Fo. unfold download_data.
    rewrite (persistent_failure _ (ValueError (Py.int_error s)) []).
    + reflexivity.
    + intros c0. unfold download_data_view. rewrite V. cbn [negb].
      unfold format_ok in Fo. cbv zeta in Fo. rewrite Fo. cbn [negb].
      apply bind_raise, Cl.
Qed.

End Routes.

(* ================================================================== *)
(** * The routes: the rows of a successful response                    *)
(* ================================================================== *)

Module Rows.
Import Store Exec ExecFacts Query App Statements ProofTools OrderFacts AggFacts
       GroupFacts Catalog Facade Properties Decorator Answers Routes.

Lemma sorted_map {A B} (R : A -> A -> Prop) (S : B -> B -> Prop) (f : A -> B)
    (l : list A) :
  (forall a b, R a b -> S (f a) (f b)) -> Sorted R l -> Sorted S (map f l).
Proof.
  intros H. induction 1 as [|x l _ IH Hd]; cbn [map]; constructor; [exact IH|].
  destruct Hd; cbn [map]; constructor. now apply H.
Qed.







End Rows.

(* ================================================================== *)
(** * The connections of the threads                                   *)
(* ================================================================== *)

Module PoolFacts.
Import Store Exec Pool.

Lemma run_cons (ev : event) (trace : list event) (m : manager) :
  run (ev :: trace) m = run trace (step m ev).
Proof. reflexivity. Qed.

(** Setting the slot of one thread changes the holders by that thread. *)
Lemma holders_set (ths : list thread) (th : thread) (v : option connection)
    (m : manager) :
  NoDup ths ->
  Z.of_nat (List.length (holders ths (set_local th v m)))
  = Z.of_nat (List.length (holders ths m))
    + (if in_dec Nat.eq_dec th ths
       then (match v with Some _ => 1 | None => 0 end)
            - (match _local m th with Some _ => 1 | None => 0 end)
       else 0).
Proof.
  unfold holders. induction ths as [|x ths IH]; intros N; [reflexivity|].
  inversion N as [|? ? Nx Nr]; subst. specialize (IH Nr).
  cbn [filter set_local _local].
  destruct (Nat.eqb_spec x th) as [->|Ne].
  - destruct (in_dec Nat.eq_dec th (th :: ths)) as [_|C]; [|exfalso; apply C; now left].
    destruct (in_dec Nat.eq_dec th ths) as [C|_]; [contradiction|].
    cbn [set_local _local] in IH.
    destruct v, (_local m th); cbn [List.length]; lia.
  - destruct (in_dec Nat.eq_dec th (x :: ths)) as [I|C];
      destruct (in_dec Nat.eq_dec th ths) as [I'|C'].
    + cbn [set_local _local] in IH.
      destruct (_local m x); cbn [List.length]; lia.
    + destruct I as [E|I]; [congruence | contradiction].
    + exfalso. apply C. now right.
    + cbn [set_local _local] in IH.
      destruct (_local m x); cbn [List.length]; lia.
Qed.

Lemma close_sound (th : thread) (close_raises : bool) (m : manager) :
  sound m -> sound (_close_connection th close_raises m).
Proof.
  intros [B H]. unfold _close_connection.
  destruct (_local m th) as [conn|] eqn:L; [|now split].
  assert (One : 1 <= _connection_count m).
  { specialize (H [th] ltac:(repeat constructor; intros [])).
    unfold holders in H. cbn [filter] in H. rewrite L in H. exact H. }
  destruct close_raises.
  - split; [exact B|]. intros ths N. rewrite holders_set by assumption.
    specialize (H ths N). rewrite L.
    cbn [set_local _connection_count].
    destruct (in_dec Nat.eq_dec th ths); cbv iota; lia.
  - split; [cbn; lia|]. intros ths N. rewrite holders_set by assumption.
    cbn [set_local set_count _local _connection_count]. rewrite L.
    change (holders ths (set_count (Z.max 0 (_connection_count m - 1)) m))
      with (holders ths m).
    destruct (in_dec Nat.eq_dec th ths) as [I|I]; cbv iota.
    + specialize (H ths N). lia.
    + specialize (H (th :: ths) ltac:(now constructor)).
      unfold holders in H. cbn [filter] in H. rewrite L in H.
      cbn [List.length] in H. fold (holders ths m) in H. lia.
Qed.

Lemma step_sound (m : manager) (ev : event) : sound m -> sound (step m ev).
Proof.
  intros S. destruct ev as [th connect|th body_raised close_raises|th close_raises];
    cbn [step].
  - pose proof S as [B H]. unfold enter.
    destruct (_local m th) as [conn|] eqn:L; [exact S|].
    destruct (Z.leb_spec (max_connections m) (_connection_count m)); [exact S|].
    destruct connect as [conn|e]; cbn [snd].
    + split; [cbn; lia|]. intros ths N. rewrite holders_set by assumption.
      cbn [set_local set_count _local _connection_count]. rewrite L.
      change (holders ths (set_count (_connection_count m + 1) m))
        with (holders ths m).
      specialize (H ths N). destruct (in_dec Nat.eq_dec th ths); cbv iota; lia.
    + split; [cbn; lia|]. intros ths N. specialize (H ths N).
      change (holders ths (set_count (_connection_count m + 1) m))
        with (holders ths m). cbn. lia.
  - unfold leave. destruct body_raised; [now apply close_sound | exact S].
  - now apply close_sound.
Qed.

Lemma step_limit (m : manager) (ev : event) :
  max_connections (step m ev) = max_connections m.
Proof.
  destruct ev as [th connect|th body_raised close_raises|th close_raises];
    cbn [step]; unfold enter, leave, close_all, _close_connection.
  - destruct (_local m th); [reflexivity|].
    destruct (max_connections m <=? _connection_count m); [reflexivity|].
    now destruct connect.
  - destruct body_raised; [|reflexivity].
    destruct (_local m th); [|reflexivity]. now destruct close_raises.
  - destruct (_local m th); [|reflexivity]. now destruct close_raises.
Qed.

Lemma run_sound (trace : list event) (m : manager) :
  sound m -> sound (run trace m) /\
             max_connections (run trace m) = max_connections m.
Proof.
  revert m. induction trace as [|ev trace IH]; intros m S; [now split|].
  rewrite run_cons. destruct (IH (step m ev) (step_sound m ev S)) as [S' E].
  split; [exact S'|]. now rewrite E, step_limit.
Qed.

(** X16. The pool keeps within its bound.  Whatever the threads do, in
    whatever order, the count stays between 0 and [max_connections], and
    the threads that hold a connection are never more than the count: no
    more than [max_connections] connections are held after any of their
    steps. *)
Theorem X16_pool_keeps_within_its_bound
    (path : string) (limit : Z) (trace : list event) (ths : list thread) :
  0 <= limit ->
  NoDup ths ->
  let m := run trace (fresh path limit) in
  0 <= _connection_count m <= limit /\
  Z.of_nat (List.length (holders ths m)) <= _connection_count m.
Proof.
  intros Hl N m.
  assert (S0 : sound (fresh path limit)).
  { split; [cbn; lia|]. intros l _. unfold holders, fresh. cbn [_local].
    induction l as [|x l IH]; [cbn; lia | exact IH]. }
  destruct (run_sound trace (fresh path limit) S0) as [[B H] E].
  fold m in B, H, E. rewrite E in B. split; [exact B | now apply H].
Qed.

(** Connections that fail while no thread holds one. *)
Lemma failed_connects_run (trace : list event) (m : manager) :
  (forall th, _local m th = None) -> Forall failed_connect trace ->
  let m' := run trace m in
  (forall th, _local m' th = None) /\
  max_connections m' = max_connections m /\
  _connection_count m'
  = (if max_connections m <=? _connection_count m then _connection_count m
     else Z.min (max_connections m)
            (_connection_count m + Z.of_nat (List.length trace))).
Proof.
  revert m. induction trace as [|ev trace IH]; intros m L F.
  - cbn. repeat split; [exact L|].
    destruct (Z.leb_spec (max_connections m) (_connection_count m)); lia.
  - inversion F as [|? ? (th & e & ->) F']; subst. rewrite run_cons.
    cbn [step]. unfold enter. rewrite L.
    cbv zeta.
    destruct (Z.leb_spec (max_connections m) (_connection_count m)) as [Le|Lt];
      cbn [snd].
    + destruct (IH m L F') as (L' & M' & C'). cbv zeta in C'.
      destruct (Z.leb_spec (max_connections m) (_connection_count m)); [|lia].
      repeat split; assumption.
    + destruct (IH (set_count (_connection_count m + 1) m) L F')
        as (L' & M' & C').
      cbv zeta in C'. cbn [set_count max_connections _connection_count] in M', C'.
      repeat split; [exact L' | exact M'|]. rewrite C'.
      cbn [List.length].
      destruct (Z.leb_spec (max_connections m) (_connection_count m + 1)); lia.
Qed.

(** X17. Failed connections use the pool up.  A thread takes its slot
    before it connects and does not give it back when the connection
    fails: after as many failed attempts as the pool has slots, no thread
    holds a connection and every thread is refused one. *)
Theorem X17_failed_connects_use_up_the_pool
    (path : string) (limit : Z) (trace : list event) :
  0 <= limit ->
  Forall failed_connect trace ->
  limit <= Z.of_nat (List.length trace) ->
  let m := run trace (fresh path limit) in
  (forall th, _local m th = None) /\ exhausted m.
Proof.
  intros Hl F Len m.
  destruct (failed_connects_run trace (fresh path limit)
              ltac:(reflexivity) F) as (L & M & C).
  fold m in L, M, C. cbn [fresh max_connections _connection_count] in M, C.
  split; [exact L|]. intros th connect _. unfold enter. rewrite L, M.
  assert (E : _connection_count m = limit).
  { rewrite C. destruct (Z.leb_spec limit 0); lia. }
  rewrite E, Z.leb_refl. reflexivity.
Qed.

Lemma served_run (handle : thread -> connection) (ths : list thread)
    (m : manager) :
  NoDup ths -> (forall th, In th ths -> _local m th = None) ->
  _connection_count m + Z.of_nat (List.length ths) <= max_connections m ->
  let m' := run (served handle ths) m in
  _connection_count m' = _connection_count m + Z.of_nat (List.length ths) /\
  max_connections m' = max_connections m /\
  forall th, _local m' th
             = if in_dec Nat.eq_dec th ths then Some (handle th)
               else _local m th.
Proof.
  revert m. induction ths as [|x ths IH]; intros m N L C.
  - cbn. repeat split; lia.
  - inversion N as [|? ? Nx Nr]; subst.
    unfold served. cbn [flat_map app]. fold (served handle ths).
    rewrite !run_cons. cbn [step leave]. unfold enter.
    rewrite (L x (or_introl eq_refl)).
    cbn [List.length] in C.
    destruct (Z.leb_spec (max_connections m) (_connection_count m)); [lia|].
    cbn [snd].
    set (m1 := set_local x (Some (handle x))
                 (set_count (_connection_count m + 1) m)).
    destruct (IH m1 Nr) as (C' & M' & L').
    + intros th I. unfold m1. cbn [set_local _local set_count].
      destruct (Nat.eqb_spec th x) as [->|_]; [contradiction|].
      apply L. now right.
    + unfold m1. cbn. lia.
    + cbv zeta in C', M', L'. repeat split.
      * rewrite C'. unfold m1. cbn. lia.
      * rewrite M'. reflexivity.
      * intros th. rewrite L'. unfold m1. cbn [set_local _local set_count].
        destruct (in_dec Nat.eq_dec th ths) as [I|I];
          destruct (in_dec Nat.eq_dec th (x :: ths)) as [J|J].
        -- reflexivity.
        -- exfalso. apply J. now right.
        -- destruct J as [<-|J]; [|contradiction]. now rewrite Nat.eqb_refl.
        -- destruct (Nat.eqb_spec th x) as [->|_]; [|reflexivity].
           exfalso. apply J. now left.
Qed.

(** X18. Slots are not given back by a body that returns.  When as many
    threads as the pool has slots have each served one request, connecting
    and returning, each of them holds its connection, and every other
    thread is refused one from then on. *)
Theorem X18_served_threads_keep_their_slots
    (path : string) (limit : Z) (handle : thread -> connection)
    (ths : list thread) :
  NoDup ths ->
  Z.of_nat (List.length ths) = limit ->
  let m := run (served handle ths) (fresh path limit) in
  _connection_count m = limit /\
  (forall th, In th ths -> _local m th = Some (handle th)) /\
  exhausted m.
Proof.
  intros N Len m.
  destruct (served_run handle ths (fresh path limit) N) as (C & M & L).
  - reflexivity.
  - cbn. lia.
  - fold m in C, M, L. cbn [fresh max_connections _connection_count] in C, M.
    split; [lia|]. split.
    + intros th I. rewrite L. destruct (in_dec Nat.eq_dec th ths); tauto.
    + intros th connect Hn. unfold enter. rewrite Hn, M, C.
      replace (0 + Z.of_nat (List.length ths)) with limit by lia.
      now rewrite Z.leb_refl.
Qed.

End PoolFacts.

(* ================================================================== *)
(** * The drawing routes                                               *)
(* ================================================================== *)

Module DrawingFacts.
Import Json Drawings DrawingsApp DrawingStatements.

(** ** The decorator on the drawing routes *)

Lemma handled_returns (f : run response) (db db1 : database) (r : response) :
  f db = (Returns r, db1) -> handle_db_errors f db = (Returns r, db1).
Proof.
  intros E. unfold handle_db_errors. change (Z.to_nat max_retries) with 3%nat.
  cbn [retry_loop]. now rewrite E.
Qed.

Lemma retry_raises (f : run response) (attempt : Z) (left : nat)
    (db db1 : database) (e : error) :
  f db = (Raises e, db1) ->
  retry_loop f attempt (S left) db =
  if again e && (attempt <? max_retries - 1)
  then retry_loop f (attempt + 1) left db1
  else (Returns (failure e), db1).
Proof.
  intros E. cbn [retry_loop]. rewrite E.
  destruct e as [m|m|m|m|m|m|m|m|m|m]; cbn [again failure andb];
    reflexivity.
Qed.

(** A handler that raises and leaves the database as it was is run again
    on the same database, and raises again. *)
Lemma handled_raises (f : run response) (db : database) (e : error) :
  f db = (Raises e, db) -> handle_db_errors f db = (Returns (failure e), db).
Proof.
  intros E. unfold handle_db_errors. change (Z.to_nat max_retries) with 3%nat.
  rewrite (retry_raises f 0 2 db db e E).
  destruct (again e); cbn [andb]; [|reflexivity].
  change (0 <? max_retries - 1) with true. cbn iota.
  rewrite (retry_raises f (0 + 1) 1 db db e E).
  destruct (again e); cbn [andb]; [|reflexivity].
  change (0 + 1 <? max_retries - 1) with true. cbn iota.
  rewrite (retry_raises f (0 + 1 + 1) 0 db db e E).
  destruct (again e); reflexivity.
Qed.

(** ** The save route *)

Lemma strip_again (s : string) : strip (strip s) = strip s.
Proof.
  unfold strip.
  assert (R : forall x, Py.rstrip (Py.rstrip x) = Py.rstrip x).
  { induction x as [|c r IH]; [reflexivity|]. cbn [Py.rstrip].
    destruct ((Py.rstrip r =? "")%string && Py.char_isspace c) eqn:E;
      [reflexivity|].
    cbn [Py.rstrip]. rewrite IH, E. reflexivity. }
  assert (L : forall x, Py.lstrip (Py.rstrip (Py.lstrip x))
                        = Py.rstrip (Py.lstrip x)).
  { induction x as [|c r IH]; [reflexivity|]. cbn [Py.lstrip].
    destruct (Py.char_isspace c) eqn:E; [exact IH|].
    cbn [Py.rstrip]. rewrite E, andb_false_r. cbn [Py.lstrip]. now rewrite E. }
  now rewrite L, R.
Qed.

Lemma normal_timeframe (v : json) :
  In (match v with
      | JStr s => if existsb (String.eqb s) timeframes then s else "1min"
      | _ => "1min"
      end) timeframes.
Proof.
  assert (D : In "1min" timeframes) by (cbn; tauto).
  destruct v; try exact D.
  destruct (existsb (String.eqb s) timeframes) eqn:E; [|exact D].
  apply existsb_exists in E as (x & I & E). apply String.eqb_eq in E.
  now subst.
Qed.

Lemma bind_text_quiet (index : Z) (v : json) (db db1 : database)
    (o : result Sql.text) :
  bind_text index v db = (o, db1) -> db1 = db.
Proof.
  unfold bind_text. destruct v; try (intros E; now injection E as _ <-).
  destruct (Sql.int64 z); intros E; now injection E as _ <-.
Qed.

Ltac unchanged :=
  left; eexists; split;
  [reflexivity
  | intros r H; try discriminate H; injection H as <-; eexists; reflexivity].

(** What the save handler does: it leaves the database as it is, raising
    or answering 400, or it appends one well-formed row under the next id
    and answers with that id. *)
Lemma save_view_cases (lib : library) (u : option error) (data : json)
    (now : string) (db : database) :
  (exists o, save_drawings_view lib u data now db = (o, db) /\
             forall r, o = Returns r -> exists m, r = error_response m 400) \/
  (exists t row,
     saved_drawings db = Some t /\ id row = next_id t /\ well_formed row /\
     save_drawings_view lib u data now db
     = (Returns (mk_response 200
                   (Saved (next_id t) "Drawings saved successfully")),
        mk_database (Some (mk_table (rows t ++ [row]) (next_id t))))).
Proof.
  unfold save_drawings_view, insert, prepared, get_connection, bind, lift, ret,
    raise.
  destruct (truthy data); cbn [negb]; [|unchanged].
  destruct (contains "name" data) as [present|e]; [|unchanged].
  destruct present; cbn [negb]; [|unchanged].
  destruct (subscript data "name") as [v|e]; [|unchanged].
  set (nm := strip (str (repr lib) v)).
  destruct ((nm =? "")%string || (255 <? Z.of_nat (String.length nm))) eqn:Len;
    [unchanged|].
  destruct (get data "layout" (JInt 1)) as [l|e]; [|unchanged].
  destruct (int l) as [L|e]; [|unchanged].
  destruct (get data "instruments" (JArr [])) as [ins|e]; [|unchanged].
  destruct (get data "timeframe" (JStr "1min")) as [tf|e]; [|unchanged].
  destruct (get data "drawings" (JArr [])) as [d|e]; [|unchanged].
  destruct u as [e|]; [unchanged|].
  destruct (join "," match ins with JArr items => items | _ => [] end)
    as [joined|e]; [|unchanged].
  destruct (get data "start_date" JNull) as [sd|e]; [|unchanged].
  destruct (get data "end_date" JNull) as [ed|e]; [|unchanged].
  destruct (saved_drawings db) as [t|] eqn:T; [|unchanged].
  destruct (bind_text 5 sd db) as [[s|e] db1] eqn:Bs;
    apply bind_text_quiet in Bs as ->; [|unchanged].
  destruct (bind_text 6 ed db) as [[e'|e] db1] eqn:Be;
    apply bind_text_quiet in Be as ->; [|unchanged].
  cbv zeta. destruct (Sql.int64 (next_id t)) eqn:Full; [|unchanged].
  right. eexists t, _. split; [reflexivity|]. split; [|split; [|reflexivity]].
  - reflexivity.
  - apply orb_false_elim in Len as [Ne Le].
    unfold well_formed. cbn [name layout timeframe instruments drawings_data].
    split; [apply strip_again|]. split.
    + apply Z.ltb_ge in Le. fold nm. split; [|lia].
      destruct nm; [discriminate Ne | cbn; lia].
    + split.
      * destruct (Z.eqb_spec L 1) as [->|_]; [now left|]. cbn [orb].
        destruct (Z.eqb_spec L 2) as [->|_]; [now right | now left].
      * split; [eexists; split; [reflexivity | apply normal_timeframe]|].
        split; discriminate.
Qed.

(** ** The other routes *)

Lemma bind_integer_quiet (z : Z) (db db1 : database) (o : result unit) :
  bind_integer z db = (o, db1) -> db1 = db.
Proof.
  unfold bind_integer. destruct (Sql.int64 z); intros E; now injection E as _ <-.
Qed.

Lemma filter_all {A} (f : A -> bool) (l : list A) :
  List.length (filter f l) = List.length l -> filter f l = l.
Proof.
  induction l as [|x l IH]; [reflexivity|]. cbn [filter].
  destruct (f x); cbn [List.length]; intros E.
  - f_equal. apply IH. lia.
  - pose proof (filter_length_le f l). lia.
Qed.

(** What the delete handler does: it leaves the database as it is, raising
    or answering 400 or 404, or it removes the rows of that id, of which
    there is one at least, and answers 200. *)
Lemma delete_view_cases (u : option error) (drawing_id : Z) (db : database) :
  (exists o, delete_drawing_view u drawing_id db = (o, db) /\
             forall r, o = Returns r ->
                       exists m, r = error_response m 400 \/
                                 r = error_response m 404) \/
  (exists t,
     saved_drawings db = Some t /\
     In drawing_id (map id (rows t)) /\
     delete_drawing_view u drawing_id db
     = (Returns (mk_response 200 (Message "Drawing deleted successfully")),
        mk_database
          (Some (mk_table
                   (filter (fun row => negb (id row =? drawing_id)) (rows t))
                   (sequence t))))).
Proof.
  unfold delete_drawing_view, delete_by_id, prepared, get_connection, bind, ret,
    raise.
  destruct (drawing_id <=? 0).
  { left. eexists. split; [reflexivity|]. intros r H. injection H as <-.
    eexists. left. reflexivity. }
  destruct u as [e|].
  { left. eexists. split; [reflexivity|]. intros r H. discriminate H. }
  destruct (saved_drawings db) as [t|] eqn:T.
  2:{ left. eexists. split; [reflexivity|]. intros r H. discriminate H. }
  destruct (bind_integer drawing_id db) as [[[]|e] db1] eqn:B;
    apply bind_integer_quiet in B as ->.
  2:{ left. eexists. split; [reflexivity|]. intros r H. discriminate H. }
  set (kept := filter (fun row => negb (id row =? drawing_id)) (rows t)).
  destruct (Z.eqb_spec (Z.of_nat (List.length (rows t))
                        - Z.of_nat (List.length kept)) 0) as [E|E].
  - left. assert (K : kept = rows t) by (apply filter_all; fold kept; lia).
    rewrite K. destruct db as [[t'|]]; [|discriminate T].
    cbn [saved_drawings] in T. injection T as ->. destruct t.
    eexists. split; [reflexivity|]. intros r H. injection H as <-.
    eexists. right. reflexivity.
  - right. exists t. split; [reflexivity|]. split; [|reflexivity].
    destruct (in_dec Z.eq_dec drawing_id (map id (rows t))) as [I|N];
      [exact I|].
    exfalso. apply E.
    assert (K : kept = rows t).
    { unfold kept. apply forallb_filter_id, forallb_forall. intros row Hr.
      destruct (Z.eqb_spec (id row) drawing_id) as [Ei|_]; [|reflexivity].
      exfalso. apply N. rewrite <- Ei. now apply in_map. }
    rewrite K. lia.
Qed.

Lemma int_arg_quiet (arg : option string) (default : Z)
    (db db1 : database) (o : result Z) :
  int_arg arg default db = (o, db1) -> db1 = db.
Proof.
  unfold int_arg, lift, ret. destruct arg; intros E; now injection E as _ <-.
Qed.

(** The two reading handlers leave the database as it is. *)
Lemma list_view_quiet (lib : library) (u : option error)
    (p q : option string) (db : database) :
  exists o, get_saved_drawings_view lib u p q db = (o, db) /\
            forall r, o = Returns r -> gives_no_id r.
Proof.
  unfold get_saved_drawings_view, prepared, get_connection, bind, ret, raise.
  destruct (int_arg p 1 db) as [[x|e] db1] eqn:P;
    apply int_arg_quiet in P as ->; [|eexists; split; [reflexivity | discriminate]].
  destruct (int_arg q 50 db) as [[y|e] db1] eqn:Q;
    apply int_arg_quiet in Q as ->; [|eexists; split; [reflexivity | discriminate]].
  destruct u as [e|]; [eexists; split; [reflexivity | discriminate]|].
  destruct (saved_drawings db) as [t|] eqn:T;
    [|eexists; split; [reflexivity | discriminate]].
  cbn beta iota. rewrite T.
  destruct (bind_integer (Z.min y 100) db) as [[[]|e] db1] eqn:B1;
    apply bind_integer_quiet in B1 as ->;
    [|eexists; split; [reflexivity | discriminate]].
  destruct (bind_integer ((Z.max 1 x - 1) * Z.min y 100) db) as [[[]|e] db1] eqn:B2;
    apply bind_integer_quiet in B2 as ->;
    [|eexists; split; [reflexivity | discriminate]].
  cbn beta iota.
  destruct (Z.min y 100 =? 0); eexists; (split; [reflexivity|]);
    [discriminate | intros r H; injection H as <-; exact I].
Qed.

Lemma get_view_quiet (lib : library) (u : option error) (drawing_id : Z)
    (db : database) :
  exists o, get_drawing_view lib u drawing_id db = (o, db) /\
            forall r, o = Returns r -> gives_no_id r.
Proof.
  unfold get_drawing_view, select_by_id, prepared, get_connection, bind, ret,
    raise.
  destruct (drawing_id <=? 0);
    [eexists; split; [reflexivity | intros r H; injection H as <-; exact I]|].
  destruct u as [e|]; [eexists; split; [reflexivity | discriminate]|].
  destruct (saved_drawings db) as [t|];
    [|eexists; split; [reflexivity | discriminate]].
  destruct (bind_integer drawing_id db) as [[[]|e] db1] eqn:B;
    apply bind_integer_quiet in B as ->;
    [|eexists; split; [reflexivity | discriminate]].
  destruct (find (fun row => id row =? drawing_id) (rows t));
    eexists; (split; [reflexivity | intros r H; injection H as <-; exact I]).
Qed.

(** The decorated handler on a run that leaves the database as it is. *)
Lemma handled_unchanged (f : run response) (db : database)
    (o : result response) :
  f db = (o, db) ->
  exists r, handle_db_errors f db = (Returns r, db) /\
            (o = Returns r \/ exists e, o = Raises e /\ r = failure e).
Proof.
  intros E. destruct o as [r|e].
  - exists r. split; [now apply handled_returns | now left].
  - exists (failure e). split; [now apply handled_raises | right; now exists e].
Qed.

Lemma failure_status (e : error) : status (failure e) = 500.
Proof. now destruct e. Qed.

(** X25. A request that fails stores nothing.  Whatever the request, the
    decorated route answers with a response, and unless the status is 200
    the database is left as it was; listing and reading leave it as it was
    in every case. *)
Theorem X25_failed_request_stores_nothing
    (lib : library) (req : request) (db : database) :
  exists r db',
    serve lib req db = (Returns r, db') /\
    (status r <> 200 -> db' = db) /\
    match req with
    | List _ _ _ | Get _ _ => db' = db
    | _ => True
    end.
Proof.
  destruct req as [u data now|u p q|u i|u i]; cbn [serve];
    unfold save_drawings, get_saved_drawings, get_drawing, delete_drawing.
  - destruct (save_view_cases lib u data now db)
      as [(o & E & _)|(t & row & _ & _ & _ & E)].
    + destruct (handled_unchanged _ db o E) as (r & H & _).
      exists r, db. now rewrite H.
    + eexists _, _. split; [exact (handled_returns _ _ _ _ E)|].
      split; [|exact I]. intros N. now contradiction N.
  - destruct (list_view_quiet lib u p q db) as (o & E & _).
    destruct (handled_unchanged _ db o E) as (r & H & _).
    exists r, db. now rewrite H.
  - destruct (get_view_quiet lib u i db) as (o & E & _).
    destruct (handled_unchanged _ db o E) as (r & H & _).
    exists r, db. now rewrite H.
  - destruct (delete_view_cases u i db) as [(o & E & _)|(t & _ & _ & E)].
    + destruct (handled_unchanged _ db o E) as (r & H & _).
      exists r, db. now rewrite H.
    + eexists _, _. split; [exact (handled_returns _ _ _ _ E)|].
      split; [|exact I]. intros N. now contradiction N.
Qed.

(** ** What a request does to the table *)

Lemma max_fold_above (a : Z) (l : list Z) :
  a <= fold_right Z.max a l /\ Forall (fun x => x <= fold_right Z.max a l) l.
Proof.
  induction l as [|x l [IHa IHl]]; cbn [fold_right]; [split; [lia | constructor]|].
  split; [lia|]. constructor; [lia|].
  apply (Forall_impl _ (P := fun y => y <= fold_right Z.max a l));
    [intros y Hy; lia | exact IHl].
Qed.

Lemma next_id_above (t : table) :
  sequence t < next_id t /\ Forall (fun row => id row < next_id t) (rows t).
Proof.
  unfold next_id. destruct (max_fold_above (sequence t) (map id (rows t)))
    as [A B].
  split; [lia|]. rewrite Forall_map in B.
  apply (Forall_impl _ (P := fun row => id row
                              <= fold_right Z.max (sequence t)
                                   (map id (rows t)))); [|exact B].
  intros row H. lia.
Qed.

Lemma failure_gives_no_id (e : error) : gives_no_id (failure e).
Proof. now destruct e. Qed.

(** A request leaves the database as it is, or appends a well-formed row
    under the next id and answers with that id, or removes the rows of one
    id. *)
Lemma serve_cases (lib : library) (req : request) (db : database) :
  (exists r, serve lib req db = (Returns r, db) /\ gives_no_id r) \/
  (exists t row,
     saved_drawings db = Some t /\ id row = next_id t /\ well_formed row /\
     serve lib req db
     = (Returns (mk_response 200
                   (Saved (next_id t) "Drawings saved successfully")),
        mk_database (Some (mk_table (rows t ++ [row]) (next_id t))))) \/
  (exists t i r,
     saved_drawings db = Some t /\ gives_no_id r /\
     serve lib req db
     = (Returns r,
        mk_database
          (Some (mk_table (filter (fun row => negb (id row =? i)) (rows t))
                   (sequence t))))).
Proof.
  destruct req as [u data now|u p q|u i|u i]; cbn [serve];
    unfold save_drawings, get_saved_drawings, get_drawing, delete_drawing.
  - destruct (save_view_cases lib u data now db)
      as [(o & E & Ho)|(t & row & T & Ei & W & E)].
    + left. destruct (handled_unchanged _ db o E) as (r & H & [->|(e & -> & ->)]).
      * exists r. split; [exact H|]. destruct (Ho r eq_refl) as (m & ->). exact I.
      * eexists. split; [exact H | apply failure_gives_no_id].
    + right. left. exists t, row.
      split; [exact T|]. split; [exact Ei|]. split; [exact W|].
      exact (handled_returns _ _ _ _ E).
  - left. destruct (list_view_quiet lib u p q db) as (o & E & Ho).
    destruct (handled_unchanged _ db o E) as (r & H & [->|(e & -> & ->)]).
    + exists r. split; [exact H | now apply Ho].
    + eexists. split; [exact H | apply failure_gives_no_id].
  - left. destruct (get_view_quiet lib u i db) as (o & E & Ho).
    destruct (handled_unchanged _ db o E) as (r & H & [->|(e & -> & ->)]).
    + exists r. split; [exact H | now apply Ho].
    + eexists. split; [exact H | apply failure_gives_no_id].
  - destruct (delete_view_cases u i db) as [(o & E & Ho)|(t & T & _ & E)].
    + left. destruct (handled_unchanged _ db o E) as (r & H & [->|(e & -> & ->)]).
      * exists r. split; [exact H|].
        destruct (Ho r eq_refl) as (m & [->| ->]); exact I.
      * eexists. split; [exact H | apply failure_gives_no_id].
    + right. right. exists t, i, (mk_response 200 (Message "Drawing deleted successfully")).
      split; [exact T|]. split; [exact I|].
      exact (handled_returns _ _ _ _ E).
Qed.

Lemma filter_keeps_distinct (f : drawing -> bool) (l : list drawing) :
  NoDup (map id l) -> NoDup (map id (filter f l)).
Proof.
  induction l as [|x l IH]; intros N; [constructor|].
  inversion N as [|? ? Nx Nl]; subst. cbn [filter map].
  destruct (f x); [|auto]. cbn [map]. constructor; [|auto].
  intros H. apply Nx. apply in_map_iff in H as (y & Ey & Hy).
  apply filter_In in Hy as [Hy _]. rewrite <- Ey. now apply in_map.
Qed.

Lemma serve_keeps (lib : library) (req : request) (db : database) :
  well_kept db -> well_kept (snd (serve lib req db)).
Proof.
  intros K.
  destruct (serve_cases lib req db)
    as [(r & E & _)|[(t & row & T & Ei & W & E)|(t & i & r & T & _ & E)]];
    rewrite E; cbn [snd]; [exact K| |].
  - unfold well_kept in *. rewrite T in K. cbn [saved_drawings rows sequence].
    destruct K as (N & B & S & F).
    destruct (next_id_above t) as [A Ab].
    split; [|split; [|split]].
    + rewrite map_app. cbn [map]. apply NoDup_app; [exact N | repeat constructor; intros [] | ].
      intros x Hx [Hy|[]]. subst x. rewrite Ei in Hx.
      apply in_map_iff in Hx as (row' & Er & Hr).
      rewrite Forall_forall in Ab. specialize (Ab row' Hr). lia.
    + apply Forall_app. split.
      * apply (Forall_impl _ (P := fun row => 1 <= id row <= sequence t));
          [intros x Hx; lia | exact B].
      * constructor; [|constructor]. lia.
    + lia.
    + apply Forall_app. split; [exact F | now constructor].
  - unfold well_kept in *. rewrite T in K. cbn [saved_drawings rows sequence].
    destruct K as (N & B & S & F). split; [|split; [|split]].
    + now apply filter_keeps_distinct.
    + rewrite Forall_forall in *. intros x Hx. apply filter_In in Hx as [Hx _].
      auto.
    + exact S.
    + rewrite Forall_forall in *. intros x Hx. apply filter_In in Hx as [Hx _].
      auto.
Qed.

(** X19. The saved drawings stay well kept.  From a database whose table,
    if there is one, holds well-formed rows under distinct positive ids,
    creating the table and serving any requests in any order leaves such a
    database: every row has a stripped name of 1 to 255 characters, layout
    1 or 2, a timeframe of the supported set, and an id of its own. *)
Theorem X19_saved_drawings_stay_well_kept
    (lib : library) (reqs : list request) (u : option error) (db : database) :
  well_kept db ->
  well_kept (snd (create_drawings_table u db)) /\
  well_kept (snd (serve_all lib reqs db)).
Proof.
  intros K. split.
  - unfold create_drawings_table, get_connection, raise.
    destruct u as [e|]; [exact K|].
    destruct (saved_drawings db) eqn:T; [exact K|].
    cbn. repeat split; try constructor. lia.
  - revert db K. induction reqs as [|req reqs IH]; intros db K; [exact K|].
    cbn [serve_all]. pose proof (serve_keeps lib req db K) as K1.
    destruct (serve lib req db) as [o db1]. cbn [snd] in K1.
    specialize (IH db1 K1). destruct (serve_all lib reqs db1) as [os db2].
    exact IH.
Qed.

Lemma ids_given_cons (o : result response) (os : list (result response)) :
  ids_given (o :: os) = (ids_given [o] ++ ids_given os)%list.
Proof.
  cbn [ids_given]. destruct o as [[st [m|i m|m|v|d p]]|e]; reflexivity.
Qed.

Lemma no_id_given (r : response) : gives_no_id r -> ids_given [Returns r] = [].
Proof.
  destruct r as [st [m|i m|m|v|d p]]; cbn; intros H; try reflexivity.
  contradiction.
Qed.

Lemma ids_ascend (lib : library) (reqs : list request) (db : database) :
  let given := ids_given (fst (serve_all lib reqs db)) in
  Sorted Z.lt given /\ Forall (fun i => last_id db < i) given.
Proof.
  revert db. induction reqs as [|req reqs IH]; intros db;
    [split; constructor|].
  cbn [serve_all].
  destruct (serve_cases lib req db)
    as [(r & E & G)|[(t & row & T & Ei & W & E)|(t & i & r & T & G & E)]];
    rewrite E.
  - specialize (IH db).
    destruct (serve_all lib reqs db) as [os db2]. cbn [fst] in *.
    rewrite ids_given_cons, (no_id_given r G). exact IH.
  - set (db1 := mk_database (Some (mk_table (rows t ++ [row]) (next_id t)))).
    destruct (next_id_above t) as [A _].
    specialize (IH db1).
    destruct (serve_all lib reqs db1) as [os db2]. cbn [fst] in *.
    cbn [ids_given]. destruct IH as [S F].
    unfold last_id in *. rewrite T. cbn [db1 saved_drawings sequence] in F.
    split.
    + constructor; [exact S|]. destruct F; constructor. assumption.
    + constructor; [lia|].
      apply (Forall_impl _ (P := fun i => next_id t < i));
        [intros x Hx; lia | exact F].
  - set (db1 := mk_database
                  (Some (mk_table
                           (filter (fun row => negb (id row =? i)) (rows t))
                           (sequence t)))).
    specialize (IH db1).
    destruct (serve_all lib reqs db1) as [os db2]. cbn [fst] in *.
    rewrite ids_given_cons, (no_id_given r G).
    unfold last_id in *. rewrite T. exact IH.
Qed.

(** X21. Ids are never reused.  Over any requests served in any order, the
    ids the save route gives out are in strictly ascending order, and each
    is above every id the table has given before, and so above the id of
    every drawing the table held at the start, deleted since or not. *)
Theorem X21_drawing_ids_are_never_reused
    (lib : library) (reqs : list request) (db : database) :
  sequence_kept db ->
  let given := ids_given (fst (serve_all lib reqs db)) in
  Sorted Z.lt given /\
  Forall (fun i => last_id db < i /\ Forall (fun held => held < i) (ids_held db))
    given.
Proof.
  intros B given. destruct (ids_ascend lib reqs db) as [S F].
  split; [exact S|]. fold given in F.
  apply (Forall_impl _ (P := fun i => last_id db < i)); [|exact F].
  intros i Hi. split; [exact Hi|].
  unfold sequence_kept, last_id, ids_held in *.
  destruct (saved_drawings db) as [t|]; [|constructor].
  rewrite Forall_map.
  apply (Forall_impl _ (P := fun row => id row <= sequence t)); [|exact B].
  intros row Hr. lia.
Qed.

End DrawingFacts.

(* ================================================================== *)
(** * The drawing routes: saving, reading, deleting, listing           *)
(* ================================================================== *)

Module DrawingRoutes.
Import Json Drawings DrawingsApp DrawingStatements DrawingFacts.

(** ** Joining and splitting the instruments *)

Lemma join_texts (index : nat) (sep : string) (names : list string) :
  join_from index sep (map JStr names) = Returns (joined sep names).
Proof.
  revert index. induction names as [|s rest IH]; intros index; [reflexivity|].
  cbn [map join_from joined]. destruct rest as [|s' rest']; [reflexivity|].
  cbn [map]. cbn [map] in IH. now rewrite IH.
Qed.

Lemma no_comma_cons (c : ascii) (r : string) :
  Py.contains "," (String c r) = false ->
  Ascii.eqb c "," = false /\ Py.contains "," r = false.
Proof.
  cbn [Py.contains String.prefix]. intros H.
  apply orb_false_elim in H as [H1 H2]. split; [|exact H2].
  destruct (ascii_dec "," c) as [<-|N]; [destruct r; discriminate H1|].
  apply Ascii.eqb_neq. congruence.
Qed.

Lemma split_past (piece n rest : string) :
  Py.contains "," n = false ->
  split_at "," piece (n ++ rest) = split_at "," (piece ++ n) rest.
Proof.
  revert piece. induction n as [|c n IH]; intros piece H.
  - cbn [append]. now rewrite TextFacts.append_nil_r.
  - apply no_comma_cons in H as [Hc Hn]. cbn [append split_at]. rewrite Hc.
    rewrite IH by assumption. now rewrite TextFacts.append_assoc.
Qed.

Lemma split_joined (names : list string) (piece : string) (s : string) :
  Forall (fun x => Py.contains "," x = false) (s :: names) ->
  split_at "," piece (joined "," (s :: names)) = (piece ++ s) :: names.
Proof.
  revert piece s. induction names as [|n names IH]; intros piece s F.
  - cbn [joined]. inversion F as [|? ? Hs _]; subst.
    rewrite <- (TextFacts.append_nil_r s) at 1.
    rewrite split_past by assumption. reflexivity.
  - inversion F as [|? ? Hs F']; subst.
    change (joined "," (s :: n :: names))
      with (s ++ String "," (joined "," (n :: names))).
    rewrite split_past by assumption. cbn [split_at Ascii.eqb Bool.eqb].
    f_equal. now apply IH.
Qed.

(** The instruments read back are the instruments saved. *)
Lemma instruments_read_back (names : list string) :
  comma_free names -> read_instruments (Some (joined "," names)) = names.
Proof.
  intros [F N]. unfold read_instruments. destruct names as [|s names];
    [reflexivity|].
  destruct (String.eqb_spec (joined "," (s :: names)) "") as [E|_].
  - exfalso. apply N. destruct names as [|n names].
    + cbn in E. now subst.
    + cbn [joined] in E. destruct s; discriminate E.
  - unfold split. now rewrite split_joined.
Qed.

(** ** Saving and reading back *)

Lemma text_bound (index : Z) (v : json) (x : Sql.text) (db : database) :
  text_stored v = Some x -> bind_text index v db = (Returns x, db).
Proof.
  unfold text_stored, bind_text, ret. destruct v; try discriminate;
    try (intros E; now injection E as <-).
  destruct (Sql.int64 z); [|discriminate]. intros E. now injection E as <-.
Qed.

Lemma get_key (members : list (string * json)) (key : string) (default : json) :
  get (JObj members) key default = Returns (member members key default).
Proof. reflexivity. Qed.

Lemma key_present (members : list (string * json)) (key : string) (v : json) :
  App.dict_get key members = Some v ->
  existsb (fun kv => (fst kv =? key)%string) members = true /\ members <> [].
Proof.
  induction members as [|[k x] members IH]; [discriminate|].
  cbn [App.dict_get existsb fst]. intros H. split; [|discriminate].
  destruct (k =? key)%string; [reflexivity|]. cbn [orb]. now apply IH.
Qed.

Lemma find_new (rows : list drawing) (row : drawing) :
  Forall (fun r => id r < id row) rows ->
  find (fun r => id r =? id row) (rows ++ [row]) = Some row.
Proof.
  induction rows as [|x rows IH]; intros F.
  - cbn. now rewrite Z.eqb_refl.
  - inversion F as [|? ? Hx F']; subst. cbn [app find].
    destruct (Z.eqb_spec (id x) (id row)); [lia | auto].
Qed.

Lemma integer_bound (z : Z) (db : database) :
  Sql.int64 z = true -> bind_integer z db = (Returns tt, db).
Proof. intros H. unfold bind_integer. now rewrite H. Qed.

(** X20. A drawing saved reads back.  For a request body that is an
    object with a name of 1 to 255 characters once stripped, a layout
    [int] reads, instruments that are texts, and dates that can be bound:
    the save route stores the drawing under the next id and answers with
    it, and the read route then returns, under that id, the stripped name,
    the layout (1 unless it is 2), the timeframe (1min unless it is
    supported), the dates as texts and the time of the save; the
    instruments come back as given when none holds a comma and they are not
    the one empty text; the drawings come back as given when [loads] reads
    what [dumps] wrote. *)
Theorem X20_saved_drawing_reads_back
    (lib : library) (members : list (string * json)) (now : string)
    (db : database) (t : table) (v : json) (given_layout : Z)
    (names : list string) (s e : Sql.text) :
  saved_drawings db = Some t ->
  0 <= sequence t ->
  Sql.int64 (next_id t) = true ->
  App.dict_get "name" members = Some v ->
  let name := strip (str (repr lib) v) in
  name <> "" ->
  (String.length name <= 255)%nat ->
  int (member members "layout" (JInt 1)) = Returns given_layout ->
  member members "instruments" (JArr []) = JArr (map JStr names) ->
  text_stored (member members "start_date" JNull) = Some s ->
  text_stored (member members "end_date" JNull) = Some e ->
  let drawings := member members "drawings" (JArr []) in
  exists db',
    save_drawings lib None (JObj members) now db
    = (Returns (mk_response 200
                  (Saved (next_id t) "Drawings saved successfully")), db') /\
    exists instruments drawings_read,
      get_drawing lib None (next_id t) db'
      = (Returns (mk_response 200
                    (Drawing
                       {| v_id := next_id t;
                          v_name := name;
                          v_layout := Some (layout_stored given_layout);
                          v_instruments := instruments;
                          v_timeframe :=
                            Some (timeframe_stored
                                    (member members "timeframe" (JStr "1min")));
                          v_start_date := s;
                          v_end_date := e;
                          v_drawings := drawings_read;
                          v_created_at := Some now |})), db') /\
      (comma_free names -> instruments = names) /\
      (loads lib (dumps lib drawings) = Some drawings ->
       dumps lib drawings <> "" -> drawings_read = drawings).
Proof.
  intros T S B Nm name Ne Le Ly Ins Sd Ed drawings.
  destruct (key_present members "name" v Nm) as [Pr Nn].
  set (row := mk_drawing (next_id t) name (Some (layout_stored given_layout))
                (Some (joined "," names))
                (Some (timeframe_stored
                         (member members "timeframe" (JStr "1min"))))
                s e (Some (dumps lib drawings)) (Some now)).
  exists (mk_database (Some (mk_table (rows t ++ [row]) (next_id t)))).
  split.
  - unfold save_drawings. apply handled_returns.
    unfold save_drawings_view, insert, prepared, get_connection, bind, lift, ret,
      raise.
    assert (Tr : truthy (JObj members) = true)
      by (destruct members; [contradiction | reflexivity]).
    rewrite Tr. cbn [negb contains]. rewrite Pr. cbn [negb subscript].
    rewrite Nm. fold name.
    assert (Len : ((name =? "")%string
                   || (255 <? Z.of_nat (String.length name))) = false).
    { apply orb_false_intro; [now apply String.eqb_neq | apply Z.ltb_ge; lia]. }
    rewrite Len, !get_key, Ly, Ins. unfold join. rewrite join_texts, T.
    rewrite (text_bound 5 _ s db Sd), (text_bound 6 _ e db Ed).
    cbv zeta. rewrite B. reflexivity.
  - exists (read_instruments (Some (joined "," names))),
           (read_drawings lib (Some (dumps lib drawings))).
    split; [|split].
    + unfold get_drawing. apply handled_returns.
      unfold get_drawing_view, select_by_id, prepared, get_connection, bind,
        ret, raise.
      destruct (next_id_above t) as [A Ab].
      destruct (Z.leb_spec (next_id t) 0); [lia|].
      cbn [saved_drawings rows].
      rewrite (integer_bound _ _ B).
      change (next_id t) with (id row) at 1.
      rewrite (find_new (rows t) row Ab). reflexivity.
    + apply instruments_read_back.
    + intros Rt Nd. unfold read_drawings.
      destruct (String.eqb_spec (dumps lib drawings) ""); [contradiction|].
      now rewrite Rt.
Qed.

(** ** Deleting *)

Lemma find_kept (i j : Z) (l : list drawing) :
  j <> i ->
  find (fun r => id r =? j) (filter (fun r => negb (id r =? i)) l)
  = find (fun r => id r =? j) l.
Proof.
  intros N. induction l as [|x l IH]; [reflexivity|]. cbn [filter find].
  destruct (Z.eqb_spec (id x) i) as [E|_]; cbn [negb].
  - destruct (Z.eqb_spec (id x) j); [lia | exact IH].
  - cbn [find]. now rewrite IH.
Qed.

Lemma find_removed (i : Z) (l : list drawing) :
  find (fun r => id r =? i) (filter (fun r => negb (id r =? i)) l) = None.
Proof.
  induction l as [|x l IH]; [reflexivity|]. cbn [filter].
  destruct (Z.eqb_spec (id x) i) as [E|N]; cbn [negb]; [exact IH|].
  cbn [find]. destruct (Z.eqb_spec (id x) i); [contradiction | exact IH].
Qed.

Lemma removed_shortens (i : Z) (l : list drawing) :
  In i (map id l) ->
  (List.length (filter (fun r => negb (id r =? i)%Z) l) < List.length l)%nat.
Proof.
  induction l as [|x l IH]; [intros []|]. cbn [map In filter].
  destruct (Z.eqb_spec (id x) i) as [E|N]; cbn [negb List.length].
  - intros _. pose proof (filter_length_le (fun r => negb (id r =? i)) l). lia.
  - intros [H|H]; [contradiction|]. apply IH in H. lia.
Qed.

Lemma filter_again {A} (f : A -> bool) (l : list A) :
  filter f (filter f l) = filter f l.
Proof.
  induction l as [|x l IH]; [reflexivity|]. cbn [filter].
  destruct (f x) eqn:E; [|exact IH]. cbn [filter]. now rewrite E, IH.
Qed.

(** X22. A deleted drawing is gone, and nothing else is.  Deleting an id
    the table holds answers 200; from then on reading that id and deleting
    it again answer 404; every other id reads as before; and the sequence
    of ids given is as before. *)
Theorem X22_deleted_drawing_is_gone
    (lib : library) (db : database) (t : table) (i : Z) :
  saved_drawings db = Some t ->
  0 < i ->
  Sql.int64 i = true ->
  In i (map id (rows t)) ->
  exists db',
    delete_drawing None i db
    = (Returns (mk_response 200 (Message "Drawing deleted successfully")), db') /\
    get_drawing lib None i db'
    = (Returns (error_response "Drawing not found" 404), db') /\
    delete_drawing None i db'
    = (Returns (error_response "Drawing not found" 404), db') /\
    (forall j, j <> i ->
       fst (get_drawing lib None j db') = fst (get_drawing lib None j db)) /\
    last_id db' = last_id db.
Proof.
  intros T Pos B I.
  set (kept := filter (fun r => negb (id r =? i)) (rows t)).
  exists (mk_database (Some (mk_table kept (sequence t)))).
  assert (Hi : (i <=? 0) = false) by (apply Z.leb_gt; lia).
  split; [|split; [|split; [|split]]].
  - unfold delete_drawing. apply handled_returns.
    unfold delete_drawing_view, delete_by_id, prepared, get_connection, bind,
      ret, raise.
    rewrite Hi, T, (integer_bound _ _ B). fold kept.
    pose proof (removed_shortens i (rows t) I) as Sh. fold kept in Sh.
    destruct (Z.eqb_spec (Z.of_nat (List.length (rows t))
                          - Z.of_nat (List.length kept)) 0); [lia|].
    reflexivity.
  - unfold get_drawing. apply handled_returns.
    unfold get_drawing_view, select_by_id, prepared, get_connection, bind,
      ret, raise.
    rewrite Hi. cbn [saved_drawings rows]. rewrite (integer_bound _ _ B).
    unfold kept. now rewrite find_removed.
  - unfold delete_drawing. apply handled_returns.
    unfold delete_drawing_view, delete_by_id, prepared, get_connection, bind,
      ret, raise.
    rewrite Hi. cbn [saved_drawings rows sequence].
    rewrite (integer_bound _ _ B). unfold kept. rewrite filter_again.
    now rewrite Z.sub_diag.
  - intros j N.
    destruct (get_view_quiet lib None j
                (mk_database (Some (mk_table kept (sequence t)))))
      as (o1 & E1 & _).
    destruct (get_view_quiet lib None j db) as (o2 & E2 & _).
    assert (Same : o1 = o2).
    { revert E1 E2.
      unfold get_drawing_view, select_by_id, prepared, get_connection, bind,
        ret, raise, bind_integer.
      destruct (j <=? 0); [congruence|]. cbn beta iota. rewrite T.
      cbn [saved_drawings rows]. unfold ret, raise.
      destruct (Sql.int64 j); cbn beta iota; [|congruence].
      unfold kept. rewrite (find_kept i j (rows t) N).
      destruct (find (fun r => id r =? j) (rows t)); congruence. }
    destruct (handled_unchanged _ _ o1 E1) as (r1 & H1 & C1).
    destruct (handled_unchanged _ _ o2 E2) as (r2 & H2 & C2).
    unfold get_drawing. rewrite H1, H2. cbn [fst]. f_equal. subst o2.
    destruct C1 as [->|(e1 & -> & ->)], C2 as [C2|(e2 & C2 & ->)];
      congruence.
  - unfold last_id. rewrite T. reflexivity.
Qed.

(** ** Listing *)

Lemma arg_read (arg : option string) (default z : Z) (db : database) :
  arg_value arg default = Some z ->
  int_arg arg default db = (Returns z, db).
Proof.
  unfold arg_value, int_arg, lift, ret, int_of_text. destruct arg as [s|].
  - intros ->. reflexivity.
  - intros E. now injection E as <-.
Qed.

Lemma created_desc_total (a b : drawing) :
  created_desc a b = true \/ created_desc b a = true.
Proof. unfold created_desc. apply OrderFacts.text_leb_total. Qed.

Lemma created_desc_trans (a b c : drawing) :
  created_desc a b = true -> created_desc b c = true ->
  created_desc a c = true.
Proof.
  unfold created_desc. intros H1 H2.
  exact (OrderFacts.text_leb_trans _ _ _ H2 H1).
Qed.

Lemma sorted_skipn {A} (R : A -> A -> Prop) (n : nat) (l : list A) :
  Sorted R l -> Sorted R (skipn n l).
Proof.
  revert l. induction n as [|n IH]; intros l S; [exact S|].
  destruct l as [|x l]; [constructor|]. cbn [skipn]. apply IH.
  now inversion S.
Qed.

(** In a sorted list every entry of a front part is before every entry of
    the rest. *)
Lemma sorted_parts (front rest : list drawing) :
  Sorted as_new_as (front ++ rest) ->
  forall x y, In x front -> In y rest -> as_new_as x y.
Proof.
  intros S. apply Sorted_StronglySorted in S.
  2:{ intros a b c. apply created_desc_trans. }
  induction front as [|f front IH]; intros x y Hx Hy; [destruct Hx|].
  cbn [app] in S. inversion S as [|? ? S' F]; subst.
  destruct Hx as [<-|Hx]; [|now apply IH].
  rewrite Forall_forall in F. apply F, in_or_app. now right.
Qed.

Lemma list_view_ok (lib : library) (db : database) (t : table)
    (ap aq : option string) (p q : Z) :
  saved_drawings db = Some t ->
  arg_value ap 1 = Some p -> arg_value aq 50 = Some q ->
  Sql.int64 (Z.min q 100) = true ->
  Sql.int64 ((Z.max 1 p - 1) * Z.min q 100) = true ->
  get_saved_drawings_view lib None ap aq db =
  (if Z.min q 100 =? 0
   then Raises (ZeroDivisionError "integer division or modulo by zero")
   else
     Returns
       (mk_response 200
          (Listing
             (map summary_of
                (Sql.limit (Z.min q 100)
                   (offset_rows ((Z.max 1 p - 1) * Z.min q 100)
                      (Query.sort_by created_desc (rows t)))))
             {| page := Z.max 1 p;
                per_page := Z.min q 100;
                total := Z.of_nat (List.length (rows t));
                pages := (Z.of_nat (List.length (rows t)) + Z.min q 100 - 1)
                         / Z.min q 100 |})),
   db).
Proof.
  intros T P Q B1 B2.
  unfold get_saved_drawings_view, prepared, get_connection, bind, ret, raise.
  rewrite (arg_read ap 1 p db P), (arg_read aq 50 q db Q), T.
  cbn beta iota. rewrite T, (integer_bound _ _ B1), (integer_bound _ _ B2).
  cbn beta iota. destruct (Z.min q 100 =? 0); reflexivity.
Qed.

(** X23. A page of saved drawings.  With the table created, a page number
    and a page size that read, and a page size of 1 at least: the route
    answers 200 with the page number raised to 1 at least, the page size
    cut to 100 at most, the number of drawings, and the number of pages,
    which is the least that holds them all.  The drawings shown are rows of
    the table, newest first: the rows of the table are those before the
    page, those shown and those after it; the rows before are
    [(page - 1) * per_page], or all of them; the rows shown are [per_page],
    or as many as are left; every row before is at least as new as every
    row shown, and every row shown as every row after; and a page past the
    last is empty. *)
Theorem X23_page_of_saved_drawings
    (lib : library) (db : database) (t : table)
    (arg_page arg_per_page : option string) (p q : Z) :
  saved_drawings db = Some t ->
  arg_value arg_page 1 = Some p ->
  arg_value arg_per_page 50 = Some q ->
  let page := Z.max 1 p in
  let per_page := Z.min q 100 in
  let total := Z.of_nat (List.length (rows t)) in
  let offset := (page - 1) * per_page in
  1 <= per_page ->
  Sql.int64 offset = true ->
  exists before shown after pages,
    get_saved_drawings lib None arg_page arg_per_page db
    = (Returns (mk_response 200
                  (Listing (map summary_of shown)
                     (mk_pagination page per_page total pages))),
       db) /\
    Permutation (rows t) (before ++ shown ++ after) /\
    Z.of_nat (List.length before) = Z.min offset total /\
    Z.of_nat (List.length shown)
    = Z.min per_page (total - Z.of_nat (List.length before)) /\
    (forall b x, In b before -> In x shown -> as_new_as b x) /\
    (forall x a, In x shown -> In a after -> as_new_as x a) /\
    Sorted newest_first (map summary_of shown) /\
    (pages - 1) * per_page < total <= pages * per_page /\
    (pages < page -> shown = []).
Proof.
  intros T P Q page per_page total offset Pp B.
  assert (Bp : Sql.int64 per_page = true).
  { unfold Sql.int64, per_page in *. lia. }
  assert (Off : 0 <= offset) by (unfold offset, page; nia).
  set (sorted := Query.sort_by created_desc (rows t)).
  assert (Perm : Permutation sorted (rows t))
    by apply OrderFacts.sort_by_perm.
  assert (Srt : Sorted as_new_as sorted).
  { apply OrderFacts.sort_by_sorted. apply created_desc_total. }
  set (before := firstn (Z.to_nat offset) sorted).
  set (rest := skipn (Z.to_nat offset) sorted).
  set (shown := firstn (Z.to_nat per_page) rest).
  set (after := skipn (Z.to_nat per_page) rest).
  assert (Lim : Sql.limit per_page (offset_rows offset sorted) = shown).
  { unfold Sql.limit, offset_rows, shown, rest.
    destruct (Z.ltb_spec per_page 0); [lia | reflexivity]. }
  assert (Lb : Z.of_nat (List.length before) = Z.min offset total).
  { unfold before. rewrite length_firstn, (Permutation_length Perm).
    unfold total. lia. }
  assert (Ls : Z.of_nat (List.length shown)
               = Z.min per_page (total - Z.of_nat (List.length before))).
  { rewrite Lb. unfold shown, rest.
    rewrite length_firstn, length_skipn, (Permutation_length Perm).
    unfold total. lia. }
  set (pages := (total + per_page - 1) / per_page).
  assert (Pg : (pages - 1) * per_page < total <= pages * per_page).
  { unfold pages.
    pose proof (Z.div_mod (total + per_page - 1) per_page ltac:(lia)) as D.
    pose proof (Z.mod_pos_bound (total + per_page - 1) per_page ltac:(lia)) as M.
    nia. }
  assert (Parts : sorted = (before ++ shown ++ after)%list).
  { unfold before, shown, after, rest. now rewrite !firstn_skipn. }
  exists before, shown, after, pages.
  split; [|split; [|split; [|split; [|split; [|split; [|split; [|split]]]]]]].
  - unfold get_saved_drawings. apply handled_returns.
    rewrite (list_view_ok lib db t arg_page arg_per_page p q T P Q Bp B).
    fold per_page page total offset sorted.
    destruct (Z.eqb_spec per_page 0); [lia|].
    rewrite Lim. reflexivity.
  - rewrite <- Parts. now symmetry.
  - exact Lb.
  - exact Ls.
  - intros b x Hb Hx. rewrite Parts in Srt.
    apply (sorted_parts before (shown ++ after) Srt); [exact Hb|].
    apply in_or_app. now left.
  - intros x a Hx Ha.
    assert (Sr : Sorted as_new_as (shown ++ after)).
    { unfold shown, after. rewrite firstn_skipn. now apply sorted_skipn. }
    now apply (sorted_parts shown after Sr).
  - apply (Rows.sorted_map as_new_as); [auto|].
    unfold shown, rest. apply Aggregator.sorted_firstn, sorted_skipn.
    exact Srt.
  - exact Pg.
  - intros Past.
    assert (Z.of_nat (List.length shown) = 0) by nia.
    destruct shown; [reflexivity | discriminate].
Qed.

(** X24. A page size of zero is a server error.  With the table created
    and a page number that reads, a request for pages of 0 drawings is
    answered 500 with the message of the division by zero, the database
    left as it was. *)
Theorem X24_page_size_zero_is_a_server_error
    (lib : library) (db : database) (t : table)
    (arg_page arg_per_page : option string) (p : Z) :
  saved_drawings db = Some t ->
  arg_value arg_page 1 = Some p ->
  arg_value arg_per_page 50 = Some 0 ->
  get_saved_drawings lib None arg_page arg_per_page db
  = (Returns (error_response
                "Server error: integer division or modulo by zero" 500), db).
Proof.
  intros T P Q. unfold get_saved_drawings.
  apply (handled_raises _ db
           (ZeroDivisionError "integer division or modulo by zero")).
  rewrite (list_view_ok lib db t arg_page arg_per_page p 0 T P Q);
    [reflexivity| |].
  - reflexivity.
  - change (Z.min 0 100) with 0. now rewrite Z.mul_0_r.
Qed.

(** X26. A negative page size lists every drawing.  The page size is cut
    from above only: with the table created, a page number that reads and a
    negative page size (of 64 bits, as the offset), the route answers 200
    with all the drawings of the table, however many, whatever the page. *)
Theorem X26_negative_page_size_lists_everything
    (lib : library) (db : database) (t : table)
    (arg_page arg_per_page : option string) (p q : Z) :
  saved_drawings db = Some t ->
  arg_value arg_page 1 = Some p ->
  arg_value arg_per_page 50 = Some q ->
  q < 0 ->
  Sql.int64 q = true ->
  Sql.int64 ((Z.max 1 p - 1) * q) = true ->
  exists shown paging,
    get_saved_drawings lib None arg_page arg_per_page db
    = (Returns (mk_response 200 (Listing (map summary_of shown) paging)),
       db) /\
    per_page paging = q /\
    Permutation shown (rows t).
Proof.
  intros T P Q Neg Bq Bo.
  assert (M : Z.min q 100 = q) by lia.
  eexists _, _. split; [|split].
  - unfold get_saved_drawings. apply handled_returns.
    rewrite (list_view_ok lib db t arg_page arg_per_page p q T P Q);
      rewrite ?M; try assumption.
    destruct (Z.eqb_spec q 0); [lia | reflexivity].
  - reflexivity.
  - unfold Sql.limit, offset_rows.
    destruct (Z.ltb_spec q 0); [|lia].
    assert (O : Z.to_nat ((Z.max 1 p - 1) * q) = 0%nat) by nia.
    rewrite O. cbn [skipn].
    apply OrderFacts.sort_by_perm.
Qed.

End DrawingRoutes.

(* ================================================================== *)
(** * Worked instances: the decorator, the routes, the pool, drawings  *)
(* ================================================================== *)

Module Instances.
Import Text Store Exec Query App Statements Samples Properties Cases Examples.
Import Decorator Accounting DateWindow Answers Routes Rows.

(** The data route on a store whose connection limit is reached: three
    runs, each refused a connection before any statement. *)
Lemma X2_witness :
  (forall c0, get_data_view exhausted_store "nq_bars" raw_bars c0
              = (Raise no_slot_left, c0, [])) /\
  handle_db_errors (get_data_view exhausted_store "nq_bars" raw_bars) None
  = (Ok (failure_response no_slot_left), None,
     repeated (attempts no_slot_left) []).
Proof.
  assert (H : forall c0, get_data_view exhausted_store "nq_bars" raw_bars c0
                         = (Raise no_slot_left, c0, []))
    by (intros c0; reflexivity).
  split; [exact H|].
  exact (X2_persistent_failure_retry_policy _ no_slot_left [] None H).
Defined.

Lemma X3_witness :
  locked_once None
  = (Raise (OperationalError "database is locked"), Some [], [MasterList]) /\
  retried (OperationalError "database is locked") = true /\
  locked_once (Some [])
  = (Ok (mk_response 200 (JsonInstruments []) None), Some [], []) /\
  handle_db_errors locked_once None
  = (Ok (mk_response 200 (JsonInstruments []) None), Some [],
     ([MasterList] ++ [])%list).
Proof.
  split; [reflexivity|]. split; [reflexivity|]. split; [reflexivity|].
  exact (X3_transient_failure_is_retried locked_once
           (OperationalError "database is locked") None (Some []) (Some [])
           [MasterList] [] (mk_response 200 (JsonInstruments []) None)
           eq_refl eq_refl eq_refl).
Defined.

Lemma X7_witness :
  serves busy_store "nq_bars" busy_table /\
  dict_get "15min" intervals = Some 15 /\
  Sql.int64 50000 = true /\
  (50000 < 0 \/ Z.of_nat (List.length (rows busy_table)) <= 50000) /\
  volumes_fit (bars_in_range None None busy_table) /\
  exists data,
    aggregate_timeframe_data busy_store "nq_bars" "15min" None None 50000 None
    = (Ok data, None, [OnTable (aggregation_kind 15) "nq_bars"]) /\
    bars_counted data
    = Z.of_nat (List.length (bars_in_range None None busy_table)) /\
    volume_counted data = volume_total (bars_in_range None None busy_table).
Proof.
  assert (H : 50000 < 0 \/ Z.of_nat (List.length (rows busy_table)) <= 50000)
    by (right; cbn; lia).
  split; [exact busy_serves|]. split; [reflexivity|]. split; [reflexivity|].
  split; [exact H|]. split; [exact busy_fit|].
  exact (X7_aggregation_accounts_for_every_bar busy_store "nq_bars" "15min"
           busy_table 15 None None 50000 None busy_serves eq_refl eq_refl H
           busy_fit).
Defined.

Lemma X8_witness :
  serves busy_store "nq_bars" busy_table /\
  dict_get "15min" intervals = Some 15 /\
  Sql.int64 50000 = true /\
  (forall r, In r (bars_in_range None None busy_table) -> coherent_bar r) /\
  volumes_fit (bars_in_range None None busy_table) /\
  exists data,
    aggregate_timeframe_data busy_store "nq_bars" "15min" None None 50000 None
    = (Ok data, None, [OnTable (aggregation_kind 15) "nq_bars"]) /\
    forall p, In p data -> coherent_point p.
Proof.
  assert (H : forall r, In r (bars_in_range None None busy_table) ->
                        coherent_bar r).
  { intros r [<-|[<-|[<-|[<-|[]]]]]; unfold coherent_bar;
      eexists _, _, _, _; cbn;
      (split; [reflexivity|]); (split; [reflexivity|]);
      (split; [reflexivity|]); (split; [reflexivity|]); lia. }
  split; [exact busy_serves|]. split; [reflexivity|]. split; [reflexivity|].
  split; [exact H|]. split; [exact busy_fit|].
  exact (X8_aggregation_keeps_prices_coherent busy_store "nq_bars" "15min"
           busy_table 15 None None 50000 None busy_serves eq_refl eq_refl H
           busy_fit).
Defined.

Lemma X9_witness :
  given_days_valid (Some march_4th) (Some march_4th) /\
  valid_time_value march_4th = true /\
  bar_end_datetime first_busy_bar = Some (fmt_datetime march_4th) /\
  (In first_busy_bar
     (bars_in_range (option_map fmt_date (Some march_4th))
        (option_map fmt_date (Some march_4th)) busy_table)
   <-> In first_busy_bar (rows busy_table) /\
       within_days (Some march_4th) (Some march_4th) march_4th).
Proof.
  assert (G : given_days_valid (Some march_4th) (Some march_4th))
    by (split; reflexivity).
  split; [exact G|]. split; [reflexivity|]. split; [reflexivity|].
  exact (X9_date_window_by_calendar_day (Some march_4th) (Some march_4th)
           busy_table first_busy_bar march_4th G eq_refl eq_refl).
Defined.

Lemma X10_witness :
  valid_time_value march_4th = true /\
  (bar_end_datetime iso_bar = Some (fmt_iso march_4th) ->
   period_daily (bar_end_datetime iso_bar) = Some (fmt_date march_4th) /\
   ~ In iso_bar (bars_in_range None (Some (fmt_date march_4th)) iso_table)) /\
  (bar_end_datetime iso_bar = Some (fmt_date march_4th) ->
   period_daily (bar_end_datetime iso_bar) = Some (fmt_date march_4th) /\
   ~ In iso_bar (bars_in_range (Some (fmt_date march_4th)) None iso_table)).
Proof.
  split; [reflexivity|].
  exact (X10_date_window_misses_other_forms march_4th iso_table iso_bar None
           eq_refl).
Defined.

Lemma X11_witness :
  0 <= effective_limit three_hours /\
  exists o c' lg,
    (get_data ten_store "cl_bars" three_hours None = (o, c', lg) \/
     download_data ten_store "cl_bars" three_hours None = (o, c', lg)) /\
    exists r, o = Ok r /\
              response_rows r <= effective_limit three_hours
              <= MAX_DATA_POINTS.
Proof.
  assert (H : 0 <= effective_limit three_hours) by (vm_compute; discriminate).
  split; [exact H|].
  destruct (get_data ten_store "cl_bars" three_hours None) as [[o c'] lg] eqn:E.
  exists o, c', lg. split; [left; reflexivity|].
  exact (X11_response_bounded_by_limit ten_store "cl_bars" three_hours None c' o lg
           H (or_introl E)).
Defined.

Lemma X12_witness :
  connect_error quarter_store = None /\
  limit_parses raw_bars /\
  exists o c' lg,
    (get_data quarter_store "no_such_table" raw_bars None = (o, c', lg) \/
     (format_ok raw_bars = true /\
      download_data quarter_store "no_such_table" raw_bars None
      = (o, c', lg))) /\
    exists r, o = Ok r /\ name_status quarter_store "no_such_table" r.
Proof.
  assert (L : limit_parses raw_bars) by exact I.
  split; [reflexivity|]. split; [exact L|].
  destruct (get_data quarter_store "no_such_table" raw_bars None)
    as [[o c'] lg] eqn:E.
  exists o, c', lg. split; [left; reflexivity|].
  exact (X12_status_tells_the_table_name quarter_store "no_such_table" raw_bars
           None c' o lg eq_refl L (or_introl E)).
Defined.

Lemma X13_witness :
  valid_table_name "es_bars" = true /\
  connect_error quarter_store = None /\
  find_table quarter_store "es_bars" <> None /\
  arg_limit limit_abc = Some "abc" /\
  Py.int "abc" = None /\
  unreadable_limit "abc"
  = "Server error: invalid literal for int() with base 10: 'abc'" /\
  get_data quarter_store "es_bars" limit_abc None
  = (Ok (error_response (unreadable_limit "abc") 500), None,
     [MasterFind "es_bars"; MasterFind "es_bars"; MasterFind "es_bars"]) /\
  (format_ok limit_abc = true ->
   download_data quarter_store "es_bars" limit_abc None
   = (Ok (error_response (unreadable_limit "abc") 500), None, [])).
Proof.
  assert (F : find_table quarter_store "es_bars" <> None) by discriminate.
  split; [reflexivity|]. split; [reflexivity|]. split; [exact F|].
  split; [reflexivity|]. split; [reflexivity|]. split; [reflexivity|].
  exact (X13_unreadable_limit_is_a_server_error quarter_store "es_bars" limit_abc
           "abc" None eq_refl eq_refl F eq_refl eq_refl).
Defined.




End Instances.

Module PoolInstances.
Import Store Pool PoolCases PoolFacts.

Lemma X16_witness :
  0 <= 10 /\
  NoDup [0; 1; 2]%nat /\
  let m := run mixed_trace (fresh path 10) in
  0 <= _connection_count m <= 10 /\
  Z.of_nat (List.length (holders [0; 1; 2]%nat m)) <= _connection_count m.
Proof.
  assert (B : 0 <= 10) by lia.
  assert (N : NoDup [0; 1; 2]%nat).
  { repeat constructor; cbn; intuition discriminate. }
  split; [exact B|]. split; [exact N|].
  exact (X16_pool_keeps_within_its_bound path 10 mixed_trace [0; 1; 2]%nat B N).
Defined.

Lemma X17_witness :
  0 <= 2 /\
  Forall failed_connect two_failures /\
  2 <= Z.of_nat (List.length two_failures) /\
  let m := run two_failures (fresh path 2) in
  (forall th, _local m th = None) /\ exhausted m.
Proof.
  assert (B : 0 <= 2) by lia.
  assert (F : Forall failed_connect two_failures).
  { repeat constructor; eexists _, _; reflexivity. }
  assert (L : 2 <= Z.of_nat (List.length two_failures)) by (cbn; lia).
  split; [exact B|]. split; [exact F|]. split; [exact L|].
  exact (X17_failed_connects_use_up_the_pool path 2 two_failures B F L).
Defined.

Lemma X18_witness :
  NoDup [0; 1]%nat /\
  Z.of_nat (List.length [0; 1]%nat) = 2 /\
  let m := run (served (fun th => th) [0; 1]%nat) (fresh path 2) in
  _connection_count m = 2 /\
  (forall th, In th [0; 1]%nat -> _local m th = Some th) /\
  exhausted m.
Proof.
  assert (N : NoDup [0; 1]%nat).
  { repeat constructor; cbn; intuition discriminate. }
  split; [exact N|]. split; [reflexivity|].
  exact (X18_served_threads_keep_their_slots path 2 (fun th => th) [0; 1]%nat N
           eq_refl).
Defined.

End PoolInstances.

Module DrawingInstances.
Import Json Drawings DrawingsApp DrawingStatements DrawingCases DrawingFacts
       DrawingRoutes.

Lemma X19_witness :
  well_kept three_drawings /\
  well_kept (snd (create_drawings_table None three_drawings)) /\
  well_kept
    (snd (serve_all small_library
            [Save None (JObj swing_highs) noon; Delete None 2;
             Get None 4; List None None None]
            three_drawings)).
Proof.
  assert (W : well_kept three_drawings).
  { unfold well_kept. cbn [three_drawings saved_drawings rows sequence].
    split; [|split; [|split]].
    - repeat constructor; cbn; intuition discriminate.
    - repeat constructor; cbn; lia.
    - lia.
    - repeat constructor; cbn; try lia; try discriminate; auto.
      all: eexists; split; [reflexivity | cbn; tauto]. }
  split; [exact W|].
  exact (X19_saved_drawings_stay_well_kept small_library
           [Save None (JObj swing_highs) noon; Delete None 2;
            Get None 4; List None None None] None three_drawings W).
Defined.

Lemma X20_witness :
  saved_drawings created = Some (mk_table [] 0) /\
  0 <= sequence (mk_table [] 0) /\
  Sql.int64 (next_id (mk_table [] 0)) = true /\
  App.dict_get "name" swing_highs = Some (JStr "  swing highs ") /\
  let name := strip (str (repr small_library) (JStr "  swing highs ")) in
  name <> "" /\
  (String.length name <= 255)%nat /\
  int (member swing_highs "layout" (JInt 1))
  = Returns 2 /\
  member swing_highs "instruments" (JArr []) = JArr (map JStr ["ES"; "NQ"]) /\
  text_stored (member swing_highs "start_date" JNull)
  = Some (Some "2024-03-04") /\
  text_stored (member swing_highs "end_date" JNull) = Some None /\
  let drawings := member swing_highs "drawings" (JArr []) in
  exists db',
    save_drawings small_library None (JObj swing_highs) noon created
    = (Returns (mk_response 200
                  (Saved (next_id (mk_table [] 0))
                     "Drawings saved successfully")), db') /\
    exists instruments drawings_read,
      get_drawing small_library None (next_id (mk_table [] 0)) db'
      = (Returns (mk_response 200
                    (Drawing
                       {| v_id := next_id (mk_table [] 0);
                          v_name := name;
                          v_layout := Some (layout_stored 2);
                          v_instruments := instruments;
                          v_timeframe :=
                            Some (timeframe_stored
                                    (member swing_highs "timeframe"
                                       (JStr "1min")));
                          v_start_date := Some "2024-03-04";
                          v_end_date := None;
                          v_drawings := drawings_read;
                          v_created_at := Some noon |})), db') /\
      (comma_free ["ES"; "NQ"] -> instruments = ["ES"; "NQ"]) /\
      (loads small_library (dumps small_library drawings) = Some drawings ->
       dumps small_library drawings <> "" -> drawings_read = drawings).
Proof.
  assert (S : 0 <= sequence (mk_table [] 0)) by (cbn; lia).
  assert (Ne : strip (str (repr small_library) (JStr "  swing highs ")) <> "")
    by (vm_compute; discriminate).
  assert (Le : (String.length
                  (strip (str (repr small_library) (JStr "  swing highs ")))
                <= 255)%nat)
    by (vm_compute; lia).
  split; [reflexivity|]. split; [exact S|]. split; [reflexivity|].
  split; [reflexivity|]. split; [exact Ne|]. split; [exact Le|].
  split; [reflexivity|]. split; [reflexivity|]. split; [reflexivity|].
  split; [reflexivity|].
  exact (X20_saved_drawing_reads_back small_library swing_highs noon created
           (mk_table [] 0) (JStr "  swing highs ") 2 ["ES"; "NQ"]
           (Some "2024-03-04") None
           eq_refl S eq_refl eq_refl Ne Le eq_refl eq_refl eq_refl eq_refl).
Defined.

Lemma X21_witness :
  sequence_kept fifth_left /\
  let given :=
    ids_given
      (fst (serve_all small_library
              [Delete None 5; Save None (JObj swing_highs) noon;
               Save None (JObj swing_highs) noon]
              fifth_left)) in
  Sorted Z.lt given /\
  Forall (fun i => last_id fifth_left < i /\
                   Forall (fun held => held < i) (ids_held fifth_left))
    given.
Proof.
  assert (K : sequence_kept fifth_left).
  { unfold sequence_kept. cbn [fifth_left saved_drawings rows sequence].
    repeat constructor. cbn. lia. }
  split; [exact K|].
  exact (X21_drawing_ids_are_never_reused small_library
           [Delete None 5; Save None (JObj swing_highs) noon;
            Save None (JObj swing_highs) noon] fifth_left K).
Defined.

Lemma X22_witness :
  saved_drawings three_drawings
  = Some (mk_table [drawing_at 1 "2024-03-01 09:00:00";
                    drawing_at 2 "2024-03-02 09:00:00";
                    drawing_at 3 "2024-03-03 09:00:00"] 3) /\
  0 < 2 /\
  Sql.int64 2 = true /\
  In 2 (map id [drawing_at 1 "2024-03-01 09:00:00";
                drawing_at 2 "2024-03-02 09:00:00";
                drawing_at 3 "2024-03-03 09:00:00"]) /\
  exists db',
    delete_drawing None 2 three_drawings
    = (Returns (mk_response 200 (Message "Drawing deleted successfully")),
       db') /\
    get_drawing small_library None 2 db'
    = (Returns (error_response "Drawing not found" 404), db') /\
    delete_drawing None 2 db'
    = (Returns (error_response "Drawing not found" 404), db') /\
    (forall j, j <> 2 ->
       fst (get_drawing small_library None j db')
       = fst (get_drawing small_library None j three_drawings)) /\
    last_id db' = last_id three_drawings.
Proof.
  assert (P : 0 < 2) by lia.
  assert (M : In 2 (map id [drawing_at 1 "2024-03-01 09:00:00";
                            drawing_at 2 "2024-03-02 09:00:00";
                            drawing_at 3 "2024-03-03 09:00:00"]))
    by (cbn; tauto).
  split; [reflexivity|]. split; [exact P|]. split; [reflexivity|].
  split; [exact M|].
  exact (X22_deleted_drawing_is_gone small_library three_drawings _ 2
           eq_refl P eq_refl M).
Defined.

Lemma X23_witness :
  saved_drawings three_drawings
  = Some (mk_table [drawing_at 1 "2024-03-01 09:00:00";
                    drawing_at 2 "2024-03-02 09:00:00";
                    drawing_at 3 "2024-03-03 09:00:00"] 3) /\
  arg_value (Some "2") 1 = Some 2 /\
  arg_value (Some "2") 50 = Some 2 /\
  let page := Z.max 1 2 in
  let per_page := Z.min 2 100 in
  let total := 3 in
  let offset := (page - 1) * per_page in
  1 <= per_page /\
  Sql.int64 offset = true /\
  exists before shown after pages,
    get_saved_drawings small_library None (Some "2") (Some "2") three_drawings
    = (Returns (mk_response 200
                  (Listing (map summary_of shown)
                     (mk_pagination page per_page total pages))),
       three_drawings) /\
    Permutation [drawing_at 1 "2024-03-01 09:00:00";
                 drawing_at 2 "2024-03-02 09:00:00";
                 drawing_at 3 "2024-03-03 09:00:00"]
      (before ++ shown ++ after) /\
    Z.of_nat (List.length before) = Z.min offset total /\
    Z.of_nat (List.length shown)
    = Z.min per_page (total - Z.of_nat (List.length before)) /\
    (forall b x, In b before -> In x shown -> as_new_as b x) /\
    (forall x a, In x shown -> In a after -> as_new_as x a) /\
    Sorted newest_first (map summary_of shown) /\
    (pages - 1) * per_page < total <= pages * per_page /\
    (pages < page -> shown = []).
Proof.
  assert (Pp : 1 <= Z.min 2 100) by lia.
  split; [reflexivity|]. split; [reflexivity|]. split; [reflexivity|].
  split; [exact Pp|]. split; [reflexivity|].
  exact (X23_page_of_saved_drawings small_library three_drawings _
           (Some "2") (Some "2") 2 2 eq_refl eq_refl eq_refl Pp eq_refl).
Defined.

Lemma X24_witness :
  saved_drawings three_drawings
  = Some (mk_table [drawing_at 1 "2024-03-01 09:00:00";
                    drawing_at 2 "2024-03-02 09:00:00";
                    drawing_at 3 "2024-03-03 09:00:00"] 3) /\
  arg_value None 1 = Some 1 /\
  arg_value (Some "0") 50 = Some 0 /\
  get_saved_drawings small_library None None (Some "0") three_drawings
  = (Returns (error_response
                "Server error: integer division or modulo by zero" 500),
     three_drawings).
Proof.
  split; [reflexivity|]. split; [reflexivity|]. split; [reflexivity|].
  exact (X24_page_size_zero_is_a_server_error small_library three_drawings _
           None (Some "0") 1 eq_refl eq_refl eq_refl).
Defined.

Lemma X26_witness :
  saved_drawings three_drawings
  = Some (mk_table [drawing_at 1 "2024-03-01 09:00:00";
                    drawing_at 2 "2024-03-02 09:00:00";
                    drawing_at 3 "2024-03-03 09:00:00"] 3) /\
  arg_value (Some "7") 1 = Some 7 /\
  arg_value (Some "-1") 50 = Some (-1) /\
  -1 < 0 /\
  Sql.int64 (-1) = true /\
  Sql.int64 ((Z.max 1 7 - 1) * -1) = true /\
  exists shown paging,
    get_saved_drawings small_library None (Some "7") (Some "-1") three_drawings
    = (Returns (mk_response 200 (Listing (map summary_of shown) paging)),
       three_drawings) /\
    per_page paging = -1 /\
    Permutation shown
      [drawing_at 1 "2024-03-01 09:00:00";
       drawing_at 2 "2024-03-02 09:00:00";
       drawing_at 3 "2024-03-03 09:00:00"].
Proof.
  assert (N : -1 < 0) by lia.
  split; [reflexivity|]. split; [reflexivity|]. split; [reflexivity|].
  split; [exact N|]. split; [reflexivity|]. split; [reflexivity|].
  exact (X26_negative_page_size_lists_everything small_library three_drawings _
           (Some "7") (Some "-1") 7 (-1) eq_refl eq_refl eq_refl N eq_refl
           eq_refl).
Defined.

End DrawingInstances.
